(** * The Pipeline: hash router and CMS clients

  A shallow embedding of the client-side router
  ([js/router.js], class [PipelineRouter]) and of the two CMS clients
  ([js/api.js], class [AppwriteAPIService]; the Sanity client, class
  [SanityAPIService]) together with the properties of route matching,
  dispatch, the time-boxed cache and the fallback policy.

  Conventions of the embedding.
  - A JavaScript string is a [string] holding its UTF-8 bytes.  Every
    separator the code looks for (["/"], ["?"], [":"]) is ASCII, so
    splitting and prefix tests agree with the UTF-16 original.
  - [Date.now()] and the remote store are not computed by the program:
    each operation receives their answers as an [Env] and logs the
    remote requests it issues, so "no remote call" is a statement about
    the log.
  - The route parameters are a [gmap] from names to values, the own
    properties of the object; an assignment to [__proto__] reaches the
    inherited setter and creates none.  A document or a filter object is
    the list of its own properties in creation order.  A lookup in an
    object literal reads the own keys; the theorems about the type list
    of a search assume that it holds no name inherited from
    [Object.prototype].
  - The cache, a [Map], is a [gmap]; the route table, a [Map] that is
    scanned in insertion order, is a list of pairs. *)

From Stdlib Require Import ZArith Ascii.
From stdpp Require Import base strings gmap list.

Set Warnings "-register-all,-clear-no-such-hyp".
Local Open Scope Z_scope.
Local Open Scope stdpp_scope.

(** ** JavaScript string primitives *)
Module JSString.

(** [s.split(sep)] for a one-character separator: the result is never
    empty, [("").split("/")] is [[""]], and adjacent separators produce
    empty segments. *)
Fixpoint split (sep : ascii) (s : string) : list string :=
  match s with
  | EmptyString => [EmptyString]
  | String c s' =>
      if Ascii.eqb c sep then EmptyString :: split sep s'
      else match split sep s' with
           | h :: t => String c h :: t
           | [] => [String c EmptyString]
           end
  end.

(** [s.startsWith(p)] *)
Fixpoint startsWith (s p : string) {struct p} : bool :=
  match p with
  | EmptyString => true
  | String c p' =>
      match s with
      | String d s' => Ascii.eqb c d && startsWith s' p'
      | EmptyString => false
      end
  end.

(** [s.substring(1)] *)
Definition substring1 (s : string) : string :=
  match s with
  | EmptyString => EmptyString
  | String _ s' => s'
  end.

(** [s.includes(needle)] *)
Fixpoint includes (s needle : string) : bool :=
  startsWith s needle ||
  match s with
  | EmptyString => false
  | String _ s' => includes s' needle
  end.

(** [s.slice(0, -1)] *)
Fixpoint dropLast (s : string) : string :=
  match s with
  | EmptyString => EmptyString
  | String c EmptyString => EmptyString
  | String c s' => String c (dropLast s')
  end.

(** The double quote, for query texts. *)
Definition dq : string := String "034" EmptyString.

(** [xs.join(sep)] on strings *)
Fixpoint join (sep : string) (xs : list string) : string :=
  match xs with
  | [] => EmptyString
  | [x] => x
  | x :: xs' => x +:+ sep +:+ join sep xs'
  end.

(** White space and line terminators, as [trim] understands them, by the
    bytes of their UTF-8 encoding: TAB, LF, VT, FF, CR, SP; U+00A0;
    U+1680, U+2000..U+200A, U+2028, U+2029, U+202F, U+205F, U+3000,
    U+FEFF. *)
Definition ws1 (c : ascii) : bool :=
  let n := N_of_ascii c in
  ((9 <=? n) && (n <=? 13) || (n =? 32))%N.

Definition ws2 (c1 c2 : ascii) : bool :=
  ((N_of_ascii c1 =? 194) && (N_of_ascii c2 =? 160))%N.

Definition ws3 (c1 c2 c3 : ascii) : bool :=
  let a := N_of_ascii c1 in
  let b := N_of_ascii c2 in
  let c := N_of_ascii c3 in
  ((a =? 225) && (b =? 154) && (c =? 128)
   || (a =? 226) && (b =? 128)
      && ((128 <=? c) && (c <=? 138) || (c =? 168) || (c =? 169) || (c =? 175))
   || (a =? 226) && (b =? 129) && (c =? 159)
   || (a =? 227) && (b =? 128) && (c =? 128)
   || (a =? 239) && (b =? 187) && (c =? 191))%N.

(** Removal of the leading white space, given the three recognisers. *)
Fixpoint stripLeading (w1 : ascii -> bool) (w2 : ascii -> ascii -> bool)
    (w3 : ascii -> ascii -> ascii -> bool) (s : string) : string :=
  match s with
  | EmptyString => EmptyString
  | String c1 r1 =>
      if w1 c1 then stripLeading w1 w2 w3 r1
      else match r1 with
           | String c2 r2 =>
               if w2 c1 c2 then stripLeading w1 w2 w3 r2
               else match r2 with
                    | String c3 r3 =>
                        if w3 c1 c2 c3 then stripLeading w1 w2 w3 r3 else s
                    | EmptyString => s
                    end
           | EmptyString => s
           end
  end.

Definition reverse (s : string) : string :=
  String.string_of_list_ascii (rev (String.list_ascii_of_string s)).

Definition trimStart (s : string) : string := stripLeading ws1 ws2 ws3 s.

(** The trailing white space is the leading one of the reversed bytes. *)
Definition trimEnd (s : string) : string :=
  reverse (stripLeading ws1 (fun a b => ws2 b a) (fun a b c => ws3 c b a) (reverse s)).

(** [s.trim()] *)
Definition trim (s : string) : string := trimEnd (trimStart s).

(** The strings [trim] treats as one white-space character. *)
Inductive WhiteSpaceChar : string -> Prop :=
| ws_one (c : ascii) : ws1 c = true -> WhiteSpaceChar (String c EmptyString)
| ws_two (c1 c2 : ascii) :
    ws2 c1 c2 = true -> WhiteSpaceChar (String c1 (String c2 EmptyString))
| ws_three (c1 c2 c3 : ascii) :
    ws3 c1 c2 c3 = true ->
    WhiteSpaceChar (String c1 (String c2 (String c3 EmptyString))).

(** A term that consists only of white space (the empty one included). *)
Inductive WhiteSpaceOnly : string -> Prop :=
| wso_empty : WhiteSpaceOnly EmptyString
| wso_more (w s : string) :
    WhiteSpaceChar w -> WhiteSpaceOnly s -> WhiteSpaceOnly (w +:+ s).

End JSString.

(** ** The router *)
Module Router.
Import JSString.

(** The page renderers that [setupRoutes] registers. *)
Inductive Handler : Type :=
| renderHome
| renderOpportunities
| renderOpportunityDetail
| renderDirectory
| renderCompanyDetail
| renderRegulatory
| renderRegulatoryDetail
| renderInsights
| renderInsightDetail
| renderSearch.

(** [this.routes] is a JavaScript [Map]: keys in insertion order, a key
    set again keeps its place and takes the new value. *)
Definition Routes : Type := list (string * Handler).

Fixpoint map_set (k : string) (v : Handler) (m : Routes) : Routes :=
  match m with
  | [] => [(k, v)]
  | (k', v') :: m' =>
      if String.eqb k' k then (k, v) :: m' else (k', v') :: map_set k v m'
  end.

Fixpoint map_get (k : string) (m : Routes) : option Handler :=
  match m with
  | [] => None
  | (k', v') :: m' => if String.eqb k' k then Some v' else map_get k m'
  end.

Definition addRoute (path : string) (handler : Handler) (routes : Routes) : Routes :=
  map_set path handler routes.

Definition setupRoutes : Routes :=
  addRoute "search" renderSearch
  (addRoute "insights/:id" renderInsightDetail
  (addRoute "insights" renderInsights
  (addRoute "regulatory/:id" renderRegulatoryDetail
  (addRoute "regulatory" renderRegulatory
  (addRoute "directory/:id" renderCompanyDetail
  (addRoute "directory" renderDirectory
  (addRoute "opportunities/:id" renderOpportunityDetail
  (addRoute "opportunities" renderOpportunities
  (addRoute "home" renderHome
  (addRoute "" renderHome [])))))))))).

(** [window.location.hash.substring(1) || ""] *)
Definition getCurrentRoute (hash : string) : string := substring1 hash.

Record ParsedRoute : Type := mkParsed {
  path : string;
  params : gmap string string;
  route : string
}.

(** [tempParams[paramName] = value] on an object literal, with a text as
    value: the name [__proto__] is the accessor inherited from
    [Object.prototype], whose setter ignores a value that is not an
    object, so no own property is created; every other name becomes (or
    overwrites) an own property. *)
Definition setParam (paramName value : string) (tempParams : gmap string string)
    : gmap string string :=
  if String.eqb paramName "__proto__" then tempParams
  else <[paramName := value]> tempParams.

(** The inner [for (let i ...)] loop of [parseRoute], run over the two
    segment lists side by side: [Some tempParams] when [isMatch] stays
    true, [None] at the [break].  It is only entered when both lists have
    the same length, so the last case is never reached. *)
Fixpoint matchSegments (pathParts parts : list string)
    (tempParams : gmap string string) : option (gmap string string) :=
  match pathParts, parts with
  | [], _ => Some tempParams
  | pp :: pathParts', p :: parts' =>
      if startsWith pp ":" then
        matchSegments pathParts' parts' (setParam (substring1 pp) p tempParams)
      else if String.eqb pp p then matchSegments pathParts' parts' tempParams
      else None
  | _ :: _, [] => None
  end.

(** The body of the outer loop for one registered pattern. *)
Definition matchPattern (path : string) (parts : list string)
    : option (gmap string string) :=
  let pathParts := split "/" path in
  if Nat.eqb (length pathParts) (length parts)
  then matchSegments pathParts parts ∅
  else None.

(** [for (const [path] of this.routes)], leaving at the first match. *)
Fixpoint scanRoutes (routes : Routes) (parts : list string)
    : option (string * gmap string string) :=
  match routes with
  | [] => None
  | (path, _) :: routes' =>
      match matchPattern path parts with
      | Some tempParams => Some (path, tempParams)
      | None => scanRoutes routes' parts
      end
  end.

(** [Object.assign(params, tempParams)] *)
Definition objectAssign (target source : gmap string string) : gmap string string :=
  source ∪ target.

(** [matchedPath] starts as [""] and is what [parseRoute] returns when
    the scan finds nothing. *)
Definition parseRoute (routes : Routes) (route : string) : ParsedRoute :=
  let parts := split "/" route in
  match scanRoutes routes parts with
  | Some (matchedPath, tempParams) =>
      mkParsed matchedPath (objectAssign ∅ tempParams) route
  | None => mkParsed "" ∅ route
  end.

(** What the content region shows after [handleRoute].  [Page h ps] is
    whatever the renderer [h] puts there for the parameters [ps]. *)
Inductive View : Type :=
| Page (handler : Handler) (params : gmap string string)
| NotFoundView
| ErrorView.

(** [handleRoute]: [completes h ps route] tells whether the guarded
    block (the awaited handler, then [updateNavigation] and
    [trackPageView]) runs to its end; when it throws, the [catch] renders
    the error view. *)
Definition handleRoute (routes : Routes)
    (completes : Handler -> gmap string string -> string -> bool)
    (hash : string) : View :=
  let route := getCurrentRoute hash in
  let r := parseRoute routes route in
  match map_get (path r) routes with
  | Some handler =>
      if completes handler (params r) route then Page handler (params r)
      else ErrorView
  | None => NotFoundView
  end.

(** [goToPage] and [handleFilterChange] compute the route they navigate
    to from the current one.  [query] is [urlParams.toString()] after
    [urlParams.set("page", page)]; [encoded] is
    [encodeURIComponent(filterValue)]. *)
Definition basePath (currentRoute : string) : string :=
  hd EmptyString (split "?" currentRoute).

Definition goToPage (currentRoute query : string) : string :=
  basePath currentRoute +:+ "?" +:+ query.

Definition handleFilterChange (currentRoute filterKey filterValue encoded : string) : string :=
  if String.eqb filterValue "" then basePath currentRoute
  else basePath currentRoute +:+ "?" +:+ filterKey +:+ "=" +:+ encoded.

(** *** The vocabulary of the specification

    A pattern matches a route when both have the same number of segments
    and every literal segment of the pattern equals the segment of the
    route at its position. *)
Definition Matches (pattern route : string) : Prop :=
  let pathParts := split "/" pattern in
  let parts := split "/" route in
  length pathParts = length parts /\
  forall (i : nat) (a b : string),
    pathParts !! i = Some a -> parts !! i = Some b ->
    startsWith a ":" = false -> a = b.

(** [name] is bound to [value]: some parameter segment [":name"] of the
    pattern stands where the route has [value], and no later segment of
    the pattern carries the same name. *)
Definition BoundAt (pattern route name value : string) : Prop :=
  exists i : nat,
    split "/" pattern !! i = Some (":" +:+ name) /\
    split "/" route !! i = Some value /\
    forall (j : nat), (i < j)%nat -> split "/" pattern !! j <> Some (":" +:+ name).

(** The last segment of the pattern is a literal one. *)
Definition endsWithLiteral (pattern : string) : bool :=
  match last (split "/" pattern) with
  | Some segment => negb (startsWith segment ":")
  | None => false
  end.

End Router.

(** ** Values, the cache and the effects shared by both CMS clients *)
Module Cms.
Import JSString.

(** JavaScript values as the clients handle them.  An object literal is
    the list of its own properties in creation order. *)
Inductive Value : Type :=
| VUndefined
| VNull
| VBool (b : bool)
| VNum (n : Z)
| VStr (s : string)
| VArr (items : list Value)
| VObj (fields : list (string * Value)).

Definition Obj : Type := list (string * Value).

(** [o[k]] on own properties; a missing one reads as [undefined]. *)
Fixpoint obj_get (k : string) (o : Obj) : Value :=
  match o with
  | [] => VUndefined
  | (k', v) :: o' => if String.eqb k' k then v else obj_get k o'
  end.

(** [{...o, k: v}]: an existing property keeps its place. *)
Fixpoint obj_set (k : string) (v : Value) (o : Obj) : Obj :=
  match o with
  | [] => [(k, v)]
  | (k', v') :: o' =>
      if String.eqb k' k then (k, v) :: o' else (k', v') :: obj_set k v o'
  end.

Definition truthy (v : Value) : bool :=
  match v with
  | VUndefined | VNull => false
  | VBool b => b
  | VNum n => negb (n =? 0)
  | VStr s => negb (String.eqb s "")
  | VArr _ | VObj _ => true
  end.

(** [a || b] *)
Definition orElse (a b : Value) : Value := if truthy a then a else b.

(** A destructuring default, [{ x = d } = o]: taken when the property is
    [undefined]. *)
Definition withDefault (v d : Value) : Value :=
  match v with
  | VUndefined => d
  | _ => v
  end.

(** A settled promise. *)
Inductive Response (A : Type) : Type :=
| Resolved (a : A)
| Rejected (e : Value).
Arguments Resolved {A} a.
Arguments Rejected {A} e.

(** What [databases.listDocuments] resolves to. *)
Record DocumentList : Type := mkDocumentList {
  total : Value;
  documents : list Obj
}.

(** What [fetch] resolves to: [json] is the settled [response.json()]. *)
Record HttpResponse : Type := mkHttpResponse {
  ok : bool;
  status : Value;
  statusText : string;
  json : Response Value
}.

(** [Appwrite.Query.*] *)
Module Query.
Inductive t : Type :=
| orderDesc (attribute : string)
| orderAsc (attribute : string)
| limit (n : Value)
| offset (n : Value)
| equal (attribute : string) (v : Value)
| search (attribute : string) (v : Value).
End Query.
Abbreviation Query := Query.t.

(** The calls that leave the browser. *)
Inductive Request : Type :=
| ListDocuments (databaseId collectionId : string) (queries : list Query)
| GetDocument (databaseId collectionId : string) (documentId : Value)
| CreateDocument (databaseId collectionId documentId : string) (data : Obj)
| Fetch (url : string).

Record CacheEntry : Type := mkEntry {
  data : Value;
  timestamp : Z
}.

(** The answers of everything the clients do not compute themselves.
    [clock n] is the [n]-th reading of [Date.now()] (or [new Date()]);
    the remote answers take the number of requests issued before. *)
Record Env : Type := mkEnv {
  clock : nat -> Z;
  uniqueId : nat -> string;
  listDocuments : nat -> string -> string -> list Query -> Response DocumentList;
  getDocument : nat -> string -> string -> Value -> Response Value;
  createDocument : nat -> string -> string -> string -> Obj -> Response Value;
  fetch : nat -> string -> Response HttpResponse;
  JSON_stringify : Value -> string;
  ToString : Value -> string;
  plus : Value -> Value -> Value;
  toISOString : Z -> string;
  encodeURIComponent : string -> string;
  substring : string -> Z -> Z -> string
}.

(** The state of one client instance and of its surroundings. *)
Record World : Type := mkWorld {
  cache : gmap string CacheEntry;
  clockReads : nat;
  idsDrawn : nat;
  log : list Request
}.

Inductive Outcome (A : Type) : Type :=
| Return (a : A)
| Throw (e : Value).
Arguments Return {A} a.
Arguments Throw {A} e.

(** Computations of a client: they read the environment, change the
    world and return or throw. *)
Definition M (A : Type) : Type := Env -> World -> Outcome A * World.

Definition ret {A : Type} (a : A) : M A := fun _ w => (Return a, w).

Definition throw {A : Type} (e : Value) : M A := fun _ w => (Throw e, w).

Definition bind {A B : Type} (m : M A) (k : A -> M B) : M B :=
  fun env w =>
    match m env w with
    | (Return a, w') => k a env w'
    | (Throw e, w') => (Throw e, w')
    end.

(** [try { body } catch (error) { handler }] *)
Definition tryCatch {A : Type} (body : M A) (handler : Value -> M A) : M A :=
  fun env w =>
    match body env w with
    | (Return a, w') => (Return a, w')
    | (Throw e, w') => handler e env w'
    end.

#[global] Instance M_ret : MRet M := @ret.
#[global] Instance M_bind : MBind M := fun A B k m => bind m k.

Definition ask : M Env := fun env w => (Return env, w).

(** [Date.now()] *)
Definition dateNow : M Z :=
  fun env w =>
    (Return (clock env (clockReads w)),
     mkWorld (cache w) (S (clockReads w)) (idsDrawn w) (log w)).

(** [Appwrite.ID.unique()] *)
Definition ID_unique : M string :=
  fun env w =>
    (Return (uniqueId env (idsDrawn w)),
     mkWorld (cache w) (clockReads w) (S (idsDrawn w)) (log w)).

(** [this.cache.get(key)] *)
Definition cacheGet (key : string) : M (option CacheEntry) :=
  fun _ w => (Return (cache w !! key), w).

(** [this.cache.set(key, entry)] *)
Definition cacheSet (key : string) (entry : CacheEntry) : M unit :=
  fun _ w =>
    (Return tt, mkWorld (<[key := entry]> (cache w)) (clockReads w) (idsDrawn w) (log w)).

Definition cachePut (c : gmap string CacheEntry) : M unit :=
  fun _ w => (Return tt, mkWorld c (clockReads w) (idsDrawn w) (log w)).

(** Issuing a request: it is logged and its settled promise handed back. *)
Definition issue {A : Type} (r : Request) (settled : Env -> nat -> Response A)
    : M (Response A) :=
  fun env w =>
    (Return (settled env (length (log w))),
     mkWorld (cache w) (clockReads w) (idsDrawn w) (log w ++ [r])).

(** [await promise] *)
Definition await {A : Type} (p : Response A) : M A :=
  match p with
  | Resolved a => ret a
  | Rejected e => throw e
  end.

Definition call_listDocuments (databaseId collectionId : string)
    (queries : list Query) : M (Response DocumentList) :=
  issue (ListDocuments databaseId collectionId queries)
        (fun env n => listDocuments env n databaseId collectionId queries).

Definition call_getDocument (databaseId collectionId : string) (id : Value)
    : M (Response Value) :=
  issue (GetDocument databaseId collectionId id)
        (fun env n => getDocument env n databaseId collectionId id).

Definition call_createDocument (databaseId collectionId docId : string)
    (payload : Obj) : M (Response Value) :=
  issue (CreateDocument databaseId collectionId docId payload)
        (fun env n => createDocument env n databaseId collectionId docId payload).

Definition call_fetch (url : string) : M (Response HttpResponse) :=
  issue (Fetch url) (fun env n => fetch env n url).

(** The error a property read on [null] or [undefined] raises, and the
    one a call of a missing method raises. *)
Definition TypeError : Value := VStr "TypeError".

(** [v.k] *)
Definition getProp (v : Value) (k : string) : M Value :=
  match v with
  | VUndefined | VNull => throw TypeError
  | VObj fields => ret (obj_get k fields)
  | _ => ret VUndefined
  end.

(** The four logical collections. *)
Inductive Collection : Type :=
| Opportunities
| Companies
| Regulatory
| Articles.

(** Every key of the cache of [w] is still a key of the cache of [w']. *)
Definition keysKept (w w' : World) : Prop :=
  forall key : string, is_Some (cache w !! key) -> is_Some (cache w' !! key).

(** A computation that never removes a key from the cache. *)
Definition Keeps {A : Type} (m : M A) : Prop :=
  forall (env : Env) (w : World), keysKept w (m env w).2.

(** Sample surroundings: a remote store that answers every request with
    [docs] and accepts every document, and one that is unreachable.  The
    clock advances by one second at each reading. *)
Definition sampleClock (n : nat) : Z := 1000 * Z.of_nat n.

Definition onlineEnv (docs : DocumentList) : Env :=
  mkEnv sampleClock (fun _ => "unique()")
        (fun _ _ _ _ => Resolved docs)
        (fun _ _ _ _ => Resolved (VObj []))
        (fun _ _ _ docId payload => Resolved (VObj (obj_set "$id" (VStr docId) payload)))
        (fun _ _ => Resolved (mkHttpResponse true (VNum 200) "OK"
                                (Resolved (VObj [("result", VArr [])]))))
        (fun _ => "{}") (fun _ => "") (fun a _ => a)
        (fun _ => "2024-08-22T10:00:00.000Z") (fun s => s) (fun s _ _ => s).

Definition offlineEnv : Env :=
  mkEnv sampleClock (fun _ => "unique()")
        (fun _ _ _ _ => Rejected (VStr "offline"))
        (fun _ _ _ _ => Rejected (VStr "offline"))
        (fun _ _ _ _ _ => Rejected (VStr "offline"))
        (fun _ _ => Rejected (VStr "offline"))
        (fun _ => "{}") (fun _ => "") (fun a _ => a)
        (fun _ => "2024-08-22T10:00:00.000Z") (fun s => s) (fun s _ _ => s).

(** Unreachable as well, with a clock that reads [now] every time. *)
Definition envAt (now : Z) : Env :=
  mkEnv (fun _ => now) (fun _ => "unique()")
        (fun _ _ _ _ => Rejected (VStr "offline"))
        (fun _ _ _ _ => Rejected (VStr "offline"))
        (fun _ _ _ _ _ => Rejected (VStr "offline"))
        (fun _ _ => Rejected (VStr "offline"))
        (fun _ => "{}") (fun _ => "") (fun a _ => a)
        (fun _ => "2024-08-22T10:00:00.000Z") (fun s => s) (fun s _ _ => s).

Definition sampleDocs : DocumentList :=
  mkDocumentList (VNum 1) [[("$id", VStr "doc-1"); ("title", VStr "Tender")]].

(** A store that answers for every collection but ["regulatory"]. *)
Definition flakyEnv : Env :=
  mkEnv sampleClock (fun _ => "unique()")
        (fun _ _ collectionId _ =>
           if String.eqb collectionId "regulatory"
           then Rejected (VStr "timeout") else Resolved sampleDocs)
        (fun _ _ _ _ => Resolved (VObj []))
        (fun _ _ _ docId payload => Resolved (VObj (obj_set "$id" (VStr docId) payload)))
        (fun _ _ => Rejected (VStr "timeout"))
        (fun _ => "{}") (fun _ => "") (fun a _ => a)
        (fun _ => "2024-08-22T10:00:00.000Z") (fun s => s) (fun s _ _ => s).

Definition emptyWorld : World := mkWorld ∅ 0 0 [].

(** A world whose cache holds [entry] under [key], read [reads] times. *)
Definition worldWith (key : string) (entry : CacheEntry) (reads : nat) : World :=
  mkWorld {[ key := entry ]} reads 0 [].

End Cms.


(** ** The Appwrite client ([AppwriteAPIService]) *)
Module Appwrite.
Import JSString Cms.

Definition endpoint : string := "https://cloud.appwrite.io/v1".
Definition projectId : string := "68bf9ed10019de00e1d5".
Definition databaseId : string := "68bfa1020007a42a4845".

(** [this.collections], in the order of [Object.keys]. *)
Definition collections : list (string * string) :=
  [("opportunities", "opportunities"); ("companies", "companies");
   ("regulatory", "regulatory"); ("articles", "articles")].

(** [this.collections[key]], by the own keys of the table.  The code also
    finds the names inherited from [Object.prototype] there; the theorems
    about type lists given by a caller leave those names out
    ([MergedSearch.ownNames]). *)
Fixpoint lookupCollection (key : string) (cs : list (string * string)) : option string :=
  match cs with
  | [] => None
  | (k, id) :: cs' => if String.eqb k key then Some id else lookupCollection key cs'
  end.

(** 5 minutes *)
Definition cacheTimeout : Z := 5 * 60 * 1000.

Definition getCacheKey (collection : string) (query : Value) : M string :=
  env ← ask; mret (collection +:+ "_" +:+ JSON_stringify env query).

(** [cacheEntry && (Date.now() - cacheEntry.timestamp < this.cacheTimeout)]:
    the clock is read only when there is an entry. *)
Definition isValidCache (cacheEntry : option CacheEntry) : M bool :=
  match cacheEntry with
  | None => mret false
  | Some entry => now ← dateNow; mret (now - timestamp entry <? cacheTimeout)
  end.

Definition setCache (key : string) (d : Value) : M unit :=
  now ← dateNow; cacheSet key (mkEntry d now).

Definition clearCache : M unit := cachePut ∅.

(** The keys are collected first and deleted afterwards. *)
Definition clearCacheByCollection (collection : string) : M unit :=
  fun env w =>
    let keysToDelete :=
      filter (fun key => includes key collection = true)
             (map fst (map_to_list (cache w))) in
    cachePut (foldl (fun c key => delete key c) (cache w) keysToDelete) env w.

(** *** Mock data *)
Definition getMockOpportunities : Value :=
  VArr
    [VObj [("$id", VStr "mock-opp-1");
           ("title", VStr "Senior Reservoir Engineer - Lagos");
           ("description", VStr "Lead reservoir modeling and simulation projects for offshore oil fields. Minimum 8 years experience required.");
           ("opportunityType", VStr "Job");
           ("closingDate", VStr "2024-09-15");
           ("location", VStr "Lagos, Nigeria");
           ("company", VObj [("companyName", VStr "Shell Nigeria"); ("sector", VStr "Upstream")]);
           ("$createdAt", VStr "2024-08-22T10:00:00.000Z")];
     VObj [("$id", VStr "mock-opp-2");
           ("title", VStr "Equipment Supply Contract - $50M");
           ("description", VStr "Supply and maintenance of drilling equipment for deep water operations.");
           ("opportunityType", VStr "Tender");
           ("closingDate", VStr "2024-09-30");
           ("location", VStr "Port Harcourt, Nigeria");
           ("company", VObj [("companyName", VStr "TotalEnergies"); ("sector", VStr "Upstream")]);
           ("$createdAt", VStr "2024-08-21T10:00:00.000Z")]].

Definition getMockCompanies : Value :=
  VArr
    [VObj [("$id", VStr "mock-comp-1");
           ("companyName", VStr "Shell Petroleum Development Company");
           ("sector", VStr "Upstream");
           ("description", VStr "Leading international oil and gas company operating in Nigeria since 1936.");
           ("ncdmbNumber", VStr "NCDMB-001-2024");
           ("website", VStr "https://shell.com.ng")];
     VObj [("$id", VStr "mock-comp-2");
           ("companyName", VStr "TotalEnergies Nigeria");
           ("sector", VStr "Upstream");
           ("description", VStr "French multinational integrated energy company.");
           ("ncdmbNumber", VStr "NCDMB-002-2024");
           ("website", VStr "https://totalenergies.com.ng")]].

Definition getMockRegulatory : Value :=
  VArr
    [VObj [("$id", VStr "mock-reg-1");
           ("title", VStr "New Environmental Impact Assessment Guidelines");
           ("source", VStr "NUPRC");
           ("summary", VStr "Updated EIA requirements for oil and gas operations.");
           ("publishedDate", VStr "2024-08-22")]].

Definition getMockArticles : Value :=
  VArr
    [VObj [("$id", VStr "mock-art-1");
           ("title", VStr "Nigeria's Oil Production Reaches New Heights");
           ("summary", VStr "NNPC reports significant increase in daily production capacity.");
           ("author", VStr "Energy Analytics Team");
           ("publishedDate", VStr "2024-08-22");
           ("tags", VArr [VStr "Production"; VStr "NNPC"; VStr "Oil"])]].

(** [xs.slice(0, n)] on an array value *)
Definition sliceFrom0 (n : nat) (v : Value) : Value :=
  match v with
  | VArr items => VArr (take n items)
  | _ => v
  end.

Definition getMockFeaturedContent : Value :=
  VObj [("featuredOpportunities", sliceFrom0 2 getMockOpportunities);
        ("featuredCompanies", getMockCompanies);
        ("latestUpdates", getMockRegulatory);
        ("recentArticles", getMockArticles)].

(** The fallback object of [getDashboardStats]. *)
Definition mockDashboardStats : Value :=
  VObj [("totalOpportunities", VNum 156);
        ("totalCompanies", VNum 89);
        ("totalUpdates", VNum 24);
        ("totalArticles", VNum 12)].

(** [response.documents] as a value *)
Definition documentsOf (response : DocumentList) : Value :=
  VArr (map VObj (documents response)).

(** *** The four [list] operations

    [getOpportunities], [getCompanies], [getRegulatoryUpdates] and
    [getArticles] are the same text up to the cache-key prefix, the
    collection, the ordering, the optional filter query and the mock data;
    [listWithCache] is that text. *)
Definition listWithCache (keyPrefix collectionId : string) (order : Query)
    (discriminator : Obj -> list Query) (mock : Value) (filters : Obj) : M Value :=
  let lim := withDefault (obj_get "limit" filters) (VNum 20) in
  let off := withDefault (obj_get "offset" filters) (VNum 0) in
  cacheKey ← getCacheKey keyPrefix (VObj filters);
  cached ← cacheGet cacheKey;
  valid ← isValidCache cached;
  match valid, cached with
  | true, Some entry => mret (data entry)
  | _, _ =>
      tryCatch
        (let queries := [order; Query.limit lim; Query.offset off] ++ discriminator filters in
         promise ← call_listDocuments databaseId collectionId queries;
         response ← await promise;
         setCache cacheKey (documentsOf response);;
         mret (documentsOf response))
        (fun error => mret mock)
  end.

(** [if (x) queries.push(q(x))] *)
Definition pushIf (x : Value) (q : Value -> Query) : list Query :=
  if truthy x then [q x] else [].

Definition getOpportunities (filters : Obj) : M Value :=
  listWithCache "opportunities" "opportunities" (Query.orderDesc "$createdAt")
    (fun f => pushIf (obj_get "type" f) (Query.equal "opportunityType"))
    getMockOpportunities filters.

Definition getCompanies (filters : Obj) : M Value :=
  listWithCache "companies" "companies" (Query.orderAsc "companyName")
    (fun f => pushIf (obj_get "sector" f) (Query.equal "sector"))
    getMockCompanies filters.

Definition getRegulatoryUpdates (filters : Obj) : M Value :=
  listWithCache "regulatory" "regulatory" (Query.orderDesc "publishedDate")
    (fun f => pushIf (obj_get "source" f) (Query.equal "source"))
    getMockRegulatory filters.

Definition getArticles (filters : Obj) : M Value :=
  listWithCache "articles" "articles" (Query.orderDesc "publishedDate")
    (fun f => pushIf (obj_get "category" f) (Query.search "tags"))
    getMockArticles filters.

(** [v.k = x] in strict code *)
Definition setProp (v : Value) (k : string) (x : Value) : M Value :=
  match v with
  | VObj fields => mret (VObj (obj_set k x fields))
  | _ => throw TypeError
  end.

Definition getOpportunityById (id : Value) : M Value :=
  cacheKey ← getCacheKey "opportunity" (VObj [("id", id)]);
  cached ← cacheGet cacheKey;
  valid ← isValidCache cached;
  match valid, cached with
  | true, Some entry => mret (data entry)
  | _, _ =>
      tryCatch
        (promise ← call_getDocument databaseId "opportunities" id;
         opportunity ← await promise;
         companyId ← getProp opportunity "companyId";
         withCompany ←
           (if truthy companyId then
              promise' ← call_getDocument databaseId "companies" companyId;
              company ← await promise';
              setProp opportunity "company" company
            else mret opportunity);
         setCache cacheKey withCompany;;
         mret withCompany)
        (fun error => mret VNull)
  end.

Definition getCompanyById (id : Value) : M Value :=
  cacheKey ← getCacheKey "company" (VObj [("id", id)]);
  cached ← cacheGet cacheKey;
  valid ← isValidCache cached;
  match valid, cached with
  | true, Some entry => mret (data entry)
  | _, _ =>
      tryCatch
        (promise ← call_getDocument databaseId "companies" id;
         company ← await promise;
         setCache cacheKey company;;
         mret company)
        (fun error => mret VNull)
  end.

Definition getRegulatoryUpdateById (id : Value) : M Value :=
  tryCatch
    (promise ← call_getDocument databaseId "regulatory" id; await promise)
    (fun error => mret VNull).

Definition getArticleById (id : Value) : M Value :=
  tryCatch
    (promise ← call_getDocument databaseId "articles" id; await promise)
    (fun error => mret VNull).

(** *** The [create] operations *)

(** [new Date().toISOString()] *)
Definition newDateISO : M string :=
  now ← dateNow; env ← ask; mret (toISOString env now).

(** [{ ...data, publishedAt: ..., featured: data.featured || false }] *)
Definition opportunityPayload (publishedAt : string) (d : Obj) : Obj :=
  obj_set "featured" (orElse (obj_get "featured" d) (VBool false))
    (obj_set "publishedAt" (VStr publishedAt) d).

Definition createOpportunity (d : Obj) : M Value :=
  tryCatch
    (docId ← ID_unique;
     publishedAt ← newDateISO;
     promise ← call_createDocument databaseId "opportunities" docId
                 (opportunityPayload publishedAt d);
     opportunity ← await promise;
     clearCacheByCollection "opportunities";;
     mret opportunity)
    (fun error => throw error).

Definition companyPayload (d : Obj) : Obj :=
  obj_set "featured" (orElse (obj_get "featured" d) (VBool false)) d.

Definition createCompany (d : Obj) : M Value :=
  tryCatch
    (docId ← ID_unique;
     promise ← call_createDocument databaseId "companies" docId (companyPayload d);
     company ← await promise;
     clearCacheByCollection "companies";;
     mret company)
    (fun error => throw error).

Definition createRegulatoryUpdate (d : Obj) : M Value :=
  tryCatch
    (docId ← ID_unique;
     promise ← call_createDocument databaseId "regulatory" docId d;
     update ← await promise;
     clearCacheByCollection "regulatory";;
     mret update)
    (fun error => throw error).

(** [Array.isArray(data.tags) ? data.tags
     : data.tags.split(',').map(t => t.trim())] *)
Definition normalizeTags (tags : Value) : M Value :=
  match tags with
  | VArr items => mret (VArr items)
  | VStr s => mret (VArr (map (fun t => VStr (trim t)) (split "," s)))
  | _ => throw TypeError
  end.

Definition createArticle (d : Obj) : M Value :=
  tryCatch
    (docId ← ID_unique;
     tags ← normalizeTags (obj_get "tags" d);
     promise ← call_createDocument databaseId "articles" docId (obj_set "tags" tags d);
     article ← await promise;
     clearCacheByCollection "articles";;
     mret article)
    (fun error => throw error).

(** *** Search *)

(** [doc.companyName || doc.source || doc.author
     || doc.description?.substring(0, 100)] *)
Definition subtitleOf (doc : Obj) : M Value :=
  if truthy (obj_get "companyName" doc) then mret (obj_get "companyName" doc)
  else if truthy (obj_get "source" doc) then mret (obj_get "source" doc)
  else if truthy (obj_get "author" doc) then mret (obj_get "author" doc)
  else match obj_get "description" doc with
       | VUndefined | VNull => mret VUndefined
       | VStr d => env ← ask; mret (VStr (substring env d 0 100))
       | _ => throw TypeError
       end.

(** The callback of [response.documents.map]. *)
Definition tagHit (collectionKey : string) (doc : Obj) : M Value :=
  subtitle ← subtitleOf doc;
  mret (VObj (obj_set "subtitle" subtitle
               (obj_set "_type" (VStr (dropLast collectionKey)) doc))).

(** [xs.map(f)] for a callback that may throw *)
Fixpoint mapM {A B : Type} (f : A -> M B) (xs : list A) : M (list B) :=
  match xs with
  | [] => mret []
  | x :: xs' => y ← f x; ys ← mapM f xs'; mret (y :: ys)
  end.

(** One turn of [for (const collectionKey of collectionsToSearch)]: a
    failure is logged and leaves [results] as it was. *)
Definition searchCollection (searchTerm : string) (results : list Value)
    (collectionKey : string) : M (list Value) :=
  tryCatch
    (promise ← call_listDocuments databaseId
                 (default "" (lookupCollection collectionKey collections))
                 [Query.search "title" (VStr searchTerm); Query.limit (VNum 5)];
     response ← await promise;
     searchResults ← mapM (tagHit collectionKey) (documents response);
     mret (results ++ searchResults))
    (fun error => mret results).

Fixpoint searchLoop (searchTerm : string) (results : list Value)
    (collectionsToSearch : list string) : M (list Value) :=
  match collectionsToSearch with
  | [] => mret results
  | collectionKey :: rest =>
      results' ← searchCollection searchTerm results collectionKey;
      searchLoop searchTerm results' rest
  end.

Definition search (searchTerm : string) (types : list string) : M Value :=
  if String.eqb (trim searchTerm) "" then mret (VArr [])
  else
    tryCatch
      (let collectionsToSearch :=
         if (0 <? length types)%nat
         then filter (fun t => is_Some (lookupCollection t collections)) types
         else map fst collections in
       results ← searchLoop searchTerm [] collectionsToSearch;
       mret (VArr (take 10 results)))
      (fun error => mret (VArr [])).

(** *** The aggregates *)

(** [await Promise.all([p1, p2, p3, p4])]: every request has been issued
    when the join is awaited; one rejection rejects the join. *)
Fixpoint awaitAll {A : Type} (promises : list (Response A)) : M (list A) :=
  match promises with
  | [] => mret []
  | p :: ps => a ← await p; rest ← awaitAll ps; mret (a :: rest)
  end.

Definition getDashboardStats : M Value :=
  tryCatch
    (p1 ← call_listDocuments databaseId "opportunities" [Query.limit (VNum 1)];
     p2 ← call_listDocuments databaseId "companies" [Query.limit (VNum 1)];
     p3 ← call_listDocuments databaseId "regulatory" [Query.limit (VNum 1)];
     p4 ← call_listDocuments databaseId "articles" [Query.limit (VNum 1)];
     settled ← awaitAll [p1; p2; p3; p4];
     match settled with
     | [opportunities; companies; regulatory; articles] =>
         mret (VObj [("totalOpportunities", total opportunities);
                     ("totalCompanies", total companies);
                     ("totalUpdates", total regulatory);
                     ("totalArticles", total articles)])
     | _ => throw TypeError
     end)
    (fun error => mret mockDashboardStats).

Definition getFeaturedContent : M Value :=
  tryCatch
    (p1 ← call_listDocuments databaseId "opportunities"
            [Query.equal "featured" (VBool true); Query.limit (VNum 3)];
     p2 ← call_listDocuments databaseId "companies"
            [Query.equal "featured" (VBool true); Query.limit (VNum 6)];
     p3 ← call_listDocuments databaseId "regulatory"
            [Query.orderDesc "publishedDate"; Query.limit (VNum 3)];
     p4 ← call_listDocuments databaseId "articles"
            [Query.orderDesc "publishedDate"; Query.limit (VNum 3)];
     settled ← awaitAll [p1; p2; p3; p4];
     match settled with
     | [featuredOpportunities; featuredCompanies; latestUpdates; recentArticles] =>
         mret (VObj [("featuredOpportunities", documentsOf featuredOpportunities);
                     ("featuredCompanies", documentsOf featuredCompanies);
                     ("latestUpdates", documentsOf latestUpdates);
                     ("recentArticles", documentsOf recentArticles)])
     | _ => throw TypeError
     end)
    (fun error => mret getMockFeaturedContent).

(** *** The vocabulary of the specification *)

(** [listOf] and [createIn] select the operation of the uniform shape
    for one collection. *)
Definition collectionName (c : Collection) : string :=
  match c with
  | Opportunities => "opportunities"
  | Companies => "companies"
  | Regulatory => "regulatory"
  | Articles => "articles"
  end.

Definition listOf (c : Collection) : Obj -> M Value :=
  match c with
  | Opportunities => getOpportunities
  | Companies => getCompanies
  | Regulatory => getRegulatoryUpdates
  | Articles => getArticles
  end.

Definition createIn (c : Collection) : Obj -> M Value :=
  match c with
  | Opportunities => createOpportunity
  | Companies => createCompany
  | Regulatory => createRegulatoryUpdate
  | Articles => createArticle
  end.

Definition mockOf (c : Collection) : Value :=
  match c with
  | Opportunities => getMockOpportunities
  | Companies => getMockCompanies
  | Regulatory => getMockRegulatory
  | Articles => getMockArticles
  end.

(** The cache key of a [list] call, and the one remote request it may
    issue. *)
Definition listKey (env : Env) (c : Collection) (filters : Obj) : string :=
  collectionName c +:+ "_" +:+ JSON_stringify env (VObj filters).

Definition listQueries (c : Collection) (filters : Obj) : list Query :=
  [match c with
   | Opportunities => Query.orderDesc "$createdAt"
   | Companies => Query.orderAsc "companyName"
   | Regulatory | Articles => Query.orderDesc "publishedDate"
   end;
   Query.limit (withDefault (obj_get "limit" filters) (VNum 20));
   Query.offset (withDefault (obj_get "offset" filters) (VNum 0))]
  ++ match c with
     | Opportunities => pushIf (obj_get "type" filters) (Query.equal "opportunityType")
     | Companies => pushIf (obj_get "sector" filters) (Query.equal "sector")
     | Regulatory => pushIf (obj_get "source" filters) (Query.equal "source")
     | Articles => pushIf (obj_get "category" filters) (Query.search "tags")
     end.

Definition listRequest (c : Collection) (filters : Obj) : Request :=
  ListDocuments databaseId (collectionName c) (listQueries c filters).

(** The document that a [create] call sends, when building it does not
    throw: [createOpportunity] stamps and defaults, [createCompany]
    defaults, [createRegulatoryUpdate] sends the data as given and
    [createArticle] normalises the tags.  [w] is the world the call starts
    from (its clock reading gives [publishedAt]). *)
Definition createPayload (env : Env) (w : World) (c : Collection) (d : Obj)
    : Outcome Obj :=
  match c with
  | Opportunities =>
      Return (opportunityPayload (toISOString env (clock env (clockReads w))) d)
  | Companies => Return (companyPayload d)
  | Regulatory => Return d
  | Articles =>
      match obj_get "tags" d with
      | VArr items => Return (obj_set "tags" (VArr items) d)
      | VStr s =>
          Return (obj_set "tags" (VArr (map (fun t => VStr (trim t)) (split "," s))) d)
      | _ => Throw TypeError
      end
  end.

(** The entry that a read at [now] would accept as fresh. *)
Definition freshAt (now : Z) (cached : option CacheEntry) : bool :=
  match cached with
  | Some entry => now - timestamp entry <? cacheTimeout
  | None => false
  end.

(** The sub-fetch that an aggregate issues as its [i]-th request. *)
Definition subFetch (env : Env) (w : World) (i : nat) (collectionId : string)
    (queries : list Query) : Response DocumentList :=
  listDocuments env (length (log w) + i) databaseId collectionId queries.

Definition rejected {A : Type} (p : Response A) : Prop :=
  exists e : Value, p = Rejected e.

(** The read operations of the client. *)
Inductive ReadOp : Type :=
| OpList (c : Collection) (filters : Obj)
| OpOpportunityById (id : Value)
| OpCompanyById (id : Value)
| OpRegulatoryUpdateById (id : Value)
| OpArticleById (id : Value)
| OpSearch (searchTerm : string) (types : list string)
| OpDashboardStats
| OpFeaturedContent.

Definition runRead (op : ReadOp) : M Value :=
  match op with
  | OpList c filters => listOf c filters
  | OpOpportunityById id => getOpportunityById id
  | OpCompanyById id => getCompanyById id
  | OpRegulatoryUpdateById id => getRegulatoryUpdateById id
  | OpArticleById id => getArticleById id
  | OpSearch searchTerm types => search searchTerm types
  | OpDashboardStats => getDashboardStats
  | OpFeaturedContent => getFeaturedContent
  end.

End Appwrite.

(** ** The Sanity client ([SanityAPIService]) *)
Module Sanity.
Import JSString Cms.

Definition projectId : string := "xus3urqo".
Definition dataset : string := "production".
Definition apiVersion : string := "2024-08-22".
Definition baseUrl : string :=
  "https://" +:+ projectId +:+ ".api.sanity.io/v" +:+ apiVersion
  +:+ "/data/query/" +:+ dataset.

(** 5 minutes *)
Definition cacheTimeout : Z := 5 * 60 * 1000.

Definition clearCache : M unit := cachePut ∅.

(** *** Fallback data *)
Definition fallbackOpportunities : Value :=
  VArr
    [VObj [("_id", VStr "mock-1");
           ("title", VStr "Senior Reservoir Engineer - Lagos");
           ("description", VStr "Lead reservoir modeling and simulation projects for offshore oil fields. Minimum 8 years experience required.");
           ("opportunityType", VStr "Job");
           ("closingDate", VStr "2024-09-15");
           ("company", VObj [("companyName", VStr "Shell Nigeria"); ("sector", VStr "Upstream")])];
     VObj [("_id", VStr "mock-2");
           ("title", VStr "Equipment Supply Contract - $50M");
           ("description", VStr "Supply and maintenance of drilling equipment for deep water operations.");
           ("opportunityType", VStr "Tender");
           ("closingDate", VStr "2024-09-30");
           ("company", VObj [("companyName", VStr "TotalEnergies"); ("sector", VStr "Upstream")])]].

Definition fallbackCompanies : Value :=
  VArr
    [VObj [("_id", VStr "company-1");
           ("companyName", VStr "Shell Petroleum Development Company");
           ("sector", VStr "Upstream");
           ("description", VStr "Leading international oil and gas company operating in Nigeria since 1936.");
           ("ncdmbNumber", VStr "NCDMB-001-2024")];
     VObj [("_id", VStr "company-2");
           ("companyName", VStr "TotalEnergies Nigeria");
           ("sector", VStr "Upstream");
           ("description", VStr "French multinational integrated energy company.");
           ("ncdmbNumber", VStr "NCDMB-002-2024")]].

Definition fallbackRegulatory : Value :=
  VArr
    [VObj [("_id", VStr "reg-1");
           ("title", VStr "New Environmental Impact Assessment Guidelines");
           ("source", VStr "NUPRC");
           ("summary", VStr "Updated EIA requirements for oil and gas operations.");
           ("publishedDate", VStr "2024-08-22")];
     VObj [("_id", VStr "reg-2");
           ("title", VStr "Local Content Implementation Roadmap");
           ("source", VStr "NCDMB");
           ("summary", VStr "Strategic framework for achieving 70% local content.");
           ("publishedDate", VStr "2024-08-20")]].

Definition getFallbackData (query : string) : Value :=
  if includes query "opportunity" then fallbackOpportunities
  else if includes query "companyProfile" then fallbackCompanies
  else if includes query "regulatoryUpdate" then fallbackRegulatory
  else VArr [].

(** *** The generic fetch with caching *)

(** [new Error(`Sanity API Error: ${response.status} ${response.statusText}`)] *)
Definition apiError (env : Env) (response : HttpResponse) : Value :=
  VStr ("Sanity API Error: " +:+ ToString env (status response) +:+ " "
        +:+ statusText response).

Definition fetchWithCache (query : string) : M Value :=
  env ← ask;
  let cacheKey := query +:+ "_" +:+ JSON_stringify env (VObj []) in
  cached ← cacheGet cacheKey;
  valid ← match cached with
          | None => mret false
          | Some entry => now ← dateNow; mret (now - timestamp entry <? cacheTimeout)
          end;
  match valid, cached with
  | true, Some entry => mret (data entry)
  | _, _ =>
      tryCatch
        (let url := baseUrl +:+ "?query=" +:+ encodeURIComponent env query in
         promise ← call_fetch url;
         response ← await promise;
         (if ok response then mret tt else throw (apiError env response));;
         result ← await (json response);
         d ← getProp result "result";
         now ← dateNow;
         cacheSet cacheKey (mkEntry d now);;
         mret d)
        (fun error =>
           match cached with
           | Some entry => mret (data entry)
           | None => mret (getFallbackData query)
           end)
  end.

(** *** The [list] operations: each builds its query text and hands it to
    [fetchWithCache].  [range] is the slice [[${offset}...${offset + limit}]]. *)
Definition range (env : Env) (filters : Obj) : string :=
  let lim := withDefault (obj_get "limit" filters) (VNum 20) in
  let off := withDefault (obj_get "offset" filters) (VNum 0) in
  "[" +:+ ToString env off +:+ "..." +:+ ToString env (plus env off lim) +:+ "]".

(** [if (x) query += ` && lhs == "${x}"`] *)
Definition andEquals (env : Env) (lhs : string) (x : Value) : string :=
  if truthy x then " && " +:+ lhs +:+ " == " +:+ dq +:+ ToString env x +:+ dq
  else "".

Definition opportunitiesQuery (env : Env) (filters : Obj) : string :=
  "*[_type == " +:+ dq +:+ "opportunity" +:+ dq
  +:+ andEquals env "opportunityType" (obj_get "type" filters)
  +:+ "] | order(publishedAt desc) " +:+ range env filters +:+ " {
            _id,
            title,
            description,
            opportunityType,
            closingDate,
            link,
            publishedAt,
            company->{
                _id,
                companyName,
                logo,
                sector
            }
        }".

Definition getOpportunities (filters : Obj) : M Value :=
  env ← ask; fetchWithCache (opportunitiesQuery env filters).

Definition companiesQuery (env : Env) (filters : Obj) : string :=
  "*[_type == " +:+ dq +:+ "companyProfile" +:+ dq
  +:+ andEquals env "sector" (obj_get "sector" filters)
  +:+ "] | order(companyName asc) " +:+ range env filters +:+ " {
            _id,
            companyName,
            logo,
            description,
            sector,
            servicesOffered,
            ncdmbNumber,
            website
        }".

Definition getCompanies (filters : Obj) : M Value :=
  env ← ask; fetchWithCache (companiesQuery env filters).

Definition regulatoryQuery (env : Env) (filters : Obj) : string :=
  "*[_type == " +:+ dq +:+ "regulatoryUpdate" +:+ dq
  +:+ andEquals env "source" (obj_get "source" filters)
  +:+ "] | order(publishedDate desc) " +:+ range env filters +:+ " {
            _id,
            title,
            source,
            summary,
            publishedDate,
            document
        }".

Definition getRegulatoryUpdates (filters : Obj) : M Value :=
  env ← ask; fetchWithCache (regulatoryQuery env filters).

(** [if (category) query += ` && "${category}" in tags`] *)
Definition articlesQuery (env : Env) (filters : Obj) : string :=
  "*[_type == " +:+ dq +:+ "article" +:+ dq
  +:+ (if truthy (obj_get "category" filters)
       then " && " +:+ dq +:+ ToString env (obj_get "category" filters) +:+ dq
            +:+ " in tags"
       else "")
  +:+ "] | order(publishedDate desc) " +:+ range env filters +:+ " {
            _id,
            title,
            slug,
            summary,
            author,
            publishedDate,
            coverImage,
            tags
        }".

Definition getArticles (filters : Obj) : M Value :=
  env ← ask; fetchWithCache (articlesQuery env filters).

(** *** Search *)
Definition typeFilters (types : list string) : string :=
  if (0 <? length types)%nat
  then " && _type in [" +:+ join ", " (map (fun t => dq +:+ t +:+ dq) types) +:+ "]"
  else "".

Definition matchClause (field searchTerm : string) : string :=
  field +:+ " match " +:+ dq +:+ "*" +:+ searchTerm +:+ "*" +:+ dq.

Definition searchQuery (env : Env) (searchTerm : string) (types : list string)
    (lim : Value) : string :=
  "*[" +:+ typeFilters types +:+ " && (
            " +:+ matchClause "title" searchTerm +:+ " ||
            " +:+ matchClause "description" searchTerm +:+ " ||
            " +:+ matchClause "summary" searchTerm +:+ " ||
            " +:+ matchClause "companyName" searchTerm +:+ "
        )] | order(_score desc) [0..." +:+ ToString env lim +:+ "] {
            _id,
            _type,
            title,
            " +:+ dq +:+ "subtitle" +:+ dq +:+ ": coalesce(summary, description, companyName),
            " +:+ dq +:+ "image" +:+ dq +:+ ": coalesce(coverImage, logo),
            " +:+ dq +:+ "date" +:+ dq +:+ ": coalesce(publishedDate, publishedAt, _createdAt)
        }".

(** [search(searchTerm, types = [], limit = 10)] *)
Definition search (searchTerm : string) (types : list string) (lim : Value) : M Value :=
  if String.eqb (trim searchTerm) "" then mret (VArr [])
  else env ← ask;
       fetchWithCache (searchQuery env searchTerm types (withDefault lim (VNum 10))).

(** *** The vocabulary of the specification *)
Definition listQuery (env : Env) (c : Collection) (filters : Obj) : string :=
  match c with
  | Opportunities => opportunitiesQuery env filters
  | Companies => companiesQuery env filters
  | Regulatory => regulatoryQuery env filters
  | Articles => articlesQuery env filters
  end.

Definition listOf (c : Collection) : Obj -> M Value :=
  match c with
  | Opportunities => getOpportunities
  | Companies => getCompanies
  | Regulatory => getRegulatoryUpdates
  | Articles => getArticles
  end.

Definition cacheKey (env : Env) (query : string) : string :=
  query +:+ "_" +:+ JSON_stringify env (VObj []).

Definition freshAt (now : Z) (cached : option CacheEntry) : bool :=
  match cached with
  | Some entry => now - timestamp entry <? cacheTimeout
  | None => false
  end.

(** The remote fetch for [query], issued from [w], fails: the network
    call is rejected, the response is not [ok], its body cannot be read,
    or the body has no properties to read. *)
Definition fetchFails (env : Env) (w : World) (query : string) : Prop :=
  match fetch env (length (log w))
          (baseUrl +:+ "?query=" +:+ encodeURIComponent env query) with
  | Rejected _ => True
  | Resolved response =>
      ok response = false \/
      match json response with
      | Rejected _ => True
      | Resolved result => result = VNull \/ result = VUndefined
      end
  end.

End Sanity.

(** ** The merged result set of a search, in the words of the specification

    The hits of the searched collections, one collection after the
    other, to be compared with what [Appwrite.search] computes. *)
Module MergedSearch.
Import JSString Cms.

(** The names that an object literal inherits from [Object.prototype].
    [this.collections[t]] is truthy for them although they are not keys
    of the table; [Appwrite.lookupCollection] reads own keys only and
    agrees with the code for every other name. *)
Definition inheritedNames : list string :=
  ["constructor"; "hasOwnProperty"; "isPrototypeOf"; "propertyIsEnumerable";
   "toLocaleString"; "toString"; "valueOf"; "__proto__";
   "__defineGetter__"; "__defineSetter__"; "__lookupGetter__"; "__lookupSetter__"].

(** A type list without inherited names. *)
Definition ownNames (types : list string) : Prop :=
  Forall (fun t => t ∉ inheritedNames) types.

(** The collections that a search covers: all four when no type is
    given, otherwise the given types that are collections, in the
    caller's order. *)
Definition searched (types : list string) : list string :=
  match types with
  | [] => map fst Appwrite.collections
  | _ => filter (fun t => t ∈ map fst Appwrite.collections) types
  end.

(** The subtitle of a hit: the first truthy one of the company name, the
    source and the author, else the first hundred characters of the
    description, if there is one; no subtitle can be taken from a
    description that is not a text. *)
Definition subtitle (env : Env) (doc : Obj) : option Value :=
  if truthy (obj_get "companyName" doc) then Some (obj_get "companyName" doc)
  else if truthy (obj_get "source" doc) then Some (obj_get "source" doc)
  else if truthy (obj_get "author" doc) then Some (obj_get "author" doc)
  else match obj_get "description" doc with
       | VUndefined | VNull => Some VUndefined
       | VStr d => Some (VStr (substring env d 0 100))
       | _ => None
       end.

(** A document as a hit: tagged with the collection key without its last
    letter, and with its subtitle. *)
Definition hit (env : Env) (key : string) (doc : Obj) : option Value :=
  match subtitle env doc with
  | Some text =>
      Some (VObj (obj_set "subtitle" text (obj_set "_type" (VStr (dropLast key)) doc)))
  | None => None
  end.

Fixpoint hits (env : Env) (key : string) (docs : list Obj) : option (list Value) :=
  match docs with
  | [] => Some []
  | doc :: docs' =>
      match hit env key doc, hits env key docs' with
      | Some h, Some hs => Some (h :: hs)
      | _, _ => None
      end
  end.

(** The hits of one collection, asked as the [n]-th request: a collection
    whose request is rejected, or one of whose documents yields no hit,
    contributes nothing. *)
Definition hitsOf (env : Env) (term : string) (n : nat) (key : string) : list Value :=
  match listDocuments env n Appwrite.databaseId key
          [Query.search "title" (VStr term); Query.limit (VNum 5)] with
  | Resolved response => default [] (hits env key (documents response))
  | Rejected _ => []
  end.

(** The merged result set, the first collection being asked as the
    [n]-th request. *)
Fixpoint mergedHits (env : Env) (term : string) (n : nat) (keys : list string)
    : list Value :=
  match keys with
  | [] => []
  | key :: rest => hitsOf env term n key ++ mergedHits env term (S n) rest
  end.

End MergedSearch.

(** ** The rest of the router: titles, navigation helpers, the data
    requests of the page renderers, pagination *)
Module Pages.
Import JSString Router Cms.

(** [table[key]] on an object literal with string values *)
Fixpoint assoc (key : string) (table : list (string * string)) : option string :=
  match table with
  | [] => None
  | (k, v) :: table' => if String.eqb k key then Some v else assoc key table'
  end.

(** [navigate(route)]: the value assigned to [window.location.hash], if
    any; [current] is [getCurrentRoute()]. *)
Definition navigate (route current : string) : option string :=
  if String.eqb route current then None else Some route.

(** [clearFilters(section)] *)
Definition clearFilters (section current : string) : option string :=
  navigate section current.

(** [performSearch]: [query] and [type] are the values of the two inputs
    (or [""]), [encoded] is [encodeURIComponent(query)].  The result is
    the route handed to [navigate], when there is one. *)
Definition performSearch (query type encoded : string) : option string :=
  if String.eqb (trim query) "" then None
  else Some ("search?q=" +:+ encoded
             +:+ (if String.eqb type "" then "" else "&type=" +:+ type)).

(** The [titles] object of [updatePageTitle]. *)
Definition titles : list (string * string) :=
  [("", "The Pipeline - Nigerian Oil & Gas Hub");
   ("home", "The Pipeline - Nigerian Oil & Gas Hub");
   ("opportunities", "Opportunities Hub - The Pipeline");
   ("directory", "Company Directory - The Pipeline");
   ("regulatory", "Regulatory Updates - The Pipeline");
   ("insights", "Market Intelligence - The Pipeline");
   ("search", "Search - The Pipeline")].

(** [updatePageTitle(route)]: the text assigned to [document.title]. *)
Definition updatePageTitle (route : string) : string :=
  let basePath := hd EmptyString (split "?" (hd EmptyString (split "/" route))) in
  default "The Pipeline" (assoc basePath titles).

(** [route.split("/")[0]] of [updateNavigation]: the text looked for in
    the [href] of the navigation items, after ["#"]. *)
Definition mainRoute (route : string) : string :=
  hd EmptyString (split "/" route).

(** *** The data requests of the list pages

    [const { page = 1, type = "", sector = "" } = params]: a parameter
    that the route does not bind takes its default.  The offset
    [(page - 1) * 12] of a page given as text needs the conversion of that
    text to a number, [toNumber]; it answers [None] when the text is not
    an integer, and the request is then outside the integers of [Value]. *)
Definition textParam (params : gmap string string) (name : string) : Value :=
  match params !! name with
  | Some text => VStr text
  | None => VStr ""
  end.

Definition pageOffset (toNumber : string -> option Z)
    (params : gmap string string) : option Value :=
  match params !! "page" with
  | None => Some (VNum ((1 - 1) * 12))
  | Some text =>
      match toNumber text with
      | Some page => Some (VNum ((page - 1) * 12))
      | None => None
      end
  end.

(** The argument of [getOpportunities] in [renderOpportunities], and
    likewise for the other three list pages. *)
Definition opportunitiesFilters (toNumber : string -> option Z)
    (params : gmap string string) : option Obj :=
  match pageOffset toNumber params with
  | Some off =>
      Some [("type", textParam params "type"); ("sector", textParam params "sector");
            ("limit", VNum 12); ("offset", off)]
  | None => None
  end.

Definition directoryFilters (toNumber : string -> option Z)
    (params : gmap string string) : option Obj :=
  match pageOffset toNumber params with
  | Some off =>
      Some [("sector", textParam params "sector"); ("limit", VNum 12); ("offset", off)]
  | None => None
  end.

Definition regulatoryFilters (toNumber : string -> option Z)
    (params : gmap string string) : option Obj :=
  match pageOffset toNumber params with
  | Some off =>
      Some [("source", textParam params "source"); ("limit", VNum 12); ("offset", off)]
  | None => None
  end.

Definition insightsFilters (toNumber : string -> option Z)
    (params : gmap string string) : option Obj :=
  match pageOffset toNumber params with
  | Some off =>
      Some [("category", textParam params "category"); ("limit", VNum 12); ("offset", off)]
  | None => None
  end.

(** The list call that a list page renderer makes, by renderer. *)
Definition listCallOf (handler : Handler) (toNumber : string -> option Z)
    (params : gmap string string) : option (Collection * Obj) :=
  match handler with
  | renderOpportunities =>
      filters ← opportunitiesFilters toNumber params; Some (Opportunities, filters)
  | renderDirectory =>
      filters ← directoryFilters toNumber params; Some (Companies, filters)
  | renderRegulatory =>
      filters ← regulatoryFilters toNumber params; Some (Regulatory, filters)
  | renderInsights =>
      filters ← insightsFilters toNumber params; Some (Articles, filters)
  | _ => None
  end.

(** *** The detail pages

    [const { id } = params], the record by that id, and
    [if (!record) { this.render404(); return; }].  [DetailNotFound] is
    that early return; with [DetailPage record] the renderer goes on to
    build its template from the record. *)
Inductive DetailView : Type :=
| DetailNotFound
| DetailPage (record : Value).

Definition idParam (params : gmap string string) : Value :=
  match params !! "id" with
  | Some text => VStr text
  | None => VUndefined
  end.

Definition detailOf (record : Value) : DetailView :=
  if truthy record then DetailPage record else DetailNotFound.

Definition renderOpportunityDetail (params : gmap string string) : M DetailView :=
  opportunity ← Appwrite.getOpportunityById (idParam params);
  mret (detailOf opportunity).

Definition renderCompanyDetail (params : gmap string string) : M DetailView :=
  company ← Appwrite.getCompanyById (idParam params);
  mret (detailOf company).

Definition renderRegulatoryDetail (params : gmap string string) : M DetailView :=
  update ← Appwrite.getRegulatoryUpdateById (idParam params);
  mret (detailOf update).

Definition renderInsightDetail (params : gmap string string) : M DetailView :=
  article ← Appwrite.getArticleById (idParam params);
  mret (detailOf article).

(** The detail renderer's data step, by renderer. *)
Definition detailCallOf (handler : Handler) (params : gmap string string)
    : option (M DetailView) :=
  match handler with
  | Router.renderOpportunityDetail => Some (renderOpportunityDetail params)
  | Router.renderCompanyDetail => Some (renderCompanyDetail params)
  | Router.renderRegulatoryDetail => Some (renderRegulatoryDetail params)
  | Router.renderInsightDetail => Some (renderInsightDetail params)
  | _ => None
  end.

(** *** Pagination

    [getPaginationHTML(currentPage, itemCount, itemsPerPage = 12)] for
    numbers: [None] is the empty text, [Some links] the [div] with these
    anchors in this order.  [ceilDiv] is [Math.ceil(itemCount / itemsPerPage)]
    for a positive [itemsPerPage]. *)
Inductive PageLink : Type :=
| PreviousLink (target : Z)
| NumberLink (page : Z) (active : bool)
| NextLink (target : Z).

Definition ceilDiv (a b : Z) : Z := - ((- a) / b).

Definition getPaginationHTML (currentPage itemCount itemsPerPage : Z)
    : option (list PageLink) :=
  let totalPages := ceilDiv itemCount itemsPerPage in
  if totalPages <=? 1 then None
  else
    let first := Z.max 1 (currentPage - 2) in
    let last := Z.min totalPages (currentPage + 2) in
    Some ((if 1 <? currentPage then [PreviousLink (currentPage - 1)] else [])
          ++ map (fun i => NumberLink i (i =? currentPage))
                 (seqZ first (last - first + 1))
          ++ (if currentPage <? totalPages then [NextLink (currentPage + 1)] else [])).

(** *** Preloading

    [preloadRoute(route)]: the [switch] on the first segment of the
    matched pattern, inside a [try] that logs and drops every error. *)
Definition preloadRoute (routes : Routes) (route : string) : M unit :=
  tryCatch
    (let section := hd EmptyString (split "/" (path (parseRoute routes route))) in
     if String.eqb section "opportunities" then
       Appwrite.getOpportunities [("limit", VNum 5)];; mret tt
     else if String.eqb section "directory" then
       Appwrite.getCompanies [("limit", VNum 5)];; mret tt
     else if String.eqb section "regulatory" then
       Appwrite.getRegulatoryUpdates [("limit", VNum 5)];; mret tt
     else if String.eqb section "insights" then
       Appwrite.getArticles [("limit", VNum 5)];; mret tt
     else mret tt)
    (fun error => mret tt).

(** *** Search results

    [routePaths] of [getSearchResultHTML]; [routePathOf result] is
    [routePaths[result._type]], [None] standing for [undefined]. *)
Definition routePaths : list (string * string) :=
  [("opportunity", "opportunities"); ("companyProfile", "directory");
   ("regulatoryUpdate", "regulatory"); ("article", "insights")].

Definition routePathOf (result : Value) : option string :=
  match result with
  | VObj fields =>
      match obj_get "_type" fields with
      | VStr type => assoc type routePaths
      | _ => None
      end
  | _ => None
  end.

(** The vocabulary of the statements: a string without the character
    [c]. *)
Definition freeOf (c : ascii) (s : string) : Prop :=
  ~ In c (String.list_ascii_of_string s).

(** The pattern has no parameter segment. *)
Definition literalPattern (pattern : string) : Prop :=
  Forall (fun segment => startsWith segment ":" = false) (split "/" pattern).

(** What the search page reads of a hit of the Appwrite search: the type
    tag is the key of a collection without its last letter, and
    [routePaths] knows the tag only when the collection is the one of the
    articles. *)
Definition taggedHit (hit : Value) : Prop :=
  exists (fields : Obj) (key : string),
    hit = VObj fields /\ key ∈ map fst Appwrite.collections /\
    obj_get "_type" fields = VStr (dropLast key) /\
    routePathOf hit = if String.eqb key "articles" then Some "insights" else None.

End Pages.

(** ** Relative dates ([getTimeAgo], the same text in both clients) *)
Module Dates.

Definition msPerDay : Z := 1000 * 60 * 60 * 24.

(** [getTimeAgo(dateString)] as a function of [now - date], the
    difference in milliseconds ([None] when the date is invalid and the
    difference is NaN); [show n] is the text of the number [n] in a
    template. *)
Definition getTimeAgo (show : Z -> string) (diffTime : option Z) : string :=
  match diffTime with
  | None => "NaN years ago"
  | Some diff =>
      let diffDays := diff / msPerDay in
      if diffDays =? 0 then "Today"
      else if diffDays =? 1 then "Yesterday"
      else if diffDays <? 7 then show diffDays +:+ " days ago"
      else if diffDays <? 30 then show (diffDays / 7) +:+ " weeks ago"
      else if diffDays <? 365 then show (diffDays / 30) +:+ " months ago"
      else show (diffDays / 365) +:+ " years ago"
  end.

End Dates.

(** ** The Sanity client: single records, aggregates and image addresses *)
Module SanityRecords.
Import JSString Cms.

Definition cdnUrl : string :=
  "https://cdn.sanity.io/images/" +:+ Sanity.projectId +:+ "/" +:+ Sanity.dataset.

(** [v.k] for a truthy [v]: only objects of the model own properties. *)
Definition prop (v : Value) (k : string) : Value :=
  match v with
  | VObj fields => obj_get k fields
  | _ => VUndefined
  end.

(** An element of [ref.split("-")] inside the template: a missing one
    reads [undefined]. *)
Definition part (parts : list string) (i : nat) : string :=
  default "undefined" (parts !! i).

(** [urlFor(imageRef)]: [ref.split] throws unless [ref] is a string. *)
Definition urlFor (imageRef : Value) : Outcome Value :=
  if negb (truthy imageRef) || negb (truthy (prop imageRef "asset")) then Return VNull
  else
    let asset := prop imageRef "asset" in
    match orElse (prop asset "_ref") (prop asset "_id") with
    | VStr ref =>
        let parts := split "-" ref in
        Return (VStr (cdnUrl +:+ "/" +:+ part parts 1 +:+ "-" +:+ part parts 2
                      +:+ "." +:+ part parts 3))
    | _ => Throw TypeError
    end.

(** *** Single records: the query text and its fetch *)

Definition opportunityByIdQuery (env : Env) (id : Value) : string :=
  "*[_type == " +:+ dq +:+ "opportunity" +:+ dq +:+ " && _id == " +:+ dq
  +:+ ToString env id +:+ dq
  +:+ "][0] {
            _id,
            title,
            description,
            opportunityType,
            closingDate,
            link,
            publishedAt,
            requirements,
            benefits,
            location,
            company->{
                _id,
                companyName,
                logo,
                sector,
                website,
                contactEmail
            }
        }".

Definition getOpportunityById (id : Value) : M Value :=
  env ← ask; Sanity.fetchWithCache (opportunityByIdQuery env id).

Definition companyByIdQuery (env : Env) (id : Value) : string :=
  "*[_type == " +:+ dq +:+ "companyProfile" +:+ dq +:+ " && _id == " +:+ dq
  +:+ ToString env id +:+ dq
  +:+ "][0] {
            _id,
            companyName,
            logo,
            description,
            sector,
            servicesOffered,
            ncdmbNumber,
            website,
            contactEmail,
            projects[]->{
                title,
                description,
                status
            }
        }".

Definition getCompanyById (id : Value) : M Value :=
  env ← ask; Sanity.fetchWithCache (companyByIdQuery env id).

Definition regulatoryUpdateByIdQuery (env : Env) (id : Value) : string :=
  "*[_type == " +:+ dq +:+ "regulatoryUpdate" +:+ dq +:+ " && _id == " +:+ dq
  +:+ ToString env id +:+ dq
  +:+ "][0] {
            _id,
            title,
            source,
            summary,
            publishedDate,
            document,
            fullText,
            impact,
            effectiveDate,
            relatedUpdates[]->{
                title,
                source,
                publishedDate
            }
        }".

Definition getRegulatoryUpdateById (id : Value) : M Value :=
  env ← ask; Sanity.fetchWithCache (regulatoryUpdateByIdQuery env id).

Definition articleByIdQuery (env : Env) (id : Value) : string :=
  "*[_type == " +:+ dq +:+ "article" +:+ dq +:+ " && _id == " +:+ dq
  +:+ ToString env id +:+ dq
  +:+ "][0] {
            _id,
            title,
            slug,
            summary,
            body,
            author,
            publishedDate,
            coverImage,
            tags,
            relatedArticles[]->{
                title,
                slug,
                summary,
                publishedDate
            }
        }".

Definition getArticleById (id : Value) : M Value :=
  env ← ask; Sanity.fetchWithCache (articleByIdQuery env id).

(** *** Aggregates *)
Definition dashboardStatsQuery : string :=
  "{
            " +:+ dq +:+ "totalCompanies" +:+ dq +:+ ": count(*[_type == "
  +:+ dq +:+ "companyProfile" +:+ dq
  +:+ "]),
            " +:+ dq +:+ "totalOpportunities" +:+ dq
  +:+ ": count(*[_type == " +:+ dq +:+ "opportunity" +:+ dq
  +:+ "]),
            " +:+ dq +:+ "totalUpdates" +:+ dq +:+ ": count(*[_type == "
  +:+ dq +:+ "regulatoryUpdate" +:+ dq
  +:+ "]),
            " +:+ dq +:+ "recentOpportunities" +:+ dq
  +:+ ": count(*[_type == " +:+ dq +:+ "opportunity" +:+ dq
  +:+ " && publishedAt > now() - 86400*7]),
            " +:+ dq +:+ "sectors" +:+ dq
  +:+ ": *[_type == " +:+ dq +:+ "companyProfile" +:+ dq
  +:+ "]{sector} | [].sector | array::unique(),
            " +:+ dq +:+ "topSources"
  +:+ dq +:+ ": *[_type == " +:+ dq +:+ "regulatoryUpdate" +:+ dq
  +:+ "]{source} | [].source | array::unique()
        }".

Definition getDashboardStats : M Value := Sanity.fetchWithCache dashboardStatsQuery.

Definition featuredContentQuery : string :=
  "{
            " +:+ dq +:+ "featuredOpportunities" +:+ dq +:+ ": *[_type == "
  +:+ dq +:+ "opportunity" +:+ dq
  +:+ " && featured == true] | order(publishedAt desc) [0...3] {
                _id, title, company->{companyName}, opportunityType
            },
            "
  +:+ dq +:+ "latestUpdates" +:+ dq +:+ ": *[_type == " +:+ dq +:+ "regulatoryUpdate"
  +:+ dq
  +:+ "] | order(publishedDate desc) [0...3] {
                _id, title, source, publishedDate
            },
            "
  +:+ dq +:+ "topCompanies" +:+ dq +:+ ": *[_type == " +:+ dq +:+ "companyProfile"
  +:+ dq
  +:+ " && featured == true] | order(companyName asc) [0...6] {
                _id, companyName, logo, sector
            },
            "
  +:+ dq +:+ "recentArticles" +:+ dq +:+ ": *[_type == " +:+ dq +:+ "article" +:+ dq
  +:+ "] | order(publishedDate desc) [0...3] {
                _id, title, summary, author, publishedDate
            }
        }".

Definition getFeaturedContent : M Value := Sanity.fetchWithCache featuredContentQuery.

(** The single-record reads, by collection. *)
Definition recordQuery (env : Env) (c : Collection) (id : Value) : string :=
  match c with
  | Opportunities => opportunityByIdQuery env id
  | Companies => companyByIdQuery env id
  | Regulatory => regulatoryUpdateByIdQuery env id
  | Articles => articleByIdQuery env id
  end.

Definition recordOf (c : Collection) : Value -> M Value :=
  match c with
  | Opportunities => getOpportunityById
  | Companies => getCompanyById
  | Regulatory => getRegulatoryUpdateById
  | Articles => getArticleById
  end.

End SanityRecords.

(** ** The data service of the application shell ([DataService]) *)
Module DataService.
Import JSString Cms.

(** 5 minutes *)
Definition cacheTimeout : Z := 5 * 60 * 1000.

(** [new Error(`HTTP ${response.status}: ${response.statusText}`)] *)
Definition httpError (env : Env) (response : HttpResponse) : Value :=
  VStr ("HTTP " +:+ ToString env (status response) +:+ ": " +:+ statusText response).

(** [fetchWithCache(url)] with [options] left at its default [{}], as
    every caller does.  The request goes out with the JSON content type
    header and is logged by its address. *)
Definition fetchWithCache (url : string) : M Value :=
  env ← ask;
  let cacheKey := url +:+ "_" +:+ JSON_stringify env (VObj []) in
  cached ← cacheGet cacheKey;
  valid ← match cached with
          | None => mret false
          | Some entry => now ← dateNow; mret (now - timestamp entry <? cacheTimeout)
          end;
  match valid, cached with
  | true, Some entry => mret (data entry)
  | _, _ =>
      tryCatch
        (promise ← call_fetch url;
         response ← await promise;
         (if ok response then mret tt else throw (httpError env response));;
         d ← await (json response);
         now ← dateNow;
         cacheSet cacheKey (mkEntry d now);;
         mret d)
        (fun error =>
           match cached with
           | Some entry => mret (data entry)
           | None => throw error
           end)
  end.

Definition getMockUpdates : Value :=
  VArr
    [VObj [("id", VNum 1);
           ("title", VStr "NUPRC Issues New Drilling Guidelines");
           ("type", VStr "regulatory");
           ("date", VStr "2024-08-22");
           ("summary", VStr "Updated safety protocols for offshore drilling operations.")];
     VObj [("id", VNum 2);
           ("title", VStr "Shell Nigeria Announces Major Investment");
           ("type", VStr "news");
           ("date", VStr "2024-08-21");
           ("summary", VStr "$2B investment in gas development projects approved.")]].

(** [window.location.hostname === "localhost" || ... === "127.0.0.1"] *)
Definition isLocal (hostname : string) : bool :=
  String.eqb hostname "localhost" || String.eqb hostname "127.0.0.1".

(** [getRecentUpdates()], for the host name of the page and the
    configured [apiUrl]. *)
Definition getRecentUpdates (hostname apiUrl : string) : M Value :=
  tryCatch
    (if isLocal hostname then mret getMockUpdates
     else fetchWithCache (apiUrl +:+ "/recent-updates"))
    (fun error => mret getMockUpdates).

Definition sanityUrl (env : Env) (query : string) : string :=
  "https://" +:+ "your-project-id" +:+ ".api.sanity.io/v" +:+ "2024-08-22"
  +:+ "/data/query/" +:+ "production" +:+ "?query=" +:+ encodeURIComponent env query.

(** [fetchFromSanity(query)]: the error is logged and thrown again. *)
Definition fetchFromSanity (query : string) : M Value :=
  tryCatch
    (env ← ask;
     response ← fetchWithCache (sanityUrl env query);
     getProp response "result")
    (fun error => throw error).

Definition clearCache : M unit := cachePut ∅.

(** The vocabulary of the statements: the cache key of an address, the
    freshness of an entry, and the error with which the remote fetch of
    [url], issued from [w], fails ([None] when it succeeds). *)
Definition cacheKey (env : Env) (url : string) : string :=
  url +:+ "_" +:+ JSON_stringify env (VObj []).

Definition freshAt (now : Z) (cached : option CacheEntry) : bool :=
  match cached with
  | Some entry => now - timestamp entry <? cacheTimeout
  | None => false
  end.

Definition failure (env : Env) (w : World) (url : string) : option Value :=
  match fetch env (length (log w)) url with
  | Rejected e => Some e
  | Resolved response =>
      if ok response then
        match json response with
        | Rejected e => Some e
        | Resolved _ => None
        end
      else Some (httpError env response)
  end.

End DataService.

(** * Properties of the router *)
Section RouterFacts.
Import JSString Router.

#[local] Arguments startsWith : simpl never.
#[local] Arguments String.eqb : simpl never.
#[local] Arguments Ascii.eqb : simpl never.

Lemma split_nonempty (sep : ascii) (s : string) : split sep s <> [].
Proof.
  induction s as [|c s IH]; simpl; [done|].
  destruct (Ascii.eqb c sep); [done|].
  destruct (split sep s); done.
Qed.

Lemma startsWith_colon (seg : string) :
  startsWith seg ":" = true <-> seg = ":" +:+ substring1 seg.
Proof.
  destruct seg as [|c seg]; [split; done|].
  change (startsWith (String c seg) ":") with (Ascii.eqb ":" c && true).
  change (substring1 (String c seg)) with seg.
  rewrite andb_true_r. split.
  - intros H. apply Ascii.eqb_eq in H. by subst c.
  - intros [= <-]. apply Ascii.eqb_refl.
Qed.

Lemma startsWith_colon_name (name : string) : startsWith (":" +:+ name) ":" = true.
Proof. done. Qed.

(** The inner loop succeeds exactly when the literal segments agree. *)
Lemma matchSegments_agree (pathParts parts : list string) (acc : gmap string string) :
  length pathParts = length parts ->
  is_Some (matchSegments pathParts parts acc) <->
  forall (i : nat) (a b : string),
    pathParts !! i = Some a -> parts !! i = Some b ->
    startsWith a ":" = false -> a = b.
Proof.
  revert parts acc.
  induction pathParts as [|a pathParts IH]; intros [|b parts] acc Hlen;
    simpl in *; try discriminate.
  - split; [intros _ i x y Hx; by destruct i | eauto].
  - injection Hlen as Hlen.
    destruct (startsWith a ":") eqn:Ea.
    + rewrite (IH parts _ Hlen). split.
      * intros H [|i] x y; simpl; [intros [= <-] [= <-]; congruence | apply H].
      * intros H i. apply (H (S i)).
    + destruct (String.eqb a b) eqn:Eab.
      * apply String.eqb_eq in Eab. subst b.
        rewrite (IH parts _ Hlen). split.
        -- intros H [|i] x y; simpl; [intros [= <-] [= <-]; done | apply H].
        -- intros H i. apply (H (S i)).
      * apply String.eqb_neq in Eab. split.
        -- intros [? [=]].
        -- intros H. destruct Eab. by apply (H 0%nat a b).
Qed.

(** What the inner loop leaves in [tempParams]: the name [__proto__] is
    never added; any other name is bound at its last occurrence. *)
Lemma setParam_lookup (paramName value name : string) (acc : gmap string string) :
  setParam paramName value acc !! name =
    if decide (paramName = name /\ name <> "__proto__") then Some value
    else acc !! name.
Proof.
  unfold setParam. destruct (String.eqb paramName "__proto__") eqn:E.
  - apply String.eqb_eq in E. subst paramName.
    case_decide as H; [by destruct H|done].
  - apply String.eqb_neq in E. case_decide as H.
    + destruct H as [-> _]. by rewrite lookup_insert_eq.
    + rewrite lookup_insert_ne; [done|]. intros ->. by apply H.
Qed.

Lemma matchSegments_lookup (pathParts parts : list string)
    (acc tp : gmap string string) (name value : string) :
  length pathParts = length parts ->
  matchSegments pathParts parts acc = Some tp ->
  tp !! name = Some value <->
  (name <> "__proto__" /\
   exists i : nat,
      pathParts !! i = Some (":" +:+ name) /\ parts !! i = Some value /\
      forall j : nat, (i < j)%nat -> pathParts !! j <> Some (":" +:+ name))
  \/ ((name = "__proto__" \/ forall j : nat, pathParts !! j <> Some (":" +:+ name)) /\
      acc !! name = Some value).
Proof.
  revert parts acc.
  induction pathParts as [|a pathParts IH]; intros [|b parts] acc Hlen Hm;
    simpl in *; try discriminate.
  - injection Hm as <-. split.
    + intros H. right. split; [right; intros j; by destruct j | done].
    + intros [(_ & i & Hi & _) | [_ H]]; [by destruct i | done].
  - injection Hlen as Hlen.
    destruct (startsWith a ":") eqn:Ea.
    + apply startsWith_colon in Ea.
      rewrite (IH parts _ Hlen Hm), setParam_lookup. clear IH Hm. split.
      * intros [(Hname & i & Hi & Hv & Hlast) | [Hnone Hacc]].
        -- left. split; [done|]. exists (S i). repeat split; [done..|].
           intros [|j] Hj; [lia|]. simpl. apply Hlast. lia.
        -- case_decide as Hd.
           ++ destruct Hd as [Heq Hname]. injection Hacc as <-.
              destruct Hnone as [Hnone|Hnone]; [done|].
              left. split; [done|]. exists 0%nat. simpl.
              repeat split; [congruence|].
              intros [|j] Hj; [lia|]. simpl. apply Hnone.
           ++ right. split; [|done].
              destruct Hnone as [Hnone|Hnone]; [by left|].
              destruct (decide (name = "__proto__")) as [Hp|Hp]; [by left|].
              right. intros [|j]; simpl; [|apply Hnone].
              intros [= Ha]. apply Hd. split; [|done]. by rewrite Ha.
      * intros [(Hname & i & Hi & Hv & Hlast) | [Hnone Hacc]].
        -- destruct i as [|i]; simpl in *.
           ++ injection Hi as Hi. injection Hv as ->. right. split.
              ** right. intros j. apply (Hlast (S j)). lia.
              ** rewrite decide_True; [done|]. split; [|done]. by rewrite Hi.
           ++ left. split; [done|]. exists i. repeat split; [done..|].
              intros j Hj. apply (Hlast (S j)). lia.
        -- destruct Hnone as [Hnone|Hnone].
           ++ right. split; [by left|]. rewrite decide_False; [done|].
              intros [_ H]. done.
           ++ right. split; [right; intros j; apply (Hnone (S j))|].
              rewrite decide_False; [done|].
              intros [Heq _]. apply (Hnone 0%nat). simpl. by rewrite Ea, Heq.
    + destruct (String.eqb a b) eqn:Eab; [|discriminate].
      rewrite (IH parts _ Hlen Hm). clear IH Hm.
      assert (Hlit : forall n, a <> ":" +:+ n).
      { intros n ->. by rewrite startsWith_colon_name in Ea. }
      split.
      * intros [(Hname & i & Hi & Hv & Hlast) | [Hnone Hacc]].
        -- left. split; [done|]. exists (S i). repeat split; [done..|].
           intros [|j] Hj; [lia|]. simpl. apply Hlast. lia.
        -- right. split; [|done]. destruct Hnone as [Hnone|Hnone]; [by left|].
           right. intros [|j]; simpl; [|apply Hnone].
           intros [= Ha]. by apply (Hlit name).
      * intros [(Hname & i & Hi & Hv & Hlast) | [Hnone Hacc]].
        -- destruct i as [|i]; simpl in *.
           ++ injection Hi as Hi. by destruct (Hlit name).
           ++ left. split; [done|]. exists i. repeat split; [done..|].
              intros j Hj. apply (Hlast (S j)). lia.
        -- right. split; [|done]. destruct Hnone as [Hnone|Hnone]; [by left|].
           right. intros j. apply (Hnone (S j)).
Qed.

(** One pattern: the loop body agrees with [Matches]. *)
Lemma matchPattern_Matches (pattern route : string) :
  is_Some (matchPattern pattern (split "/" route)) <-> Matches pattern route.
Proof.
  unfold matchPattern, Matches.
  destruct (Nat.eqb _ _) eqn:E.
  - apply Nat.eqb_eq in E. rewrite (matchSegments_agree _ _ _ E). naive_solver.
  - apply Nat.eqb_neq in E. split; [intros [? [=]] | intros [? _]; done].
Qed.

Lemma matchPattern_None (pattern route : string) :
  matchPattern pattern (split "/" route) = None <-> ~ Matches pattern route.
Proof.
  rewrite <- matchPattern_Matches, <- eq_None_not_Some. done.
Qed.

Lemma matchPattern_bound (pattern route : string) (tp : gmap string string)
    (name value : string) :
  matchPattern pattern (split "/" route) = Some tp ->
  tp !! name = Some value <->
  name <> "__proto__" /\ BoundAt pattern route name value.
Proof.
  unfold matchPattern, BoundAt.
  destruct (Nat.eqb _ _) eqn:E; [|discriminate].
  apply Nat.eqb_eq in E. intros Hm.
  rewrite (matchSegments_lookup _ _ _ _ name value E Hm).
  rewrite lookup_empty. naive_solver.
Qed.

(** The scan stops at the first pattern that matches. *)
Lemma scanRoutes_Some (routes : Routes) (route pattern : string)
    (tp : gmap string string) :
  scanRoutes routes (split "/" route) = Some (pattern, tp) ->
  exists before h after,
    routes = before ++ (pattern, h) :: after /\
    Forall (fun kv => ~ Matches kv.1 route) before /\
    matchPattern pattern (split "/" route) = Some tp.
Proof.
  induction routes as [|[p h] routes IH]; simpl; [done|].
  destruct (matchPattern p (split "/" route)) as [tp'|] eqn:E.
  - intros [= -> ->]. exists [], h, routes. by repeat split.
  - intros H. destruct (IH H) as (before & h' & after & -> & Hb & Hm).
    exists ((p, h) :: before), h', after. repeat split; [|done].
    constructor; [|done]. simpl. by apply matchPattern_None.
Qed.

Lemma scanRoutes_None (routes : Routes) (route : string) :
  scanRoutes routes (split "/" route) = None ->
  Forall (fun kv => ~ Matches kv.1 route) routes.
Proof.
  induction routes as [|[p h] routes IH]; simpl; [constructor|].
  destruct (matchPattern p (split "/" route)) as [tp'|] eqn:E; [done|].
  intros H. constructor; [|by apply IH]. simpl. by apply matchPattern_None.
Qed.

Lemma scanRoutes_unmatched (routes : Routes) (route : string) :
  Forall (fun kv => ~ Matches kv.1 route) routes ->
  scanRoutes routes (split "/" route) = None.
Proof.
  induction 1 as [|[p h] routes Hp _ IH]; simpl in *; [done|].
  apply matchPattern_None in Hp. by rewrite Hp.
Qed.

(** C2. [parseRoute] returns the first registered pattern, in
    registration order, that has as many segments as the route and whose
    literal segments equal the route's segments position by position; no
    pattern before it matches, and a pattern of another segment count
    never matches.  [params] binds each parameter name other than
    [__proto__] to the segment of the route at that parameter's (last)
    position, and binds nothing else: a parameter named [__proto__] is
    never bound.  When no pattern matches the result carries the empty
    path and no parameters. *)
Theorem parseRoute_first_match (routes : Routes) (r : string) :
  let parsed := parseRoute routes r in
  route parsed = r /\
  ((exists before h after,
       routes = before ++ (path parsed, h) :: after /\
       Forall (fun kv => ~ Matches kv.1 r) before /\
       Matches (path parsed) r /\
       length (split "/" (path parsed)) = length (split "/" r) /\
       forall name value : string,
         params parsed !! name = Some value <->
         name <> "__proto__" /\ BoundAt (path parsed) r name value)
   \/ (Forall (fun kv => ~ Matches kv.1 r) routes /\
       path parsed = "" /\ params parsed = ∅)).
Proof.
  unfold parseRoute.
  destruct (scanRoutes routes (split "/" r)) as [[p tp]|] eqn:E; simpl.
  - split; [done|]. left.
    destruct (scanRoutes_Some _ _ _ _ E) as (before & h & after & -> & Hb & Hm).
    assert (HM : Matches p r) by (apply matchPattern_Matches; eauto).
    exists before, h, after.
    split; [done|]. split; [done|]. split; [done|]. split; [apply HM|].
    intros name value. unfold objectAssign. rewrite (right_id_L ∅ (∪)).
    apply (matchPattern_bound _ _ _ _ _ Hm).
  - split; [done|]. right. split; [by apply scanRoutes_None|done].
Qed.

(** A parameter segment that is not bound: the pattern [p/:__proto__]
    matches the route [p/x] and has the parameter [__proto__] where the
    route has [x], yet the parameters of the parsed route are empty. *)
Lemma proto_parameter_not_bound :
  Matches "p/:__proto__" "p/x" /\
  BoundAt "p/:__proto__" "p/x" "__proto__" "x" /\
  parseRoute (addRoute "p/:__proto__" renderHome []) "p/x"
    = mkParsed "p/:__proto__" ∅ "p/x".
Proof.
  split; [|split].
  - apply matchPattern_Matches. vm_compute. eauto.
  - exists 1%nat. split; [by vm_compute|]. split; [by vm_compute|].
    intros [|[|j]] Hj; [lia..|]. by vm_compute.
  - by vm_compute.
Qed.

Lemma map_get_registered (routes before after : Routes) (p : string) (h : Handler) :
  routes = before ++ (p, h) :: after -> is_Some (map_get p routes).
Proof.
  intros ->. induction before as [|[k v] before IH]; simpl.
  - rewrite String.eqb_refl. eauto.
  - destruct (String.eqb k p); eauto.
Qed.

(** C1. With the routes that [setupRoutes] registers, a route that no
    pattern matches is not answered by the not-found view: [parseRoute]
    hands back the empty path, which is itself a registered pattern, so
    the home page renderer runs.  At the route ["foo"]: no registered
    pattern matches, and [handleRoute] shows the home page (or the error
    view when that renderer throws); the same happens at every route that
    no pattern matches, and for no location at all does [handleRoute]
    reach [render404]. *)
Theorem unmatched_route_renders_home :
  Forall (fun kv => ~ Matches kv.1 "foo") setupRoutes /\
  (forall completes : Handler -> gmap string string -> string -> bool,
     handleRoute setupRoutes completes "#foo" =
       if completes renderHome ∅ "foo" then Page renderHome ∅ else ErrorView) /\
  (forall (completes : Handler -> gmap string string -> string -> bool)
          (hash : string),
     Forall (fun kv => ~ Matches kv.1 (getCurrentRoute hash)) setupRoutes ->
     handleRoute setupRoutes completes hash =
       if completes renderHome ∅ (getCurrentRoute hash)
       then Page renderHome ∅ else ErrorView) /\
  (forall (completes : Handler -> gmap string string -> string -> bool)
          (hash : string),
     handleRoute setupRoutes completes hash <> NotFoundView).
Proof.
  split; [|split; [|split]].
  - apply scanRoutes_None. by vm_compute.
  - intros ok. by vm_compute.
  - intros ok hash Hnone. unfold handleRoute, parseRoute.
    by rewrite (scanRoutes_unmatched _ _ Hnone).
  - intros ok hash. unfold handleRoute, parseRoute.
    destruct (scanRoutes setupRoutes _) as [[p tp]|] eqn:E; cbn [path params].
    + destruct (scanRoutes_Some _ _ _ _ E) as (before & h & after & Hr & _ & _).
      destruct (map_get_registered _ _ _ _ _ Hr) as [h' ->].
      by case_match.
    + change (map_get "" setupRoutes) with (Some renderHome).
      cbv iota beta. by case_match.
Qed.

Lemma split_app_snoc (sep : ascii) (a b lb h : string) (init t : list string) :
  split sep a = init ++ [lb] ->
  split sep b = h :: t ->
  split sep (a +:+ b) = init ++ (lb +:+ h) :: t.
Proof.
  intros Ha Hb. revert init lb Ha.
  induction a as [|c a IH]; intros init lb Ha; simpl in *.
  - destruct init as [|? [|? ?]]; simplify_eq/=. done.
  - destruct (Ascii.eqb c sep).
    + destruct init as [|i0 init]; simplify_eq/=.
      * by destruct (split_nonempty sep a).
      * by rewrite (IH init lb).
    + destruct (split sep a) as [|h0 t0] eqn:Es;
        [by destruct (split_nonempty sep a)|].
      destruct init as [|i0 init]; simplify_eq/=.
      * by rewrite (IH [] h0).
      * by rewrite (IH (h0 :: init) lb).
Qed.

Lemma split_query (q : string) :
  exists h t, split "/" q = h :: t /\ split "/" ("?" +:+ q) = ("?" +:+ h) :: t.
Proof.
  destruct (split "/" q) as [|h t] eqn:E; [by destruct (split_nonempty "/" q)|].
  exists h, t. split; [done|].
  change ("?" +:+ q) with (String "?" q). cbn [split].
  change (Ascii.eqb "?" "/") with false. by rewrite E.
Qed.

Lemma append_longer (a b : string) : a = a +:+ b -> b = "".
Proof.
  induction a as [|c a IH]; simpl; [done|]. intros [= H]. by apply IH.
Qed.

Lemma unstripped_query_no_match (pattern base query : string) :
  Matches pattern base ->
  endsWithLiteral pattern = true ->
  ~ Matches pattern (base +:+ "?" +:+ query).
Proof.
  intros [Hlen Hlit] Hend [Hlen' Hlit'].
  unfold endsWithLiteral in Hend.
  destruct (last (split "/" pattern)) as [lp|] eqn:Elp; [|done].
  apply negb_true_iff in Hend.
  apply last_Some in Elp as [pinit Ep].
  destruct (last (split "/" base)) as [lb|] eqn:Elb;
    [|apply last_None in Elb; by destruct (split_nonempty "/" base)].
  apply last_Some in Elb as [binit Eb].
  destruct (split_query query) as (h & t & _ & Eq).
  rewrite (split_app_snoc _ _ _ _ _ _ _ Eb Eq) in Hlen', Hlit'.
  rewrite Ep in Hlen, Hlit, Hlen', Hlit'. rewrite Eb in Hlen, Hlit.
  rewrite !length_app in *. simpl in *.
  assert (Hpb : length pinit = length binit) by lia.
  assert (E1 : lp = lb).
  { apply (Hlit (length pinit)); [| |done].
    - by rewrite list_lookup_middle.
    - by rewrite list_lookup_middle. }
  assert (E2 : lp = lb +:+ "?" +:+ h).
  { apply (Hlit' (length pinit)); [| |done].
    - by rewrite list_lookup_middle.
    - by rewrite list_lookup_middle. }
  rewrite E1 in E2. by apply append_longer in E2.
Qed.

(** C10, as the code has it.  [parseRoute] matches on the route as it
    stands: the text from the ['?'] on stays in the segments (glued to the
    last segment of the base path), and so a route made of a base path and
    a query does not match a pattern that the base path matches and that
    ends in a literal segment; this holds in particular for the routes
    that [goToPage] and [handleFilterChange] navigate to from such a base
    path. *)
Theorem query_suffix_not_stripped (pattern base query : string) :
  Matches pattern base ->
  endsWithLiteral pattern = true ->
  (exists (init t : list string) (lb h : string),
      split "/" base = init ++ [lb] /\ split "/" query = h :: t /\
      split "/" (base +:+ "?" +:+ query) = init ++ (lb +:+ "?" +:+ h) :: t) /\
  ~ Matches pattern (base +:+ "?" +:+ query) /\
  matchPattern pattern (split "/" (base +:+ "?" +:+ query)) = None /\
  (forall current : string,
      basePath current = base -> ~ Matches pattern (goToPage current query)) /\
  (forall current filterKey filterValue encoded : string,
      basePath current = base -> filterValue <> "" ->
      ~ Matches pattern (handleFilterChange current filterKey filterValue encoded)).
Proof.
  intros HM Hend. repeat split.
  - destruct (last (split "/" base)) as [lb|] eqn:Elb;
      [|apply last_None in Elb; by destruct (split_nonempty "/" base)].
    apply last_Some in Elb as [binit Eb].
    destruct (split_query query) as (h & t & Eq & Eq').
    exists binit, t, lb, h. repeat split; [done..|].
    by apply split_app_snoc.
  - by apply unstripped_query_no_match.
  - apply matchPattern_None. by apply unstripped_query_no_match.
  - intros current <-. by apply unstripped_query_no_match.
  - intros current filterKey filterValue encoded <- Hv.
    unfold handleFilterChange.
    apply String.eqb_neq in Hv. rewrite Hv.
    by apply (unstripped_query_no_match pattern (basePath current)
                (filterKey +:+ "=" +:+ encoded)).
Qed.

(** The page-two link of the opportunities list: the pattern
    ["opportunities"] is not matched, and the registered table as a whole
    yields the empty path for it. *)
Lemma query_suffix_not_stripped_witness :
  matchPattern "opportunities" (split "/" "opportunities?page=2") = None /\
  parseRoute setupRoutes (goToPage "opportunities" "page=2")
    = mkParsed "" ∅ "opportunities?page=2".
Proof.
  split.
  - assert (HM : Matches "opportunities" "opportunities").
    { apply matchPattern_Matches. vm_compute. eauto. }
    assert (Hend : endsWithLiteral "opportunities" = true) by (vm_compute; reflexivity).
    exact (proj1 (proj2 (proj2
             (query_suffix_not_stripped "opportunities" "opportunities" "page=2"
                HM Hend)))).
  - vm_compute. reflexivity.
Defined.

(** A pattern that ends in a parameter is different: the route that
    [goToPage] builds on a detail page still matches the detail pattern,
    the query text being bound into the parameter. *)
Lemma query_suffix_matches_parameter_pattern :
  basePath "opportunities/42?page=2" = "opportunities/42" /\
  Matches "opportunities/:id" "opportunities/42" /\
  Matches "opportunities/:id" "opportunities/42?page=2" /\
  parseRoute setupRoutes (goToPage "opportunities/42" "page=2")
    = mkParsed "opportunities/:id" {[ "id" := "42?page=2" ]}
               "opportunities/42?page=2".
Proof.
  split; [by vm_compute|]. split; [|split].
  - apply matchPattern_Matches. vm_compute. eauto.
  - apply matchPattern_Matches. vm_compute. eauto.
  - vm_compute. reflexivity.
Qed.

End RouterFacts.

(** * Properties of the CMS clients *)

#[local] Arguments JSString.startsWith : simpl never.
#[local] Arguments JSString.includes : simpl never.
#[local] Arguments JSString.trim : simpl never.
#[local] Arguments String.eqb : simpl never.
#[local] Arguments String.append : simpl never.

(** Unfolding of the monadic plumbing. *)
Ltac munfold :=
  unfold mbind, Cms.M_bind, Cms.bind, mret, Cms.M_ret, Cms.ret, Cms.throw,
    Cms.tryCatch, Cms.ask, Cms.dateNow, Cms.ID_unique, Cms.cacheGet,
    Cms.cacheSet, Cms.cachePut, Cms.call_listDocuments, Cms.call_getDocument,
    Cms.call_createDocument, Cms.call_fetch, Cms.issue, Cms.await in *.

Ltac mrun := repeat (progress (munfold; simpl)).

(** ** Operations that never remove a cache entry *)
Section Retention.
Import JSString Cms.

Lemma keysKept_refl (w : World) : keysKept w w.
Proof. by intros key. Qed.

Lemma keysKept_trans (w1 w2 w3 : World) :
  keysKept w1 w2 -> keysKept w2 w3 -> keysKept w1 w3.
Proof. intros H12 H23 key H. by apply H23, H12. Qed.

Lemma Keeps_ret {A : Type} (a : A) : Keeps (mret a).
Proof. intros env w. apply keysKept_refl. Qed.

Lemma Keeps_throw {A : Type} (e : Value) : Keeps (throw (A := A) e).
Proof. intros env w. apply keysKept_refl. Qed.

Lemma Keeps_bind {A B : Type} (m : M A) (k : A -> M B) :
  Keeps m -> (forall a, Keeps (k a)) -> Keeps (m ≫= k).
Proof.
  intros Hm Hk env w. unfold mbind, M_bind, bind.
  specialize (Hm env w). destruct (m env w) as [[a|e] w']; simpl in *; [|done].
  eapply keysKept_trans; [done|]. apply Hk.
Qed.

Lemma Keeps_tryCatch {A : Type} (body : M A) (handler : Value -> M A) :
  Keeps body -> (forall e, Keeps (handler e)) -> Keeps (tryCatch body handler).
Proof.
  intros Hm Hk env w. unfold tryCatch.
  specialize (Hm env w). destruct (body env w) as [[a|e] w']; simpl in *; [done|].
  eapply keysKept_trans; [done|]. apply Hk.
Qed.

Lemma Keeps_ask : Keeps ask.
Proof. intros env w. apply keysKept_refl. Qed.

Lemma Keeps_dateNow : Keeps dateNow.
Proof. by intros env w key. Qed.

Lemma Keeps_cacheGet (key : string) : Keeps (cacheGet key).
Proof. intros env w. apply keysKept_refl. Qed.

Lemma Keeps_cacheSet (key : string) (entry : CacheEntry) : Keeps (cacheSet key entry).
Proof.
  intros env w k Hk. simpl.
  destruct (decide (key = k)) as [->|Hne].
  - rewrite lookup_insert_eq. eauto.
  - by rewrite lookup_insert_ne.
Qed.

Lemma Keeps_issue {A : Type} (r : Request) (settled : Env -> nat -> Response A) :
  Keeps (issue r settled).
Proof. by intros env w key. Qed.

Lemma Keeps_await {A : Type} (p : Response A) : Keeps (await p).
Proof. destruct p; intros env w; apply keysKept_refl. Qed.

Lemma Keeps_getProp (v : Value) (k : string) : Keeps (getProp v k).
Proof. destruct v; intros env w; apply keysKept_refl. Qed.

End Retention.

Create HintDb keeps.
#[local] Hint Resolve Keeps_ret Keeps_throw Keeps_ask Keeps_dateNow
  Keeps_cacheGet Keeps_cacheSet Keeps_issue Keeps_await Keeps_getProp : keeps.

(** Walks through a computation, one combinator at a time. *)
Ltac keeps :=
  repeat first
    [ apply Keeps_bind; [|intros ?]
    | apply Keeps_tryCatch; [|intros ?]
    | solve [eauto with keeps]
    | progress unfold Cms.call_listDocuments, Cms.call_getDocument,
        Cms.call_createDocument, Cms.call_fetch
    | case_match ].

Section AppwriteFacts.
Import JSString Cms Appwrite.

Lemma Keeps_isValidCache (cached : option CacheEntry) : Keeps (isValidCache cached).
Proof. unfold isValidCache. keeps. Qed.

Lemma Keeps_setCache (key : string) (d : Value) : Keeps (setCache key d).
Proof. unfold setCache. keeps. Qed.

Lemma Keeps_getCacheKey (collection : string) (query : Value) :
  Keeps (getCacheKey collection query).
Proof. unfold getCacheKey. keeps. Qed.

Lemma Keeps_mapM {A B : Type} (f : A -> M B) (xs : list A) :
  (forall x, Keeps (f x)) -> Keeps (mapM f xs).
Proof. intros Hf. induction xs as [|x xs IH]; simpl; keeps. Qed.

Lemma Keeps_awaitAll {A : Type} (ps : list (Response A)) : Keeps (awaitAll ps).
Proof. induction ps as [|p ps IH]; simpl; keeps. Qed.

Lemma Keeps_tagHit (collectionKey : string) (doc : Obj) : Keeps (tagHit collectionKey doc).
Proof. unfold tagHit, subtitleOf. keeps. Qed.

Lemma Keeps_searchLoop (searchTerm : string) (collectionsToSearch : list string)
    (results : list Value) :
  Keeps (searchLoop searchTerm results collectionsToSearch).
Proof.
  revert results.
  induction collectionsToSearch as [|k ks IH]; intros results; simpl; [keeps|].
  apply Keeps_bind; [|intros ?; apply IH].
  unfold searchCollection.
  pose proof (Keeps_mapM (tagHit k)) as Hmap.
  apply Keeps_tryCatch; [|intros ?; keeps].
  apply Keeps_bind; [keeps|intros ?].
  apply Keeps_bind; [keeps|intros ?].
  apply Keeps_bind; [|intros ?; keeps].
  apply Hmap. intros doc. apply Keeps_tagHit.
Qed.

Lemma Keeps_runRead (op : ReadOp) : Keeps (runRead op).
Proof.
  pose proof Keeps_isValidCache. pose proof Keeps_setCache.
  pose proof Keeps_getCacheKey. pose proof (@Keeps_awaitAll DocumentList).
  pose proof Keeps_searchLoop.
  destruct op as [[] filters|id|id|id|id|term types| |]; simpl;
    unfold getOpportunities, getCompanies, getRegulatoryUpdates, getArticles,
      listWithCache, getOpportunityById, getCompanyById,
      getRegulatoryUpdateById, getArticleById, search, getDashboardStats,
      getFeaturedContent, setProp;
    keeps.
Qed.

(** C9. When one of the four sub-fetches that [getFeaturedContent]
    (respectively [getDashboardStats]) issues is rejected, the result is
    the static fallback summary as a whole; all four requests have been
    issued, and the cache is untouched. *)
Theorem aggregate_all_or_nothing (env : Env) (w : World) :
  (rejected (subFetch env w 0 "opportunities"
               [Query.equal "featured" (VBool true); Query.limit (VNum 3)]) \/
   rejected (subFetch env w 1 "companies"
               [Query.equal "featured" (VBool true); Query.limit (VNum 6)]) \/
   rejected (subFetch env w 2 "regulatory"
               [Query.orderDesc "publishedDate"; Query.limit (VNum 3)]) \/
   rejected (subFetch env w 3 "articles"
               [Query.orderDesc "publishedDate"; Query.limit (VNum 3)]) ->
   (getFeaturedContent env w).1 = Return getMockFeaturedContent /\
   length (log (getFeaturedContent env w).2) = (length (log w) + 4)%nat /\
   cache (getFeaturedContent env w).2 = cache w) /\
  (rejected (subFetch env w 0 "opportunities" [Query.limit (VNum 1)]) \/
   rejected (subFetch env w 1 "companies" [Query.limit (VNum 1)]) \/
   rejected (subFetch env w 2 "regulatory" [Query.limit (VNum 1)]) \/
   rejected (subFetch env w 3 "articles" [Query.limit (VNum 1)]) ->
   (getDashboardStats env w).1 = Return mockDashboardStats /\
   length (log (getDashboardStats env w).2) = (length (log w) + 4)%nat /\
   cache (getDashboardStats env w).2 = cache w).
Proof.
  unfold subFetch, rejected, getFeaturedContent, getDashboardStats.
  mrun. rewrite !length_app. simpl.
  replace (length (log w) + 0)%nat with (length (log w)) by lia.
  replace (length (log w) + 1 + 1)%nat with (length (log w) + 2)%nat by lia.
  replace (length (log w) + 2 + 1)%nat with (length (log w) + 3)%nat by lia.
  split.
  - intros H.
    repeat (match goal with
            | |- context [match ?x with Resolved _ => _ | Rejected _ => _ end] =>
                destruct x eqn:?
            end; simpl);
      rewrite ?length_app; simpl; try (repeat split; try done; lia).
    destruct H as [[e H]|[[e H]|[[e H]|[e H]]]]; congruence.
  - intros H.
    repeat (match goal with
            | |- context [match ?x with Resolved _ => _ | Rejected _ => _ end] =>
                destruct x eqn:?
            end; simpl);
      rewrite ?length_app; simpl; try (repeat split; try done; lia).
    destruct H as [[e H]|[[e H]|[[e H]|[e H]]]]; congruence.
Qed.

Lemma foldl_delete_lookup (keys : list string) (m : gmap string CacheEntry)
    (k : string) :
  foldl (fun c key => delete key c) m keys !! k =
    if decide (k ∈ keys) then None else m !! k.
Proof.
  revert m. induction keys as [|key keys IH]; intros m; simpl.
  - done.
  - rewrite IH. destruct (decide (k = key)) as [->|Hne].
    + rewrite lookup_delete_eq. clear IH.
      repeat case_decide; try done; exfalso; set_solver.
    + rewrite lookup_delete_ne by done. clear IH.
      repeat case_decide; try done; exfalso; set_solver.
Qed.

(** The collection-scoped clear removes the keys that contain the
    collection name, and only those. *)
Lemma clearCacheByCollection_lookup (collection : string) (env : Env) (w : World)
    (k : string) :
  cache (clearCacheByCollection collection env w).2 !! k =
    if includes k collection then None else cache w !! k.
Proof.
  unfold clearCacheByCollection. simpl. rewrite foldl_delete_lookup.
  case_decide as H.
  - apply list_elem_of_filter in H as [-> _]. done.
  - destruct (includes k collection) eqn:E; [|done].
    destruct (cache w !! k) as [entry|] eqn:Ek; [|done].
    destruct H. apply list_elem_of_filter. split; [done|].
    apply list_elem_of_In, in_map_iff. exists (k, entry). split; [done|].
    by apply list_elem_of_In, elem_of_map_to_list.
Qed.

Lemma startsWith_append (a b : string) : startsWith (a +:+ b) a = true.
Proof.
  induction a as [|ch a IH]; [done|].
  change (startsWith (String ch a +:+ b) (String ch a))
    with (Ascii.eqb ch ch && startsWith (a +:+ b) a).
  by rewrite Ascii.eqb_refl, IH.
Qed.

Lemma includes_prefix (a b : string) : includes (a +:+ b) a = true.
Proof.
  assert (H : forall s n, startsWith s n = true -> includes s n = true).
  { intros s n Hs. destruct s as [|ch s].
    - change (includes "" n) with (startsWith "" n || false). by rewrite Hs.
    - change (includes (String ch s) n)
        with (startsWith (String ch s) n || includes s n).
      by rewrite Hs. }
  apply H, startsWith_append.
Qed.

(** One [list] call, step by step: a fresh entry is returned after one
    clock reading; otherwise one request is issued, and its answer is
    cached and returned, or the mock data is returned. *)
Lemma listOf_run (c : Collection) (filters : Obj) (env : Env) (w : World) :
  let key := listKey env c filters in
  let fetchFrom (reads : nat) :=
    match listDocuments env (length (log w)) databaseId (collectionName c)
            (listQueries c filters) with
    | Resolved response =>
        (Return (documentsOf response),
         mkWorld (<[key := mkEntry (documentsOf response) (clock env reads)]> (cache w))
                 (S reads) (idsDrawn w) (log w ++ [listRequest c filters]))
    | Rejected e =>
        (Return (mockOf c),
         mkWorld (cache w) reads (idsDrawn w) (log w ++ [listRequest c filters]))
    end in
  listOf c filters env w =
    match cache w !! key with
    | Some entry =>
        if clock env (clockReads w) - timestamp entry <? cacheTimeout
        then (Return (data entry),
              mkWorld (cache w) (S (clockReads w)) (idsDrawn w) (log w))
        else fetchFrom (S (clockReads w))
    | None => fetchFrom (clockReads w)
    end.
Proof.
  destruct c; unfold listOf, getOpportunities, getCompanies, getRegulatoryUpdates,
    getArticles, listWithCache, getCacheKey, isValidCache, setCache, listKey,
    listRequest, listQueries, collectionName, mockOf; mrun;
    repeat case_match; simplify_eq/=; congruence.
Qed.

(** C3. Two consecutive [list] calls with the same filters.  The first
    finds no fresh entry and its request is answered; it stamps what it
    caches with the clock reading [stamped], and the second call reads
    the clock next.  When less than the cache timeout lies between these
    two readings, the first call returns what the remote answered, the
    second returns the same value, and the two calls together issue
    exactly one request, the one of the first call. *)
Theorem list_twice_one_fetch (c : Collection) (filters : Obj) (env : Env)
    (w : World) (response : DocumentList) :
  let key := listKey env c filters in
  let request := listRequest c filters in
  let stamped :=
    match cache w !! key with
    | Some _ => S (clockReads w)
    | None => clockReads w
    end in
  let first := listOf c filters env w in
  let second := listOf c filters env first.2 in
  freshAt (clock env (clockReads w)) (cache w !! key) = false ->
  listDocuments env (length (log w)) databaseId (collectionName c)
    (listQueries c filters) = Resolved response ->
  clock env (S stamped) - clock env stamped < cacheTimeout ->
  first.1 = Return (documentsOf response) /\
  second.1 = first.1 /\
  log first.2 = log w ++ [request] /\
  log second.2 = log w ++ [request] /\
  cache first.2 !! key = Some (mkEntry (documentsOf response) (clock env stamped)) /\
  cache second.2 = cache first.2.
Proof.
  intros key request stamped first second Hstale Hremote Hwindow. subst second.
  pose proof (listOf_run c filters env w) as Hfirst.
  pose proof (listOf_run c filters env first.2) as Hsecond.
  cbv zeta in Hfirst, Hsecond. fold key in Hfirst, Hsecond.
  fold first in Hfirst. rewrite Hsecond. clear Hsecond.
  apply Z.ltb_lt in Hwindow. unfold freshAt in Hstale.
  subst stamped request. clearbody first key.
  rewrite Hremote in Hfirst.
  destruct (cache w !! key) as [e0|] eqn:E0.
  - rewrite Hstale in Hfirst. subst first. simpl.
    rewrite lookup_insert_eq. simpl. rewrite Hwindow. done.
  - subst first. simpl.
    rewrite lookup_insert_eq. simpl. rewrite Hwindow. done.
Qed.

(** C4. An entry with creation time [t] is accepted as fresh exactly
    when [now - t < 300000] (five minutes in milliseconds): a [list] call
    that reads the clock at [t + TTL - 1] returns the cached data without
    a remote request, one that reads it at [t + TTL + 1] issues the
    request.  No read operation ever removes a key from the cache, so a
    stale entry stays where it is; [clearCache] empties the cache and
    [clearCacheByCollection] removes exactly the keys that contain the
    collection name. *)
Theorem cache_freshness_and_retention :
  cacheTimeout = 300000 /\
  (forall (env : Env) (w : World) (entry : CacheEntry),
      isValidCache (Some entry) env w =
        (Return (bool_decide (clock env (clockReads w) - timestamp entry < cacheTimeout)),
         mkWorld (cache w) (S (clockReads w)) (idsDrawn w) (log w))) /\
  (forall (env : Env) (w : World), isValidCache None env w = (Return false, w)) /\
  (forall (c : Collection) (filters : Obj) (env : Env) (w : World) (entry : CacheEntry),
      cache w !! listKey env c filters = Some entry ->
      (clock env (clockReads w) = timestamp entry + cacheTimeout - 1 ->
       (listOf c filters env w).1 = Return (data entry) /\
       log (listOf c filters env w).2 = log w) /\
      (clock env (clockReads w) = timestamp entry + cacheTimeout + 1 ->
       log (listOf c filters env w).2 = log w ++ [listRequest c filters])) /\
  (forall (op : ReadOp) (env : Env) (w : World) (key : string),
      is_Some (cache w !! key) -> is_Some (cache (runRead op env w).2 !! key)) /\
  (forall (env : Env) (w : World), cache (clearCache env w).2 = ∅) /\
  (forall (collection : string) (env : Env) (w : World) (key : string),
      cache (clearCacheByCollection collection env w).2 !! key =
        if includes key collection then None else cache w !! key).
Proof.
  split; [done|]. split; [|split; [done|]]; [|split; [|split; [|split]]].
  - intros env w entry. unfold isValidCache. mrun.
    do 2 f_equal. case_bool_decide as H.
    + by apply Z.ltb_lt.
    + by apply Z.ltb_ge; lia.
  - intros c filters env w entry Hentry. rewrite listOf_run. cbv zeta.
    rewrite Hentry. split; intros Hnow; rewrite Hnow.
    + replace (_ <? _) with true by (symmetry; apply Z.ltb_lt; lia). done.
    + replace (_ <? _) with false by (symmetry; apply Z.ltb_ge; lia).
      by case_match.
  - intros op env w key. apply Keeps_runRead.
  - done.
  - apply clearCacheByCollection_lookup.
Qed.

#[local] Arguments clearCacheByCollection : simpl never.

(** After a [create] that returned, the cache is the old one without the
    keys that contain the collection name. *)
Lemma createIn_cache (c : Collection) (d : Obj) (env : Env) (w : World)
    (created : Value) (key : string) :
  (createIn c d env w).1 = Return created ->
  cache (createIn c d env w).2 !! key =
    if includes key (collectionName c) then None else cache w !! key.
Proof.
  destruct c; unfold createIn, createOpportunity, createCompany,
    createRegulatoryUpdate, createArticle, newDateISO, normalizeTags,
    collectionName; mrun; repeat case_match; simplify_eq/=; try done; intros _;
    match goal with
    | H : includes key ?coll = _ |- _ =>
        pose proof (clearCacheByCollection_lookup coll env w key) as L;
        rewrite H in L; exact L
    end.
Qed.

(** C7. A [create] that succeeds leaves the cache without the entries
    whose key contains the collection name, and with every other entry as
    it was; in particular no key of a [list] call of that collection is
    left, so the next [list] call, whatever its filters, issues its
    remote request instead of returning a page cached before. *)
Theorem create_invalidates_collection (c : Collection) (d : Obj) (env : Env)
    (w : World) (created : Value) :
  (createIn c d env w).1 = Return created ->
  (forall key : string,
      cache (createIn c d env w).2 !! key =
        if includes key (collectionName c) then None else cache w !! key) /\
  (forall filters : Obj,
      cache (createIn c d env w).2 !! listKey env c filters = None /\
      log (listOf c filters env (createIn c d env w).2).2 =
        log (createIn c d env w).2 ++ [listRequest c filters]).
Proof.
  intros Hok.
  assert (L := fun key => createIn_cache c d env w created key Hok).
  split; [done|]. intros filters.
  assert (Hgone : cache (createIn c d env w).2 !! listKey env c filters = None).
  { rewrite L. unfold listKey. by rewrite includes_prefix. }
  split; [done|].
  rewrite listOf_run. cbv zeta. rewrite Hgone. by case_match.
Qed.

Lemma obj_get_set_eq (k : string) (v : Value) (o : Obj) :
  obj_get k (obj_set k v o) = v.
Proof.
  induction o as [|[k' v'] o IH]; simpl.
  - by rewrite String.eqb_refl.
  - destruct (String.eqb k' k) eqn:E; simpl; [by rewrite String.eqb_refl|].
    by rewrite E.
Qed.

Lemma obj_get_set_ne (k k' : string) (v : Value) (o : Obj) :
  k <> k' -> obj_get k' (obj_set k v o) = obj_get k' o.
Proof.
  intros Hne. induction o as [|[k0 v0] o IH]; simpl.
  - apply String.eqb_neq in Hne. by rewrite Hne.
  - destruct (String.eqb k0 k) eqn:E; simpl.
    + apply String.eqb_eq in E. subst k0.
      apply String.eqb_neq in Hne. by rewrite Hne.
    + by rewrite IH.
Qed.

(** C6, as the code has it.  Each of the four [create] operations sends
    one request that carries the identifier drawn from [ID.unique()] and
    its payload; when the remote rejects it, the rejection is thrown to
    the caller and the cache is as before; when the remote resolves, the
    record it created is returned.  The payload of [createOpportunity] is
    the data with [publishedAt] set to the current time and [featured] set
    to [data.featured || false] ([false] when absent), every other
    property as given; [createCompany] sets [featured] the same way and
    stamps no time; [createRegulatoryUpdate] sends the data as given;
    [createArticle] changes [tags] only (and throws a type error, without
    a request, when they are neither an array nor a string). *)
Theorem create_rethrows_and_stamps (c : Collection) (d : Obj) (env : Env)
    (w : World) :
  let docId := uniqueId env (idsDrawn w) in
  let publishedAt := toISOString env (clock env (clockReads w)) in
  (forall payload : Obj,
      createPayload env w c d = Return payload ->
      log (createIn c d env w).2 =
        log w ++ [CreateDocument databaseId (collectionName c) docId payload] /\
      (forall err : Value,
          createDocument env (length (log w)) databaseId (collectionName c)
            docId payload = Rejected err ->
          (createIn c d env w).1 = Throw err /\
          cache (createIn c d env w).2 = cache w) /\
      (forall created : Value,
          createDocument env (length (log w)) databaseId (collectionName c)
            docId payload = Resolved created ->
          (createIn c d env w).1 = Return created)) /\
  (forall err : Value,
      createPayload env w c d = Throw err ->
      (createIn c d env w).1 = Throw err /\
      log (createIn c d env w).2 = log w) /\
  createPayload env w Opportunities d = Return (opportunityPayload publishedAt d) /\
  obj_get "publishedAt" (opportunityPayload publishedAt d) = VStr publishedAt /\
  obj_get "featured" (opportunityPayload publishedAt d)
    = orElse (obj_get "featured" d) (VBool false) /\
  (obj_get "featured" d = VUndefined ->
   obj_get "featured" (opportunityPayload publishedAt d) = VBool false) /\
  (forall k : string,
      k <> "publishedAt" -> k <> "featured" ->
      obj_get k (opportunityPayload publishedAt d) = obj_get k d) /\
  createPayload env w Companies d = Return (companyPayload d) /\
  obj_get "featured" (companyPayload d)
    = orElse (obj_get "featured" d) (VBool false) /\
  (forall k : string,
      k <> "featured" -> obj_get k (companyPayload d) = obj_get k d) /\
  createPayload env w Regulatory d = Return d /\
  (forall (payload : Obj) (k : string),
      createPayload env w Articles d = Return payload ->
      k <> "tags" -> obj_get k payload = obj_get k d).
Proof.
  intros docId publishedAt.
  assert (Hf : obj_get "featured" (opportunityPayload publishedAt d)
               = orElse (obj_get "featured" d) (VBool false)).
  { unfold opportunityPayload. apply obj_get_set_eq. }
  split; [|split; [|repeat split]].
  - intros payload Hp. subst docId publishedAt.
    destruct c; unfold createPayload in Hp; simplify_eq/=;
      unfold createOpportunity, createCompany, createRegulatoryUpdate,
        createArticle, newDateISO, normalizeTags, clearCacheByCollection,
        collectionName;
      mrun; repeat case_match; simplify_eq/=;
      destruct (createDocument env _ _ _ _ _) eqn:Ea;
      (split; [done|split; intros; by simplify_eq/=]).
  - intros err Hp.
    destruct c; unfold createPayload in Hp; simplify_eq/=.
    unfold createArticle, normalizeTags. mrun.
    repeat case_match; by simplify_eq/=.
  - unfold opportunityPayload.
    rewrite obj_get_set_ne by done. apply obj_get_set_eq.
  - done.
  - intros Hu. by rewrite Hf, Hu.
  - intros k Hp Hfe. unfold opportunityPayload.
    rewrite !obj_get_set_ne by done. done.
  - unfold companyPayload. apply obj_get_set_eq.
  - intros k Hfe. unfold companyPayload. by rewrite obj_get_set_ne.
  - intros payload k Hp Hk. unfold createPayload in Hp.
    repeat case_match; simplify_eq/=; by rewrite obj_get_set_ne.
Qed.

End AppwriteFacts.

(** ** Blank search terms *)
Section TrimFacts.
Import JSString.

Lemma ws2_not_ws1 (c1 c2 : ascii) : ws2 c1 c2 = true -> ws1 c1 = false.
Proof.
  unfold ws2, ws1. intros H. apply andb_true_iff in H as [H _].
  apply N.eqb_eq in H. by rewrite H.
Qed.

Lemma ws3_not_shorter (c1 c2 c3 : ascii) :
  ws3 c1 c2 c3 = true -> ws1 c1 = false /\ ws2 c1 c2 = false.
Proof.
  unfold ws3, ws2, ws1. intros H.
  assert (Hc : N_of_ascii c1 = 225%N \/ N_of_ascii c1 = 226%N \/
               N_of_ascii c1 = 227%N \/ N_of_ascii c1 = 239%N).
  { repeat (apply orb_true_iff in H as [H|H]);
      repeat (apply andb_true_iff in H as [H ?]);
      apply N.eqb_eq in H; auto. }
  destruct Hc as [-> | [-> | [-> | ->]]]; done.
Qed.

Lemma trimStart_whitespace (wsp s : string) :
  WhiteSpaceChar wsp -> trimStart (wsp +:+ s) = trimStart s.
Proof.
  unfold trimStart.
  intros [c H1 | c1 c2 H2 | c1 c2 c3 H3].
  - change (String c "" +:+ s) with (String c s). cbn [stripLeading].
    by rewrite H1.
  - change (String c1 (String c2 "") +:+ s) with (String c1 (String c2 s)).
    cbn [stripLeading]. by rewrite (ws2_not_ws1 _ _ H2), H2.
  - change (String c1 (String c2 (String c3 "")) +:+ s)
      with (String c1 (String c2 (String c3 s))).
    cbn [stripLeading].
    destruct (ws3_not_shorter _ _ _ H3) as [-> ->]. by rewrite H3.
Qed.

Lemma trim_blank (s : string) : WhiteSpaceOnly s -> trim s = "".
Proof.
  unfold trim. induction 1 as [|wsp s Hw Hs IH]; [done|].
  by rewrite trimStart_whitespace.
Qed.

End TrimFacts.

Section SearchFacts.
Import JSString Cms.

Lemma lookupCollection_known (key : string) :
  is_Some (Appwrite.lookupCollection key Appwrite.collections) ->
  key ∈ map fst Appwrite.collections /\
  Appwrite.lookupCollection key Appwrite.collections = Some key.
Proof.
  unfold Appwrite.collections. cbn [Appwrite.lookupCollection map fst].
  repeat match goal with
         | |- context [String.eqb ?a key] =>
             let E := fresh "E" in
             destruct (String.eqb a key) eqn:E;
             [apply String.eqb_eq in E; subst key; split; [set_solver|done]|clear E]
         end.
  by intros [? ?].
Qed.

Lemma lookupCollection_own (key : string) :
  key ∈ map fst Appwrite.collections ->
  Appwrite.lookupCollection key Appwrite.collections = Some key.
Proof.
  unfold Appwrite.collections. cbn [map fst]. intros Hin.
  repeat (apply elem_of_cons in Hin as [->|Hin]; [by vm_compute|]).
  by apply elem_of_nil in Hin.
Qed.

(** The collections that the code searches are those of the
    specification. *)
Lemma collectionsToSearch_searched (types : list string) :
  (if (0 <? length types)%nat
   then filter (fun t => is_Some (Appwrite.lookupCollection t Appwrite.collections)) types
   else map fst Appwrite.collections) = MergedSearch.searched types.
Proof.
  destruct types as [|t types]; [done|].
  unfold MergedSearch.searched. cbn [length Nat.ltb Nat.leb].
  apply list_filter_iff. intros x. split.
  - intros Hsome. by apply lookupCollection_known.
  - intros Hin. rewrite (lookupCollection_own x Hin). by eexists.
Qed.

Lemma subtitleOf_subtitle (doc : Obj) (env : Env) (w : World) :
  Appwrite.subtitleOf doc env w =
    (match MergedSearch.subtitle env doc with
     | Some text => Return text
     | None => Throw TypeError
     end, w).
Proof.
  unfold Appwrite.subtitleOf, MergedSearch.subtitle.
  repeat case_match; by mrun.
Qed.

Lemma tagHit_hit (key : string) (doc : Obj) (env : Env) (w : World) :
  Appwrite.tagHit key doc env w =
    (match MergedSearch.hit env key doc with
     | Some h => Return h
     | None => Throw TypeError
     end, w).
Proof.
  unfold Appwrite.tagHit, MergedSearch.hit. munfold.
  rewrite subtitleOf_subtitle. by destruct (MergedSearch.subtitle env doc).
Qed.

Lemma mapM_tagHit_hits (key : string) (docs : list Obj) (env : Env) (w : World) :
  Appwrite.mapM (Appwrite.tagHit key) docs env w =
    (match MergedSearch.hits env key docs with
     | Some hs => Return hs
     | None => Throw TypeError
     end, w).
Proof.
  induction docs as [|doc docs IH]; [done|].
  cbn [Appwrite.mapM MergedSearch.hits]. munfold.
  rewrite tagHit_hit. destruct (MergedSearch.hit env key doc); [|done].
  rewrite IH. by destruct (MergedSearch.hits env key docs).
Qed.

Lemma searchCollection_hitsOf (term : string) (results : list Value) (key : string)
    (env : Env) (w : World) :
  key ∈ map fst Appwrite.collections ->
  Appwrite.searchCollection term results key env w =
    (Return (results ++ MergedSearch.hitsOf env term (length (log w)) key),
     mkWorld (cache w) (clockReads w) (idsDrawn w)
       (log w ++ [ListDocuments Appwrite.databaseId key
                    [Query.search "title" (VStr term); Query.limit (VNum 5)]])).
Proof.
  intros Hkey. unfold Appwrite.searchCollection, MergedSearch.hitsOf.
  rewrite (lookupCollection_own key Hkey). munfold.
  cbn [default log cache clockReads idsDrawn].
  destruct (listDocuments env _ _ _ _) as [response|e]; simpl;
    [|by rewrite app_nil_r].
  rewrite mapM_tagHit_hits.
  destruct (MergedSearch.hits env key (documents response)); simpl; [done|].
  by rewrite app_nil_r.
Qed.

Lemma searchLoop_mergedHits (term : string) (keys : list string) (results : list Value)
    (env : Env) (w : World) :
  Forall (fun key => key ∈ map fst Appwrite.collections) keys ->
  (Appwrite.searchLoop term results keys env w).1 =
    Return (results ++ MergedSearch.mergedHits env term (length (log w)) keys).
Proof.
  revert results w. induction keys as [|key keys IH]; intros results w Hkeys.
  - simpl. by rewrite app_nil_r.
  - apply Forall_cons in Hkeys as [Hkey Hkeys].
    cbn [Appwrite.searchLoop MergedSearch.mergedHits]. munfold.
    rewrite (searchCollection_hitsOf term results key env w Hkey).
    rewrite (IH _ _ Hkeys). cbn [log]. rewrite length_app. cbn [length].
    by rewrite Nat.add_1_r, <- app_assoc.
Qed.

Lemma searched_own (types : list string) :
  Forall (fun key => key ∈ map fst Appwrite.collections) (MergedSearch.searched types).
Proof.
  destruct types as [|t types]; [by apply Forall_forall|].
  apply Forall_forall. intros key Hin. by apply list_elem_of_filter in Hin as [? _].
Qed.

(** C8. A search term that consists only of white space (the empty term
    included) yields the empty result in both clients, and the world
    (the request log in particular) is as before.  For any other term the
    Appwrite client returns the first ten hits of the merged result set:
    the hits of the searched collections, one collection after the other
    in the order in which they are asked, a collection that fails
    contributing nothing (for a type list without names inherited from
    [Object.prototype]); whatever the term, the result is an array of at
    most ten hits.  The Sanity client sends one query that carries the
    bound (ten when the caller gives none) and returns what the store, or
    the cache, answers. *)
Theorem search_blank_or_bounded (searchTerm : string) (types : list string)
    (lim : Value) (env : Env) (w : World) :
  (WhiteSpaceOnly searchTerm ->
   Appwrite.search searchTerm types env w = (Return (VArr []), w) /\
   Sanity.search searchTerm types lim env w = (Return (VArr []), w)) /\
  (trim searchTerm <> "" ->
   MergedSearch.ownNames types ->
   (Appwrite.search searchTerm types env w).1 =
     Return (VArr (take 10 (MergedSearch.mergedHits env searchTerm (length (log w))
                              (MergedSearch.searched types))))) /\
  (exists items : list Value,
      (Appwrite.search searchTerm types env w).1 = Return (VArr items) /\
      (length items <= 10)%nat) /\
  (trim searchTerm <> "" ->
   Sanity.search searchTerm types VUndefined env w =
     Sanity.fetchWithCache
       (Sanity.searchQuery env searchTerm types (VNum 10)) env w).
Proof.
  split; [|split; [|split]].
  - intros Hblank. unfold Appwrite.search, Sanity.search.
    by rewrite (trim_blank _ Hblank).
  - intros Hterm _. unfold Appwrite.search.
    apply String.eqb_neq in Hterm. rewrite Hterm. munfold.
    rewrite collectionsToSearch_searched.
    pose proof (searchLoop_mergedHits searchTerm (MergedSearch.searched types) [] env w
                  (searched_own types)) as Hloop.
    destruct (Appwrite.searchLoop _ _ _ env w) as [[results|e] w']; [|done].
    simpl in *. by injection Hloop as ->.
  - unfold Appwrite.search.
    destruct (String.eqb (trim searchTerm) "").
    + exists []. split; [done|simpl; lia].
    + munfold.
      destruct (Appwrite.searchLoop _ _ _ env w) as [[results|e] w'].
      * exists (take 10 results). split; [done|]. rewrite length_take. lia.
      * exists []. split; [done|simpl; lia].
  - intros Hterm. unfold Sanity.search.
    apply String.eqb_neq in Hterm. by rewrite Hterm.
Qed.

End SearchFacts.

(** ** Failure of the remote fetch on the read path *)
Section FallbackFacts.
Import JSString Cms.

Lemma sanity_fetchWithCache_returns (query : string) (env : Env) (w : World) :
  exists v : Value, (Sanity.fetchWithCache query env w).1 = Return v.
Proof.
  unfold Sanity.fetchWithCache, getProp. mrun.
  repeat case_match; simplify_eq/=; eauto.
Qed.

Lemma sanity_fetchWithCache_degrades (query : string) (env : Env) (w : World) :
  Sanity.fetchFails env w query ->
  Sanity.freshAt (clock env (clockReads w)) (cache w !! Sanity.cacheKey env query) = false ->
  (Sanity.fetchWithCache query env w).1 =
    Return match cache w !! Sanity.cacheKey env query with
           | Some entry => data entry
           | None => Sanity.getFallbackData query
           end.
Proof.
  unfold Sanity.fetchFails, Sanity.freshAt, Sanity.cacheKey,
    Sanity.fetchWithCache, getProp.
  mrun. intros Hfail Hstale.
  destruct (cache w !! _) as [entry|]; simpl; rewrite ?Hstale; simpl;
    destruct (fetch env _ _) as [response|e]; simpl; try done;
    destruct (ok response); simpl; try done;
    destruct Hfail as [|Hfail]; try done;
    destruct (json response) as [result|e]; simpl; try done;
    destruct Hfail as [-> | ->]; done.
Qed.

(** C5, as the code has it.  In both clients a [list] call returns a
    value whatever the remote does: the failure never reaches the caller.
    The Sanity client, when the fetch fails, returns the data of the
    entry cached under the same key even though it is stale, and the
    fallback records when there is no entry.  The Appwrite client returns
    its mock records whenever the fetch fails, whether or not a stale
    entry is cached. *)
Theorem list_failure_never_propagates :
  (forall (c : Collection) (filters : Obj) (env : Env) (w : World),
      exists v : Value, (Appwrite.listOf c filters env w).1 = Return v) /\
  (forall (c : Collection) (filters : Obj) (env : Env) (w : World) (err : Value),
      Appwrite.freshAt (clock env (clockReads w))
        (cache w !! Appwrite.listKey env c filters) = false ->
      listDocuments env (length (log w)) Appwrite.databaseId
        (Appwrite.collectionName c) (Appwrite.listQueries c filters) = Rejected err ->
      (Appwrite.listOf c filters env w).1 = Return (Appwrite.mockOf c)) /\
  (forall (c : Collection) (filters : Obj) (env : Env) (w : World),
      Sanity.listOf c filters env w =
        Sanity.fetchWithCache (Sanity.listQuery env c filters) env w) /\
  (forall (query : string) (env : Env) (w : World),
      exists v : Value, (Sanity.fetchWithCache query env w).1 = Return v) /\
  (forall (query : string) (env : Env) (w : World),
      Sanity.fetchFails env w query ->
      Sanity.freshAt (clock env (clockReads w))
        (cache w !! Sanity.cacheKey env query) = false ->
      (Sanity.fetchWithCache query env w).1 =
        Return match cache w !! Sanity.cacheKey env query with
               | Some entry => data entry
               | None => Sanity.getFallbackData query
               end).
Proof.
  split; [|split; [|split; [|split]]].
  - intros c filters env w. rewrite listOf_run. cbv zeta.
    repeat case_match; eauto.
  - intros c filters env w err Hstale Hrej. rewrite listOf_run. cbv zeta.
    unfold Appwrite.freshAt in Hstale. rewrite Hrej.
    destruct (cache w !! _) as [entry|]; [by rewrite Hstale|done].
  - by intros [] filters env w.
  - apply sanity_fetchWithCache_returns.
  - apply sanity_fetchWithCache_degrades.
Qed.

(** The Appwrite client does not fall back to a stale entry: with a
    stale page cached under the key of the call and the remote
    unreachable, [getOpportunities] returns the mock records, not the
    cached page. *)
Lemma appwrite_list_ignores_stale_entry :
  let stale := mkEntry (VArr [VObj [("$id", VStr "cached-1")]]) 0 in
  let w := worldWith "opportunities_{}" stale 400 in
  cache w !! Appwrite.listKey offlineEnv Opportunities [] = Some stale /\
  Appwrite.freshAt (clock offlineEnv (clockReads w)) (Some stale) = false /\
  (Appwrite.getOpportunities [] offlineEnv w).1 = Return Appwrite.getMockOpportunities /\
  (Appwrite.getOpportunities [] offlineEnv w).1 <> Return (data stale).
Proof.
  cbv zeta. split; [|split; [|split]].
  - vm_compute. reflexivity.
  - vm_compute. reflexivity.
  - vm_compute. reflexivity.
  - vm_compute. discriminate.
Qed.

End FallbackFacts.

(** ** The theorems at concrete inputs *)
Section Instances.
Import JSString Cms.

(** A first call on an empty cache against a store that answers, and a
    second one a second later. *)
Lemma list_twice_one_fetch_witness :
  let env := onlineEnv sampleDocs in
  let first := Appwrite.listOf Opportunities [] env emptyWorld in
  let second := Appwrite.listOf Opportunities [] env first.2 in
  first.1 = Return (Appwrite.documentsOf sampleDocs) /\
  second.1 = first.1 /\
  log second.2 = [Appwrite.listRequest Opportunities []].
Proof.
  cbv zeta.
  destruct (list_twice_one_fetch Opportunities [] (onlineEnv sampleDocs)
              emptyWorld sampleDocs) as (H1 & H2 & _ & H3 & _).
  - vm_compute. reflexivity.
  - vm_compute. reflexivity.
  - vm_compute. reflexivity.
  - split; [exact H1|]. split; [exact H2|exact H3].
Defined.

(** An entry created at time 0, read one millisecond before and one
    millisecond after the end of its window. *)
Lemma cache_freshness_and_retention_witness :
  let w := worldWith "opportunities_{}" (mkEntry (VArr []) 0) 0 in
  ((Appwrite.listOf Opportunities [] (envAt 299999) w).1 = Return (VArr []) /\
   log (Appwrite.listOf Opportunities [] (envAt 299999) w).2 = []) /\
  log (Appwrite.listOf Opportunities [] (envAt 300001) w).2
    = [Appwrite.listRequest Opportunities []].
Proof.
  cbv zeta.
  destruct cache_freshness_and_retention as (_ & _ & _ & H & _).
  split.
  - refine (proj1 (H Opportunities [] (envAt 299999) _ (mkEntry (VArr []) 0) _) _).
    + vm_compute. reflexivity.
    + vm_compute. reflexivity.
  - refine (proj2 (H Opportunities [] (envAt 300001) _ (mkEntry (VArr []) 0) _) _).
    + vm_compute. reflexivity.
    + vm_compute. reflexivity.
Defined.

(** The Sanity client with a stale page and no network: the page is
    returned. *)
Lemma list_failure_never_propagates_witness :
  let stale := mkEntry (VArr [VObj [("_id", VStr "cached-1")]]) 0 in
  let query := Sanity.listQuery offlineEnv Articles [] in
  let w := worldWith (Sanity.cacheKey offlineEnv query) stale 400 in
  (Sanity.fetchWithCache query offlineEnv w).1 = Return (data stale).
Proof.
  cbv zeta.
  destruct list_failure_never_propagates as (_ & _ & _ & _ & H).
  refine (eq_trans (H _ offlineEnv _ _ _) _).
  - vm_compute. exact I.
  - vm_compute. reflexivity.
  - vm_compute. reflexivity.
Defined.

(** A create while the store is unreachable. *)
Lemma create_rethrows_and_stamps_witness :
  (Appwrite.createOpportunity [("title", VStr "Tender")] offlineEnv emptyWorld).1
    = Throw (VStr "offline").
Proof.
  refine (proj1 (proj1 (proj2 (proj1
            (create_rethrows_and_stamps Opportunities [("title", VStr "Tender")]
               offlineEnv emptyWorld) _ eq_refl)) (VStr "offline") _)).
  vm_compute. reflexivity.
Defined.

(** [createRegulatoryUpdate] neither stamps nor defaults: the data is
    sent as given, so the record created from data without [featured] has
    no [featured] flag and no publication time. *)
Lemma createRegulatoryUpdate_sends_data_as_given :
  let d := [("title", VStr "Circular")] in
  let created := [("title", VStr "Circular"); ("$id", VStr "unique()")] in
  let run := Appwrite.createRegulatoryUpdate d (onlineEnv sampleDocs) emptyWorld in
  run.1 = Return (VObj created) /\
  log run.2 = [CreateDocument Appwrite.databaseId "regulatory" "unique()" d] /\
  obj_get "featured" created = VUndefined /\
  obj_get "publishedAt" created = VUndefined.
Proof.
  cbv zeta. repeat split; vm_compute; reflexivity.
Qed.

(** A create that succeeds, with the unfiltered opportunities page in
    the cache. *)
Lemma create_invalidates_collection_witness :
  let w := worldWith "opportunities_{}" (mkEntry (VArr []) 0) 0 in
  cache (Appwrite.createIn Opportunities [("title", VStr "Tender")]
           (onlineEnv sampleDocs) w).2 !! "opportunities_{}" = None.
Proof.
  cbv zeta.
  refine (proj1 (proj2 (create_invalidates_collection Opportunities
                          [("title", VStr "Tender")] (onlineEnv sampleDocs) _
                          (VObj (obj_set "$id" (VStr "unique()")
                                   (Appwrite.opportunityPayload
                                      "2024-08-22T10:00:00.000Z"
                                      [("title", VStr "Tender")]))) _) [])).
  vm_compute. reflexivity.
Defined.

(** Three spaces; and a search over all four collections of a store
    that answers each request with three documents, twelve hits of which
    the first ten are returned, the tenth being the first article. *)
Lemma search_blank_or_bounded_witness :
  let docs := mkDocumentList (VNum 3)
                [[("$id", VStr "a")]; [("$id", VStr "b")]; [("$id", VStr "c")]] in
  let found := MergedSearch.mergedHits (onlineEnv docs) "gas" 0
                 (MergedSearch.searched []) in
  WhiteSpaceOnly "   " /\
  Appwrite.search "   " [] offlineEnv emptyWorld = (Return (VArr []), emptyWorld) /\
  Sanity.search "   " [] VUndefined offlineEnv emptyWorld
    = (Return (VArr []), emptyWorld) /\
  (Appwrite.search "gas" [] (onlineEnv docs) emptyWorld).1
    = Return (VArr (take 10 found)) /\
  length found = 12%nat /\
  take 10 found !! 9%nat
    = Some (VObj [("$id", VStr "a"); ("_type", VStr "article"); ("subtitle", VUndefined)]).
Proof.
  intros docs found.
  assert (Hsp : WhiteSpaceChar " ") by (apply ws_one; reflexivity).
  assert (H : WhiteSpaceOnly "   ").
  { apply (wso_more " " "  "); [done|]. apply (wso_more " " " "); [done|].
    apply (wso_more " " ""); [done|]. apply wso_empty. }
  split; [exact H|].
  destruct (search_blank_or_bounded "   " [] VUndefined offlineEnv emptyWorld)
    as [Hblank _].
  destruct (search_blank_or_bounded "gas" [] VUndefined (onlineEnv docs) emptyWorld)
    as (_ & Hmerged & _).
  split; [exact (proj1 (Hblank H))|]. split; [exact (proj2 (Hblank H))|].
  split.
  - apply Hmerged; [by vm_compute|apply Forall_nil_2].
  - split; by vm_compute.
Defined.

(** The regulatory sub-fetch times out, the other three answer. *)
Lemma aggregate_all_or_nothing_witness :
  (Appwrite.getFeaturedContent flakyEnv emptyWorld).1
    = Return Appwrite.getMockFeaturedContent /\
  (Appwrite.getDashboardStats flakyEnv emptyWorld).1
    = Return Appwrite.mockDashboardStats.
Proof.
  destruct (aggregate_all_or_nothing flakyEnv emptyWorld) as [F D].
  split.
  - apply F. right. right. left. exists (VStr "timeout"). vm_compute. reflexivity.
  - apply D. right. right. left. exists (VStr "timeout"). vm_compute. reflexivity.
Defined.

End Instances.

(** * Further properties of the router *)
Section RouterCoverage.
Import JSString Router Cms.

#[local] Arguments startsWith : simpl never.
#[local] Arguments String.eqb : simpl never.
#[local] Arguments Ascii.eqb : simpl never.

Lemma map_get_set_eq (k : string) (v : Handler) (m : Routes) :
  map_get k (map_set k v m) = Some v.
Proof.
  induction m as [|[k' v'] m IH]; simpl.
  - by rewrite String.eqb_refl.
  - destruct (String.eqb k' k) eqn:E; simpl; [by rewrite String.eqb_refl|].
    by rewrite E.
Qed.

Lemma map_get_set_ne (k k' : string) (v : Handler) (m : Routes) :
  k <> k' -> map_get k' (map_set k v m) = map_get k' m.
Proof.
  intros Hne. apply String.eqb_neq in Hne.
  induction m as [|[k0 v0] m IH]; simpl.
  - by rewrite Hne.
  - destruct (String.eqb k0 k) eqn:E; simpl.
    + apply String.eqb_eq in E. subst k0. by rewrite Hne.
    + by rewrite IH.
Qed.

Lemma map_set_keys (k : string) (v : Handler) (m : Routes) :
  map fst (map_set k v m) =
    if bool_decide (k ∈ map fst m) then map fst m else map fst m ++ [k].
Proof.
  induction m as [|[k0 v0] m IH].
  - case_bool_decide as Hin; [|done]. by apply elem_of_nil in Hin.
  - cbn [map_set map fst]. destruct (String.eqb k0 k) eqn:E.
    + apply String.eqb_eq in E. subst k0. clear IH.
      case_bool_decide as Hin; [reflexivity|]. exfalso. apply Hin, list_elem_of_here.
    + apply String.eqb_neq in E. cbn [map fst]. rewrite IH.
      case_bool_decide as Hin; case_bool_decide as Hin'; try reflexivity.
      * exfalso. apply Hin'. by apply list_elem_of_further.
      * apply elem_of_cons in Hin' as [H|H]; congruence.
Qed.

(** X1. Registering a pattern: its handler is the one found afterwards,
    every other pattern keeps its handler, a pattern that was registered
    before keeps its place in the order, a new one goes last, and no
    pattern is ever listed twice. *)
Theorem addRoute_registers (routes : Routes) (pattern : string) (handler : Handler) :
  map_get pattern (addRoute pattern handler routes) = Some handler /\
  (forall other : string,
      other <> pattern ->
      map_get other (addRoute pattern handler routes) = map_get other routes) /\
  map fst (addRoute pattern handler routes) =
    (if bool_decide (pattern ∈ map fst routes)
     then map fst routes else map fst routes ++ [pattern]) /\
  (NoDup (map fst routes) -> NoDup (map fst (addRoute pattern handler routes))).
Proof.
  unfold addRoute. split; [apply map_get_set_eq|].
  split; [intros other Hne; by apply map_get_set_ne|].
  split; [apply map_set_keys|].
  intros Hnd. rewrite map_set_keys. case_bool_decide as Hin; [done|].
  apply NoDup_app. split; [done|]. split.
  - intros x Hx Hx'. apply list_elem_of_singleton in Hx'. by subst x.
  - apply NoDup_singleton.
Qed.

Lemma scanRoutes_keys (routes routes' : Routes) (parts : list string) :
  map fst routes = map fst routes' ->
  scanRoutes routes parts = scanRoutes routes' parts.
Proof.
  revert routes'.
  induction routes as [|[p h] routes IH]; intros [|[p' h'] routes'] Hk;
    simplify_eq/=; [done|].
  destruct (matchPattern p' parts); [done|]. by apply IH.
Qed.

Lemma scanRoutes_app (routes more : Routes) (parts : list string) :
  scanRoutes (routes ++ more) parts =
    match scanRoutes routes parts with
    | Some found => Some found
    | None => scanRoutes more parts
    end.
Proof.
  induction routes as [|[p h] routes IH]; simpl; [done|].
  by destruct (matchPattern p parts).
Qed.

Lemma map_set_fresh (k : string) (v : Handler) (m : Routes) :
  k ∉ map fst m -> map_set k v m = m ++ [(k, v)].
Proof.
  induction m as [|[k0 v0] m IH]; simpl; [done|]. intros Hk.
  apply not_elem_of_cons in Hk as [Hne Hk].
  destruct (String.eqb k0 k) eqn:E.
  - apply String.eqb_eq in E. congruence.
  - by rewrite IH.
Qed.

(** X2. Registration order decides: registering one more pattern does not
    change how a route is parsed when the pattern was already registered
    (only its handler is replaced) or when some registered pattern matches
    the route; a new pattern is consulted only after all the others. *)
Theorem addRoute_keeps_earlier_matches (routes : Routes) (pattern : string)
    (handler : Handler) (r : string) :
  pattern ∈ map fst routes \/ Exists (fun kv => Matches kv.1 r) routes ->
  parseRoute (addRoute pattern handler routes) r = parseRoute routes r.
Proof.
  intros Hcase. unfold parseRoute, addRoute.
  destruct (decide (pattern ∈ map fst routes)) as [Hin|Hnew].
  - rewrite (scanRoutes_keys (map_set pattern handler routes) routes); [done|].
    rewrite map_set_keys. by rewrite bool_decide_eq_true_2.
  - destruct Hcase as [Hin|Hex]; [done|].
    rewrite (map_set_fresh _ _ _ Hnew), scanRoutes_app.
    destruct (scanRoutes routes (split "/" r)) as [found|] eqn:E; [done|].
    apply scanRoutes_None in E. exfalso.
    apply Exists_exists in Hex as (kv & Hkv & Hm).
    rewrite Forall_forall in E. by apply (E kv).
Qed.

(** The page of a section, registered again under another handler, and a
    pattern registered behind one that already matches. *)
Lemma addRoute_keeps_earlier_matches_witness :
  parseRoute (addRoute "opportunities" renderSearch setupRoutes) "opportunities"
    = parseRoute setupRoutes "opportunities" /\
  parseRoute (addRoute ":section/:id" renderSearch setupRoutes) "directory/7"
    = parseRoute setupRoutes "directory/7".
Proof.
  split.
  - apply addRoute_keeps_earlier_matches. left. vm_compute.
    apply list_elem_of_In. simpl. tauto.
  - apply addRoute_keeps_earlier_matches. right.
    apply Exists_exists. exists ("directory/:id", renderCompanyDetail). split.
    + apply list_elem_of_In. vm_compute. tauto.
    + apply matchPattern_Matches. vm_compute. eauto.
Defined.

Lemma split_join (sep : ascii) (s : string) :
  join (String sep EmptyString) (split sep s) = s.
Proof.
  induction s as [|c s IH]; [done|]. cbn [split].
  destruct (Ascii.eqb c sep) eqn:E.
  - apply Ascii.eqb_eq in E. subst c.
    destruct (split sep s) as [|h t] eqn:Es; [by destruct (split_nonempty sep s)|].
    cbn [join]. by rewrite <- IH.
  - destruct (split sep s) as [|h t] eqn:Es; [by destruct (split_nonempty sep s)|].
    rewrite <- IH. by destruct t.
Qed.

Lemma matchSegments_literal (pathParts parts : list string) (acc tp : gmap string string) :
  Forall (fun segment => startsWith segment ":" = false) pathParts ->
  matchSegments pathParts parts acc = Some tp -> tp = acc.
Proof.
  revert parts. induction pathParts as [|pp pathParts IH]; intros parts Hlit Hm.
  - simpl in Hm. congruence.
  - destruct parts as [|p parts]; [done|]. cbn [matchSegments] in Hm.
    apply Forall_cons in Hlit as [Hpp Hlit]. rewrite Hpp in Hm.
    destruct (String.eqb pp p); [by eapply IH|done].
Qed.

(** X3. A pattern without parameter segments matches exactly one route,
    the pattern text itself, and binds nothing: the matcher accepts no
    other spelling (a trailing slash, another case, a query), and a table
    that holds only this pattern parses every other route to the empty
    path. *)
Theorem literal_pattern_matches_itself (pattern r : string) (handler : Handler) :
  Pages.literalPattern pattern ->
  matchPattern pattern (split "/" r) = (if String.eqb pattern r then Some ∅ else None) /\
  parseRoute (addRoute pattern handler []) r =
    (if String.eqb pattern r then mkParsed pattern ∅ r else mkParsed "" ∅ r).
Proof.
  intros Hlit.
  assert (Hmatch : matchPattern pattern (split "/" r)
                   = if String.eqb pattern r then Some ∅ else None).
  { destruct (String.eqb pattern r) eqn:E.
    - apply String.eqb_eq in E. subst r. unfold matchPattern.
      rewrite Nat.eqb_refl.
      assert (Hsome : is_Some (matchSegments (split "/" pattern) (split "/" pattern) ∅)).
      { apply matchSegments_agree; [done|]. intros i a b Ha Hb _. congruence. }
      destruct Hsome as [tp Htp]. rewrite Htp.
      by rewrite (matchSegments_literal _ _ _ _ Hlit Htp).
    - apply String.eqb_neq in E. apply matchPattern_None. intros [Hlen Hall].
      apply E.
      assert (Heq : split "/" pattern = split "/" r).
      { apply list_eq_same_length with (length (split "/" r)); [done..|].
        intros i a b _ Ha Hb. apply (Hall i a b Ha Hb).
        unfold Pages.literalPattern in Hlit. rewrite Forall_forall in Hlit.
        apply Hlit. by eapply list_elem_of_lookup_2. }
      rewrite <- (split_join "/" r), <- Heq. symmetry. apply split_join. }
  split; [done|].
  unfold parseRoute, addRoute. cbn [map_set scanRoutes]. rewrite Hmatch.
  by destruct (String.eqb pattern r).
Qed.

(** The list of opportunities answers to its own name only. *)
Lemma literal_pattern_matches_itself_witness :
  matchPattern "opportunities" (split "/" "opportunities") = Some ∅ /\
  matchPattern "opportunities" (split "/" "opportunities/") = None /\
  matchPattern "opportunities" (split "/" "Opportunities") = None.
Proof.
  assert (Hlit : Pages.literalPattern "opportunities").
  { unfold Pages.literalPattern. vm_compute. repeat constructor. }
  split; [|split].
  - exact (proj1 (literal_pattern_matches_itself "opportunities" "opportunities"
                    renderOpportunities Hlit)).
  - exact (proj1 (literal_pattern_matches_itself "opportunities" "opportunities/"
                    renderOpportunities Hlit)).
  - exact (proj1 (literal_pattern_matches_itself "opportunities" "Opportunities"
                    renderOpportunities Hlit)).
Defined.

Lemma split_free (sep : ascii) (s : string) :
  Pages.freeOf sep s -> split sep s = [s].
Proof.
  unfold Pages.freeOf. induction s as [|c s IH]; [done|]. intros Hfree. cbn [split].
  destruct (Ascii.eqb c sep) eqn:E.
  - apply Ascii.eqb_eq in E. subst c. exfalso. apply Hfree. by left.
  - rewrite IH; [done|]. intros Hin. apply Hfree. by right.
Qed.

Lemma split_not_free (sep : ascii) (s : string) :
  ~ Pages.freeOf sep s -> exists a b t, split sep s = a :: b :: t.
Proof.
  unfold Pages.freeOf. induction s as [|c s IH]; intros Hin.
  - exfalso. apply Hin. by intros [].
  - cbn [split]. destruct (Ascii.eqb c sep) eqn:E.
    + destruct (split sep s) as [|h t] eqn:Es; [by destruct (split_nonempty sep s)|].
      by exists "", h, t.
    + destruct IH as (a & b & t & ->); [|by exists (String c a), b, t].
      intros Hfree. apply Hin. intros [Hc|Hs]; [|done].
      subst c. by rewrite Ascii.eqb_refl in E.
Qed.

Lemma split_cons (sep : ascii) (a b : string) :
  Pages.freeOf sep a ->
  split sep (a +:+ String sep b) = a :: split sep b.
Proof.
  intros Hfree.
  destruct (split sep b) as [|h t] eqn:Es; [by destruct (split_nonempty sep b)|].
  rewrite (split_app_snoc sep a (String sep b) a "" [] (h :: t)).
  - simpl. f_equal. clear. induction a as [|c s IH]; [done|].
    change (String c s +:+ "") with (String c (s +:+ "")). by rewrite IH.
  - by apply split_free.
  - cbn [split]. rewrite Ascii.eqb_refl. by rewrite Es.
Qed.

Lemma split_section (section rest : string) :
  Pages.freeOf "/" section ->
  split "/" (section +:+ "/" +:+ rest) = section :: split "/" rest.
Proof. apply split_cons. Qed.

Lemma section_free (section : string) :
  section ∈ ["opportunities"; "directory"; "regulatory"; "insights"] ->
  Pages.freeOf "/" section.
Proof.
  intros Hin. unfold Pages.freeOf.
  repeat (apply elem_of_cons in Hin as [->|Hin]);
    [| | | |by apply elem_of_nil in Hin];
    simpl; intros H; repeat (destruct H as [H|H]; [discriminate H|]); done.
Qed.

(** X4. The link of a card leads to the detail page of its record: in
    each of the four sections the route [section/id] is parsed to the
    detail pattern of the section with [id] bound to the text after the
    slash (the empty text included) and dispatched to the detail renderer
    of that section, as long as the id has no slash; an id with a slash
    matches no pattern at all. *)
Theorem detail_link_round_trip (section id : string) (handler : Handler)
    (completes : Handler -> gmap string string -> string -> bool) :
  (section, handler) ∈ [("opportunities", renderOpportunityDetail);
                        ("directory", renderCompanyDetail);
                        ("regulatory", renderRegulatoryDetail);
                        ("insights", renderInsightDetail)] ->
  let route := section +:+ "/" +:+ id in
  (Pages.freeOf "/" id ->
     parseRoute setupRoutes route
       = mkParsed (section +:+ "/:id") {["id" := id]} route /\
     map_get (section +:+ "/:id") setupRoutes = Some handler /\
     handleRoute setupRoutes completes ("#" +:+ route) =
       (if completes handler {["id" := id]} route
        then Page handler {["id" := id]} else ErrorView)) /\
  (~ Pages.freeOf "/" id -> parseRoute setupRoutes route = mkParsed "" ∅ route).
Proof.
  intros Hin route.
  assert (Hsec : Pages.freeOf "/" section).
  { apply section_free.
    repeat (apply elem_of_cons in Hin as [[= -> ->]|Hin]; [set_solver|]).
    by apply elem_of_nil in Hin. }
  assert (Hroute : getCurrentRoute ("#" +:+ route) = route) by done.
  split.
  - intros Hfree.
    assert (Hparse : parseRoute setupRoutes route
                     = mkParsed (section +:+ "/:id") {["id" := id]} route).
    { unfold parseRoute, route. rewrite (split_section section id Hsec).
      rewrite (split_free "/" id Hfree).
      repeat (apply elem_of_cons in Hin as [[= -> ->]|Hin]; [by vm_compute|]).
      by apply elem_of_nil in Hin. }
    assert (Hget : map_get (section +:+ "/:id") setupRoutes = Some handler).
    { repeat (apply elem_of_cons in Hin as [[= -> ->]|Hin]; [by vm_compute|]).
      by apply elem_of_nil in Hin. }
    split; [done|]. split; [done|].
    unfold handleRoute. rewrite Hroute, Hparse. cbn [path params]. by rewrite Hget.
  - intros Hslash. unfold parseRoute, route.
    rewrite (split_section section id Hsec).
    destruct (split_not_free "/" id Hslash) as (a & b & t & ->).
    by vm_compute.
Qed.

(** The card of the opportunity [42]. *)
Lemma detail_link_round_trip_witness :
  parseRoute setupRoutes "opportunities/42"
    = mkParsed "opportunities/:id" {["id" := "42"]} "opportunities/42" /\
  handleRoute setupRoutes (fun _ _ _ => true) "#opportunities/42"
    = Page renderOpportunityDetail {["id" := "42"]}.
Proof.
  assert (Hin : ("opportunities", renderOpportunityDetail) ∈
                  [("opportunities", renderOpportunityDetail);
                   ("directory", renderCompanyDetail);
                   ("regulatory", renderRegulatoryDetail);
                   ("insights", renderInsightDetail)])
    by apply list_elem_of_here.
  assert (Hfree : Pages.freeOf "/" "42").
  { unfold Pages.freeOf. simpl. intros H.
    repeat (destruct H as [H|H]; [discriminate H|]). done. }
  destruct (proj1 (detail_link_round_trip "opportunities" "42" renderOpportunityDetail
                     (fun _ _ _ => true) Hin) Hfree) as (Hparse & _ & Hview).
  split; [exact Hparse|exact Hview].
Defined.

Lemma first_segment_mismatch (pattern r a b : string) :
  head (split "/" pattern) = Some a ->
  startsWith a ":" = false ->
  head (split "/" r) = Some b ->
  a <> b ->
  ~ Matches pattern r.
Proof.
  intros Ha Hlit Hb Hne [_ Hall]. apply Hne.
  apply (Hall 0%nat a b); [| |done].
  - by destruct (split "/" pattern).
  - by destruct (split "/" r).
Qed.

Lemma split_section_query (section query : string) :
  Pages.freeOf "/" section ->
  exists h t, split "/" query = h :: t /\
    split "/" (section +:+ "?" +:+ query) = (section +:+ "?" +:+ h) :: t.
Proof.
  intros Hfree. destruct (split_query query) as (h & t & Hq & Hq').
  exists h, t. split; [done|].
  by rewrite (split_app_snoc "/" section ("?" +:+ query) section ("?" +:+ h) [] t)
    by (done || by apply split_free).
Qed.

Lemma top_level_free (section : string) :
  section ∈ [""; "home"; "opportunities"; "directory"; "regulatory"; "insights"; "search"] ->
  Pages.freeOf "/" section /\ Pages.freeOf "?" section.
Proof.
  intros Hin. unfold Pages.freeOf.
  repeat (apply elem_of_cons in Hin as [->|Hin]);
    [| | | | | | |by apply elem_of_nil in Hin];
    simpl; split; intros H; repeat (destruct H as [H|H]; [discriminate H|]); done.
Qed.

Lemma section_query_unmatched (section query : string) :
  section ∈ [""; "home"; "opportunities"; "directory"; "regulatory"; "insights"; "search"] ->
  Forall (fun kv => ~ Matches kv.1 (section +:+ "?" +:+ query)) setupRoutes.
Proof.
  intros Hin. destruct (top_level_free section Hin) as [Hfree _].
  destruct (split_section_query section query Hfree) as (h & t & _ & Hsplit).
  assert (Hhead : head (split "/" (section +:+ "?" +:+ query))
                  = Some (section +:+ "?" +:+ h)) by (by rewrite Hsplit).
  clear Hsplit Hfree.
  repeat (apply elem_of_cons in Hin as [->|Hin]);
    [| | | | | | |by apply elem_of_nil in Hin];
    ((let r := eval vm_compute in setupRoutes in change setupRoutes with r);
     repeat (apply Forall_cons; split;
             [eapply first_segment_mismatch;
              [by vm_compute|by vm_compute|exact Hhead|
               cbv [String.append]; discriminate]|]);
     apply Forall_nil_2).
Qed.

(** X5. A route made of a top-level page and a query ([section?query])
    matches no pattern.  The router then does not show the page of the
    section, and not the 404 page either: it runs the home renderer with
    no parameters, and the title set afterwards is the one of the
    section. *)
Theorem section_query_shows_home (section query : string)
    (completes : Handler -> gmap string string -> string -> bool) :
  section ∈ [""; "home"; "opportunities"; "directory"; "regulatory"; "insights"; "search"] ->
  let route := section +:+ "?" +:+ query in
  parseRoute setupRoutes route = mkParsed "" ∅ route /\
  handleRoute setupRoutes completes ("#" +:+ route) =
    (if completes renderHome ∅ route then Page renderHome ∅ else ErrorView) /\
  Pages.updatePageTitle route = Pages.updatePageTitle section.
Proof.
  intros Hin route.
  assert (Hparse : parseRoute setupRoutes route = mkParsed "" ∅ route).
  { unfold parseRoute, route.
    by rewrite (scanRoutes_unmatched _ _ (section_query_unmatched section query Hin)). }
  split; [done|]. split.
  - unfold handleRoute.
    change (getCurrentRoute ("#" +:+ route)) with route. by rewrite Hparse.
  - destruct (top_level_free section Hin) as [Hfree Hfree'].
    destruct (split_section_query section query Hfree) as (h & t & _ & Hsplit).
    unfold Pages.updatePageTitle, route. rewrite Hsplit. cbn [hd].
    rewrite (split_free "/" section Hfree). cbn [hd].
    destruct (split "?" h) as [|h' t'] eqn:Eh; [by destruct (split_nonempty "?" h)|].
    rewrite (split_app_snoc "?" section ("?" +:+ h) section "" [] (h' :: t')).
    + simpl. rewrite (split_free "?" section Hfree'). simpl.
      clear. assert (H : section +:+ "" = section); [|by rewrite H].
      induction section as [|c s IH]; [done|].
      change (String c s +:+ "") with (String c (s +:+ "")). by rewrite IH.
    + by apply split_free.
    + change ("?" +:+ h) with (String "?" h). cbn [split].
      change (Ascii.eqb "?" "?") with true. cbv iota. by rewrite Eh.
Qed.

(** The second page of the opportunities. *)
Lemma section_query_shows_home_witness :
  parseRoute setupRoutes "opportunities?page=2" = mkParsed "" ∅ "opportunities?page=2".
Proof.
  refine (proj1 (section_query_shows_home "opportunities" "page=2" (fun _ _ _ => true) _)).
  apply list_elem_of_further, list_elem_of_further, list_elem_of_here.
Defined.

(** X6. The search box never reaches the search page: every route that
    [performSearch] navigates to carries the query, matches no pattern
    and is answered with the home page. *)
Theorem search_box_shows_home (query type encoded route : string)
    (completes : Handler -> gmap string string -> string -> bool) :
  Pages.performSearch query type encoded = Some route ->
  trim query <> "" /\
  parseRoute setupRoutes route = mkParsed "" ∅ route /\
  handleRoute setupRoutes completes ("#" +:+ route) =
    (if completes renderHome ∅ route then Page renderHome ∅ else ErrorView).
Proof.
  unfold Pages.performSearch. intros Hsearch.
  destruct (String.eqb (trim query) "") eqn:E; [done|].
  apply String.eqb_neq in E. split; [done|].
  injection Hsearch as <-.
  set (rest := "q=" +:+ encoded +:+ (if String.eqb type "" then "" else "&type=" +:+ type)).
  change ("search?q=" +:+ encoded +:+ _) with ("search" +:+ "?" +:+ rest).
  assert (Hin : "search" ∈ [""; "home"; "opportunities"; "directory"; "regulatory";
                             "insights"; "search"]).
  { do 6 apply list_elem_of_further. apply list_elem_of_here. }
  assert (Hparse : parseRoute setupRoutes ("search" +:+ "?" +:+ rest)
                   = mkParsed "" ∅ ("search" +:+ "?" +:+ rest)).
  { unfold parseRoute.
    by rewrite (scanRoutes_unmatched _ _ (section_query_unmatched "search" rest Hin)). }
  split; [done|]. unfold handleRoute.
  change (getCurrentRoute ("#" +:+ ("search" +:+ "?" +:+ rest)))
    with ("search" +:+ "?" +:+ rest).
  by rewrite Hparse.
Qed.

(** A search for [oil]. *)
Lemma search_box_shows_home_witness :
  parseRoute setupRoutes "search?q=oil" = mkParsed "" ∅ "search?q=oil".
Proof.
  refine (proj1 (proj2 (search_box_shows_home "oil" "" "oil" "search?q=oil"
                          (fun _ _ _ => true) _))).
  by vm_compute.
Defined.


Lemma parseRoute_literal (routes : Routes) (r : string) :
  Pages.literalPattern (path (parseRoute routes r)) -> params (parseRoute routes r) = ∅.
Proof.
  unfold parseRoute.
  destruct (scanRoutes routes (split "/" r)) as [[p tp]|] eqn:E; [|done].
  cbn [path params]. intros Hlit.
  apply scanRoutes_Some in E as (before & h & after & _ & _ & Hm).
  unfold matchPattern in Hm.
  destruct (Nat.eqb (length (split "/" p)) (length (split "/" r))); [|done].
  apply matchSegments_literal in Hm; [|done]. subst tp.
  unfold objectAssign. apply map_union_empty.
Qed.

Lemma parseRoute_registered (routes : Routes) (r : string) (handler : Handler) :
  map_get (path (parseRoute routes r)) routes = Some handler ->
  path (parseRoute routes r) = "" \/
  (path (parseRoute routes r), handler) ∈
    map (fun p => (p, default handler (map_get p routes))) (map fst routes).
Proof.
  intros Hget. unfold parseRoute in *.
  destruct (scanRoutes routes (split "/" r)) as [[p tp]|] eqn:E; [|by left].
  right. cbn [path] in *.
  apply scanRoutes_Some in E as (before & h & after & -> & _ & _).
  apply list_elem_of_In, in_map_iff. exists p. split; [by rewrite Hget|].
  rewrite map_app. apply in_or_app. right. by left.
Qed.

(** X7. The list pages always ask for their first page without a filter:
    whenever the router dispatches to one of the four list renderers, it
    does so with no parameters, so the renderer's request carries limit
    12, offset 0 and no filter query, whatever the address was. *)
Theorem list_pages_request_first_page
    (completes : Handler -> gmap string string -> string -> bool) (hash : string)
    (handler : Handler) (ps : gmap string string) (toNumber : string -> option Z)
    (collection : Collection) (filters : Cms.Obj) :
  handleRoute setupRoutes completes hash = Page handler ps ->
  Pages.listCallOf handler toNumber ps = Some (collection, filters) ->
  ps = ∅ /\
  Cms.obj_get "limit" filters = Cms.VNum 12 /\
  Cms.obj_get "offset" filters = Cms.VNum 0 /\
  Appwrite.listQueries collection filters =
    Appwrite.listQueries collection [("limit", Cms.VNum 12)] /\
  length (Appwrite.listQueries collection filters) = 3%nat.
Proof.
  unfold handleRoute. intros Hview Hcall.
  destruct (map_get _ setupRoutes) as [h|] eqn:Hget; [|done].
  destruct (completes h _ _); [|done]. injection Hview as -> <-.
  assert (Hps : params (parseRoute setupRoutes (getCurrentRoute hash)) = ∅).
  { apply parseRoute_literal.
    destruct (parseRoute_registered _ _ _ Hget) as [->|Hin].
    - unfold Pages.literalPattern. vm_compute. repeat constructor.
    - revert Hin. generalize (path (parseRoute setupRoutes (getCurrentRoute hash))).
      intros p Hin. clear Hget.
      destruct handler; try discriminate Hcall; clear Hcall;
        vm_compute in Hin;
        repeat (apply elem_of_cons in Hin as [Hin|Hin];
                [first [discriminate Hin
                       |injection Hin as ->; unfold Pages.literalPattern; vm_compute;
                        repeat constructor]|]);
        by apply elem_of_nil in Hin. }
  rewrite Hps in *. split; [done|].
  destruct handler; try discriminate Hcall; vm_compute in Hcall;
    injection Hcall as <- <-; by vm_compute.
Qed.

(** The list of opportunities, asked for by its own address. *)
Lemma list_pages_request_first_page_witness :
  Appwrite.listQueries Opportunities
    [("type", Cms.VStr ""); ("sector", Cms.VStr ""); ("limit", Cms.VNum 12);
     ("offset", Cms.VNum 0)]
  = Appwrite.listQueries Opportunities [("limit", Cms.VNum 12)].
Proof.
  refine (proj1 (proj2 (proj2 (proj2
    (list_pages_request_first_page (fun _ _ _ => true) "#opportunities"
       renderOpportunities ∅ (fun _ => None) Opportunities _ _ _))))).
  - by vm_compute.
  - by vm_compute.
Defined.

Lemma append_empty_r (s : string) : s +:+ "" = s.
Proof.
  induction s as [|c s IH]; [done|].
  change (String c s +:+ "") with (String c (s +:+ "")). by rewrite IH.
Qed.

(** X8. The title and the highlighted navigation item after a page view:
    the title depends only on the text before the first slash or question
    mark of the route, and the navigation item is looked up by the text
    before the first slash.  So a detail route gets the title and the
    navigation item of its section, while a route with a query gets the
    title of the section but is looked up under its whole first segment,
    query included. *)
Theorem title_and_navigation_by_section (section rest : string) :
  Pages.freeOf "/" section ->
  Pages.freeOf "?" section ->
  Pages.updatePageTitle (section +:+ "/" +:+ rest) = Pages.updatePageTitle section /\
  Pages.mainRoute (section +:+ "/" +:+ rest) = section /\
  Pages.updatePageTitle (section +:+ "?" +:+ rest) = Pages.updatePageTitle section /\
  Pages.mainRoute (section +:+ "?" +:+ rest) <> section.
Proof.
  intros Hslash Hquery. unfold Pages.updatePageTitle, Pages.mainRoute.
  rewrite (split_section section rest Hslash). cbn [hd].
  rewrite (split_free "/" section Hslash). cbn [hd].
  split; [done|]. split; [done|].
  destruct (split_section_query section rest Hslash) as (h & t & _ & ->). cbn [hd].
  split.
  - destruct (split "?" h) as [|h' t'] eqn:Eh; [by destruct (split_nonempty "?" h)|].
    rewrite (split_app_snoc "?" section ("?" +:+ h) section "" [] (h' :: t')).
    + simpl. by rewrite (split_free "?" section Hquery), append_empty_r.
    + by apply split_free.
    + change ("?" +:+ h) with (String "?" h). cbn [split].
      change (Ascii.eqb "?" "?") with true. cbv iota. by rewrite Eh.
  - intros Heq. symmetry in Heq. by apply append_longer in Heq.
Qed.

(** The section of the opportunities. *)
Lemma title_and_navigation_by_section_witness :
  Pages.updatePageTitle "opportunities/42" = "Opportunities Hub - The Pipeline" /\
  Pages.updatePageTitle "opportunities?page=2" = "Opportunities Hub - The Pipeline".
Proof.
  assert (Hslash : Pages.freeOf "/" "opportunities").
  { unfold Pages.freeOf. simpl. intros H.
    repeat (destruct H as [H|H]; [discriminate H|]). done. }
  assert (Hquery : Pages.freeOf "?" "opportunities").
  { unfold Pages.freeOf. simpl. intros H.
    repeat (destruct H as [H|H]; [discriminate H|]). done. }
  split.
  - exact (proj1 (title_and_navigation_by_section "opportunities" "42" Hslash Hquery)).
  - exact (proj1 (proj2 (proj2
      (title_and_navigation_by_section "opportunities" "page=2" Hslash Hquery)))).
Defined.


(** X9. The pagination links and the filters of a list page lead to the
    home page: from a route of a top-level section, [goToPage] and a
    filter with a value navigate to that section followed by a query,
    which the router answers with the home renderer; only a filter set
    back to its empty value navigates to the section itself. *)
Theorem page_and_filter_links_show_home
    (section current query filterKey filterValue encoded : string)
    (completes : Handler -> gmap string string -> string -> bool) :
  section ∈ [""; "home"; "opportunities"; "directory"; "regulatory"; "insights"; "search"] ->
  basePath current = section ->
  let home (route : string) :=
    if completes renderHome ∅ route then Page renderHome ∅ else ErrorView in
  let paged := goToPage current query in
  let filtered := handleFilterChange current filterKey filterValue encoded in
  paged = section +:+ "?" +:+ query /\
  handleRoute setupRoutes completes ("#" +:+ paged) = home paged /\
  (filterValue <> "" ->
   filtered = section +:+ "?" +:+ filterKey +:+ "=" +:+ encoded /\
   handleRoute setupRoutes completes ("#" +:+ filtered) = home filtered) /\
  (filterValue = "" -> filtered = section).
Proof.
  intros Hin Hbase home paged filtered. subst home paged filtered.
  unfold goToPage, handleFilterChange. rewrite Hbase.
  assert (Hhome : forall rest : string,
            handleRoute setupRoutes completes ("#" +:+ (section +:+ "?" +:+ rest)) =
              (if completes renderHome ∅ (section +:+ "?" +:+ rest)
               then Page renderHome ∅ else ErrorView)).
  { intros rest. unfold handleRoute, parseRoute.
    change (getCurrentRoute ("#" +:+ (section +:+ "?" +:+ rest)))
      with (section +:+ "?" +:+ rest).
    by rewrite (scanRoutes_unmatched _ _ (section_query_unmatched section rest Hin)). }
  split; [done|]. split; [apply Hhome|]. split.
  - intros Hvalue. apply String.eqb_neq in Hvalue. rewrite Hvalue.
    split; [done|]. apply Hhome.
  - intros ->. done.
Qed.

(** The second page and the sector filter of the directory. *)
Lemma page_and_filter_links_show_home_witness :
  goToPage "directory" "page=2" = "directory?page=2" /\
  handleRoute setupRoutes (fun _ _ _ => true) "#directory?page=2" = Page renderHome ∅.
Proof.
  assert (Hin : "directory" ∈ [""; "home"; "opportunities"; "directory"; "regulatory";
                                "insights"; "search"]).
  { do 3 apply list_elem_of_further. apply list_elem_of_here. }
  destruct (page_and_filter_links_show_home "directory" "directory" "page=2" "sector"
              "Upstream" "Upstream" (fun _ _ _ => true) Hin eq_refl)
    as (Hpaged & Hhome & _).
  split; [exact Hpaged|exact Hhome].
Defined.

End RouterCoverage.

(** * Pagination, preloading and relative dates *)
Section PagesCoverage.
Import JSString Router Cms.

Lemma ceilDiv_bounds (a b : Z) :
  0 < b -> (Pages.ceilDiv a b - 1) * b < a <= Pages.ceilDiv a b * b.
Proof.
  intros Hb. unfold Pages.ceilDiv.
  pose proof (Z.div_mod (- a) b ltac:(lia)) as Hdm.
  pose proof (Z.mod_pos_bound (- a) b Hb) as Hm. nia.
Qed.

(** X10. Pagination links.  With a positive page size no links are shown
    when the items fit on one page.  Otherwise the numbered links are the
    pages within two of the current one that exist, with only the current
    page marked active; the previous link is
    there exactly when the current page is above 1, the next link exactly
    when it is below the last page; and there are at most seven links. *)
Theorem pagination_links_in_range (currentPage itemCount itemsPerPage : Z) :
  0 < itemsPerPage ->
  let totalPages := Pages.ceilDiv itemCount itemsPerPage in
  (totalPages - 1) * itemsPerPage < itemCount <= totalPages * itemsPerPage /\
  (itemCount <= itemsPerPage <->
   Pages.getPaginationHTML currentPage itemCount itemsPerPage = None) /\
  (forall links : list Pages.PageLink,
      Pages.getPaginationHTML currentPage itemCount itemsPerPage = Some links ->
      (length links <= 7)%nat /\
      (forall (page : Z) (active : bool),
          Pages.NumberLink page active ∈ links <->
          (1 <= page <= totalPages /\ currentPage - 2 <= page <= currentPage + 2 /\
           active = (page =? currentPage))) /\
      (forall target : Z,
          Pages.PreviousLink target ∈ links <->
          (target = currentPage - 1 /\ 1 < currentPage)) /\
      (forall target : Z,
          Pages.NextLink target ∈ links <->
          (target = currentPage + 1 /\ currentPage < totalPages))).
Proof.
  intros Hpos totalPages.
  pose proof (ceilDiv_bounds itemCount itemsPerPage Hpos) as Hceil.
  fold totalPages in Hceil. split; [done|].
  unfold Pages.getPaginationHTML. fold totalPages.
  destruct (totalPages <=? 1) eqn:Hone.
  - apply Z.leb_le in Hone. split; [split; [done|intros _; nia]|done].
  - apply Z.leb_gt in Hone. split; [split; [intros; nia|done]|].
    intros links [= <-].
    set (first := Z.max 1 (currentPage - 2)).
    set (last := Z.min totalPages (currentPage + 2)).
    split; [|split; [|split]].
    + rewrite !length_app, length_map, length_seqZ.
      destruct (1 <? currentPage), (currentPage <? totalPages); simpl; lia.
    + intros page active.
      rewrite !elem_of_app, !list_elem_of_In, in_map_iff.
      split.
      * intros [Hin|[(i & [= <- <-] & Hin)|Hin]].
        -- destruct (1 <? currentPage); [|done]. destruct Hin as [Hin|[]]. discriminate Hin.
        -- apply list_elem_of_In, elem_of_seqZ in Hin. lia.
        -- destruct (currentPage <? totalPages); [|done].
           destruct Hin as [Hin|[]]. discriminate Hin.
      * intros (Hrange & Hnear & ->). right. left. exists page. split; [done|].
        apply list_elem_of_In, elem_of_seqZ. lia.
    + intros target.
      rewrite !elem_of_app, !list_elem_of_In, in_map_iff.
      split.
      * intros [Hin|[(i & Hi & _)|Hin]]; [|discriminate Hi|].
        -- destruct (1 <? currentPage) eqn:E; [|done]. apply Z.ltb_lt in E.
           destruct Hin as [[= <-]|[]]. done.
        -- destruct (currentPage <? totalPages); [|done].
           destruct Hin as [Hin|[]]. discriminate Hin.
      * intros [-> Hlt]. left. apply Z.ltb_lt in Hlt. rewrite Hlt. by left.
    + intros target.
      rewrite !elem_of_app, !list_elem_of_In, in_map_iff.
      split.
      * intros [Hin|[(i & Hi & _)|Hin]]; [|discriminate Hi|].
        -- destruct (1 <? currentPage); [|done].
           destruct Hin as [Hin|[]]. discriminate Hin.
        -- destruct (currentPage <? totalPages) eqn:E; [|done]. apply Z.ltb_lt in E.
           destruct Hin as [[= <-]|[]]. done.
      * intros [-> Hlt]. right. right. apply Z.ltb_lt in Hlt. rewrite Hlt. by left.
Qed.

(** Page 3 of 50 items, twelve to a page. *)
Lemma pagination_links_in_range_witness :
  Pages.getPaginationHTML 3 12 12 = None /\
  Pages.getPaginationHTML 3 50 12
    = Some [Pages.PreviousLink 2; Pages.NumberLink 1 false; Pages.NumberLink 2 false;
            Pages.NumberLink 3 true; Pages.NumberLink 4 false; Pages.NumberLink 5 false;
            Pages.NextLink 4].
Proof.
  split.
  - apply (proj1 (proj2 (pagination_links_in_range 3 12 12 ltac:(lia)))). lia.
  - by vm_compute.
Defined.


Lemma listOf_outcome (c : Collection) (filters : Obj) (env : Env) (w : World) :
  (exists v : Value, (Appwrite.listOf c filters env w).1 = Return v) /\
  (log (Appwrite.listOf c filters env w).2 = log w \/
   log (Appwrite.listOf c filters env w).2 = log w ++ [Appwrite.listRequest c filters]).
Proof.
  pose proof (listOf_run c filters env w) as Hrun. cbv zeta in Hrun.
  rewrite Hrun. clear Hrun.
  destruct (cache w !! Appwrite.listKey env c filters) as [entry|];
    [destruct (_ <? _)|];
    try destruct (listDocuments env _ _ _ _); simpl; eauto.
Qed.

(** X11. Preloading is harmless: for any route table and any route it
    returns normally, removes nothing from the cache and issues at most
    one request, a list request of five records; a route whose matched
    pattern does not start with one of the four sections changes
    nothing at all. *)
Theorem preload_is_harmless (routes : Routes) (route : string) (env : Env) (w : World) :
  let run := Pages.preloadRoute routes route env w in
  let section := Pages.mainRoute (path (parseRoute routes route)) in
  run.1 = Return tt /\
  (forall key : string, is_Some (cache w !! key) -> is_Some (cache run.2 !! key)) /\
  (section ∉ ["opportunities"; "directory"; "regulatory"; "insights"] -> run.2 = w) /\
  (log run.2 = log w \/
   exists c : Collection,
     log run.2 = log w ++ [Appwrite.listRequest c [("limit", VNum 5)]]).
Proof.
  intros run section. subst run. unfold Pages.preloadRoute.
  fold (Pages.mainRoute (path (parseRoute routes route))). fold section.
  assert (Hlist : forall c : Collection,
    let run := tryCatch (Appwrite.listOf c [("limit", VNum 5)];; mret tt)
                 (fun _ => mret tt) env w in
    run.1 = Return tt /\
    (forall key : string, is_Some (cache w !! key) -> is_Some (cache run.2 !! key)) /\
    (log run.2 = log w \/
     exists c : Collection,
       log run.2 = log w ++ [Appwrite.listRequest c [("limit", VNum 5)]])).
  { intros c.
    destruct (listOf_outcome c [("limit", VNum 5)] env w) as [[v Hv] Hlog].
    pose proof (Keeps_runRead (Appwrite.OpList c [("limit", VNum 5)]) env w) as Hkeep.
    cbn [Appwrite.runRead] in Hkeep. cbv zeta. munfold.
    destruct (Appwrite.listOf c [("limit", VNum 5)] env w) as [[v'|e] w'] eqn:Hrun;
      simpl in *; [|done].
    split; [done|]. split; [done|]. destruct Hlog as [Hlog|Hlog]; eauto. }
  destruct (String.eqb section "opportunities") eqn:E1.
  { destruct (Hlist Opportunities) as (H1 & H2 & H3). split; [done|]. split; [done|].
    split; [|done]. apply String.eqb_eq in E1. rewrite E1.
    intros Hnot. exfalso. apply Hnot. set_solver. }
  destruct (String.eqb section "directory") eqn:E2.
  { destruct (Hlist Companies) as (H1 & H2 & H3). split; [done|]. split; [done|].
    split; [|done]. apply String.eqb_eq in E2. rewrite E2.
    intros Hnot. exfalso. apply Hnot. set_solver. }
  destruct (String.eqb section "regulatory") eqn:E3.
  { destruct (Hlist Regulatory) as (H1 & H2 & H3). split; [done|]. split; [done|].
    split; [|done]. apply String.eqb_eq in E3. rewrite E3.
    intros Hnot. exfalso. apply Hnot. set_solver. }
  destruct (String.eqb section "insights") eqn:E4.
  { destruct (Hlist Articles) as (H1 & H2 & H3). split; [done|]. split; [done|].
    split; [|done]. apply String.eqb_eq in E4. rewrite E4.
    intros Hnot. exfalso. apply Hnot. set_solver. }
  munfold. simpl. eauto.
Qed.

(** X12. Relative dates, as a function of the milliseconds between now
    and the date.  A date within the current 24 hours reads [Today], one
    in the 24 hours before [Yesterday].  Weeks are shown from 1 to 4,
    months from 1 to 12, years from 1 on, always in the plural.  A date in
    the future is shown as a negative number of days, however far away it
    is. *)
Theorem getTimeAgo_ranges (show : Z -> string) (diffTime : Z) :
  let days := diffTime / Dates.msPerDay in
  let text := Dates.getTimeAgo show (Some diffTime) in
  (0 <= diffTime < Dates.msPerDay <-> days = 0) /\
  (days = 0 -> text = "Today") /\
  (days = 1 -> text = "Yesterday") /\
  (diffTime < 0 -> days < 0 /\ text = show days +:+ " days ago") /\
  (2 <= days < 7 -> text = show days +:+ " days ago") /\
  (7 <= days < 30 ->
   exists weeks : Z, 1 <= weeks <= 4 /\ text = show weeks +:+ " weeks ago") /\
  (30 <= days < 365 ->
   exists months : Z, 1 <= months <= 12 /\ text = show months +:+ " months ago") /\
  (365 <= days ->
   exists years : Z, 1 <= years /\ years * 365 <= days /\
     text = show years +:+ " years ago").
Proof.
  intros days text. subst text. unfold Dates.getTimeAgo. fold days.
  assert (Hms : Dates.msPerDay = 86400000) by done.
  assert (Hdays : days * 86400000 <= diffTime < days * 86400000 + 86400000).
  { subst days. rewrite Hms.
    pose proof (Z.div_mod diffTime 86400000 ltac:(lia)).
    pose proof (Z.mod_pos_bound diffTime 86400000 ltac:(lia)). lia. }
  split; [rewrite Hms; lia|].
  split; [by intros ->|]. split; [by intros ->|].
  split.
  { intros Hneg. assert (days < 0) by lia. split; [done|].
    destruct (days =? 0) eqn:E0; [lia|]. destruct (days =? 1) eqn:E1; [lia|].
    destruct (days <? 7) eqn:E7; [done|lia]. }
  split.
  { intros Hrange.
    destruct (days =? 0) eqn:E0; [lia|]. destruct (days =? 1) eqn:E1; [lia|].
    destruct (days <? 7) eqn:E7; [done|lia]. }
  split.
  { intros Hrange. exists (days / 7).
    destruct (days =? 0) eqn:E0; [lia|]. destruct (days =? 1) eqn:E1; [lia|].
    destruct (days <? 7) eqn:E7; [lia|]. destruct (days <? 30) eqn:E30; [|lia].
    split; [|done].
    pose proof (Z.div_mod days 7 ltac:(lia)). pose proof (Z.mod_pos_bound days 7 ltac:(lia)).
    lia. }
  split.
  { intros Hrange. exists (days / 30).
    destruct (days =? 0) eqn:E0; [lia|]. destruct (days =? 1) eqn:E1; [lia|].
    destruct (days <? 7) eqn:E7; [lia|]. destruct (days <? 30) eqn:E30; [lia|].
    destruct (days <? 365) eqn:E365; [|lia].
    split; [|done].
    pose proof (Z.div_mod days 30 ltac:(lia)). pose proof (Z.mod_pos_bound days 30 ltac:(lia)).
    lia. }
  intros Hrange. exists (days / 365).
  destruct (days =? 0) eqn:E0; [lia|]. destruct (days =? 1) eqn:E1; [lia|].
  destruct (days <? 7) eqn:E7; [lia|]. destruct (days <? 30) eqn:E30; [lia|].
  destruct (days <? 365) eqn:E365; [lia|].
  pose proof (Z.div_mod days 365 ltac:(lia)). pose proof (Z.mod_pos_bound days 365 ltac:(lia)).
  split; [lia|]. split; [lia|done].
Qed.

End PagesCoverage.

(** * Further properties of the Appwrite client *)
Section AppwriteCoverage.
Import JSString Cms.

(** X13. A record of the opportunities by id, when no fresh entry is
    cached.  The call never throws.  It asks for the record and, when the
    record names a company, for that company; if either request is
    rejected the answer is [null] and nothing is cached, so a failing
    company lookup discards the opportunity that was found.  Otherwise the
    record (with its company attached) is returned and cached. *)
Theorem opportunity_by_id_all_or_nothing (id : Value) (env : Env) (w : World) :
  let key := "opportunity" +:+ "_" +:+ JSON_stringify env (VObj [("id", id)]) in
  let run := Appwrite.getOpportunityById id env w in
  let first := GetDocument Appwrite.databaseId "opportunities" id in
  Appwrite.freshAt (clock env (clockReads w)) (cache w !! key) = false ->
  (exists v : Value, run.1 = Return v) /\
  (forall e : Value,
      getDocument env (length (log w)) Appwrite.databaseId "opportunities" id = Rejected e ->
      run.1 = Return VNull /\ cache run.2 = cache w /\ log run.2 = log w ++ [first]) /\
  (forall fields : Obj,
      getDocument env (length (log w)) Appwrite.databaseId "opportunities" id
        = Resolved (VObj fields) ->
      let companyId := obj_get "companyId" fields in
      let second := GetDocument Appwrite.databaseId "companies" companyId in
      (truthy companyId = false ->
       run.1 = Return (VObj fields) /\ log run.2 = log w ++ [first] /\
       data <$> cache run.2 !! key = Some (VObj fields)) /\
      (truthy companyId = true ->
       (forall e : Value,
           getDocument env (S (length (log w))) Appwrite.databaseId "companies" companyId
             = Rejected e ->
           run.1 = Return VNull /\ cache run.2 = cache w /\
           log run.2 = log w ++ [first; second]) /\
       (forall company : Value,
           getDocument env (S (length (log w))) Appwrite.databaseId "companies" companyId
             = Resolved company ->
           run.1 = Return (VObj (obj_set "company" company fields)) /\
           log run.2 = log w ++ [first; second] /\
           data <$> cache run.2 !! key
             = Some (VObj (obj_set "company" company fields))))).
Proof.
  intros key run first Hstale. subst run first.
  unfold Appwrite.getOpportunityById, Appwrite.getCacheKey, Appwrite.isValidCache,
    Appwrite.setCache, Appwrite.setProp, getProp, Appwrite.freshAt in *.
  mrun. fold key.
  assert (Hnext : forall (l : list Request) (r : Request),
             length (l ++ [r]) = S (length l)).
  { intros l r. rewrite length_app. simpl. lia. }
  destruct (cache w !! key) as [entry|] eqn:Hcached; mrun;
    [rewrite Hstale; simpl|].
  all: split;
    [repeat (case_match; simplify_eq/=; mrun); eauto|].
  all: split; [intros e He; rewrite He; by simpl|].
  all: intros fields Hf; rewrite Hf; simpl; split; intros Hc; rewrite Hc; simpl.
  all: try (split; [done|]; split; [done|]; by rewrite lookup_insert_eq).
  all: split; [intros e He|intros company He]; rewrite Hnext, He; simpl.
  all: rewrite <- app_assoc; simpl; try done.
  all: split; [done|]; split; [done|]; by rewrite lookup_insert_eq.
Qed.


(** The opportunity is found, the company it names is not. *)
Lemma opportunity_by_id_all_or_nothing_witness :
  let found := VObj [("$id", VStr "42"); ("companyId", VStr "c1")] in
  let env :=
    mkEnv sampleClock (fun _ => "unique()")
      (fun _ _ _ _ => Rejected (VStr "offline"))
      (fun _ _ collectionId _ =>
         if String.eqb collectionId "companies"
         then Rejected (VStr "timeout") else Resolved found)
      (fun _ _ _ _ _ => Rejected (VStr "offline"))
      (fun _ _ => Rejected (VStr "offline"))
      (fun _ => "{}") (fun _ => "") (fun a _ => a)
      (fun _ => "2024-08-22T10:00:00.000Z") (fun s => s) (fun s _ _ => s) in
  (Appwrite.getOpportunityById (VStr "42") env emptyWorld).1 = Return VNull /\
  cache (Appwrite.getOpportunityById (VStr "42") env emptyWorld).2 = ∅.
Proof.
  intros found env.
  pose proof (opportunity_by_id_all_or_nothing (VStr "42") env emptyWorld eq_refl)
    as (_ & _ & Hfound).
  destruct (Hfound [("$id", VStr "42"); ("companyId", VStr "c1")] eq_refl)
    as [_ Hcompany].
  destruct (Hcompany eq_refl) as [Hrejected _].
  destruct (Hrejected (VStr "timeout") eq_refl) as (Hnull & Hcache & _).
  split; [exact Hnull|exact Hcache].
Defined.

Lemma byId_returns (op : Appwrite.ReadOp) (env : Env) (w : World) :
  match op with
  | Appwrite.OpOpportunityById _ | Appwrite.OpCompanyById _
  | Appwrite.OpRegulatoryUpdateById _ | Appwrite.OpArticleById _ =>
      exists v : Value, (Appwrite.runRead op env w).1 = Return v
  | _ => True
  end.
Proof.
  destruct op; try done; cbn [Appwrite.runRead];
    unfold Appwrite.getOpportunityById, Appwrite.getCompanyById,
      Appwrite.getRegulatoryUpdateById, Appwrite.getArticleById,
      Appwrite.getCacheKey, Appwrite.isValidCache, Appwrite.setCache,
      Appwrite.setProp, getProp;
    mrun; repeat (case_match; simplify_eq/=; mrun); eauto.
Qed.

(** X14. The record lookup of a detail page never throws: the renderer
    either shows the not-found page, when the lookup answers a falsy
    value, or goes on to build the page from a truthy record.  When the
    store rejects the request and nothing is cached, it is the not-found
    page, after one request for the id taken from the route. *)
Theorem detail_page_found_or_not_found (handler : Router.Handler)
    (ps : gmap string string) (run : M Pages.DetailView) (env : Env) (w : World) :
  Pages.detailCallOf handler ps = Some run ->
  (exists view : Pages.DetailView,
      (run env w).1 = Return view /\
      (view = Pages.DetailNotFound \/
       exists record : Value, truthy record = true /\ view = Pages.DetailPage record)) /\
  (cache w = ∅ ->
   (forall (collectionId : string) (id : Value),
       Appwrite.rejected (getDocument env (length (log w)) Appwrite.databaseId collectionId id)) ->
   (run env w).1 = Return Pages.DetailNotFound /\
   cache (run env w).2 = ∅ /\
   exists collectionId : string,
     log (run env w).2
       = log w ++ [GetDocument Appwrite.databaseId collectionId (Pages.idParam ps)]).
Proof.
  intros Hcall. split.
  - assert (Hview : forall record : Value,
               Pages.detailOf record = Pages.DetailNotFound \/
               exists r : Value, truthy r = true /\ Pages.detailOf record = Pages.DetailPage r).
    { intros record. unfold Pages.detailOf.
      destruct (truthy record) eqn:E; [right; by exists record|by left]. }
    destruct handler; try discriminate Hcall; injection Hcall as <-.
    + destruct (byId_returns (Appwrite.OpOpportunityById (Pages.idParam ps)) env w)
        as [v Hv].
      cbn [Appwrite.runRead] in Hv. unfold Pages.renderOpportunityDetail. munfold.
      destruct (Appwrite.getOpportunityById _ env w) as [[v'|e] w'];
        simplify_eq/=. eauto.
    + destruct (byId_returns (Appwrite.OpCompanyById (Pages.idParam ps)) env w)
        as [v Hv].
      cbn [Appwrite.runRead] in Hv. unfold Pages.renderCompanyDetail. munfold.
      destruct (Appwrite.getCompanyById _ env w) as [[v'|e] w'];
        simplify_eq/=. eauto.
    + destruct (byId_returns (Appwrite.OpRegulatoryUpdateById (Pages.idParam ps)) env w)
        as [v Hv].
      cbn [Appwrite.runRead] in Hv. unfold Pages.renderRegulatoryDetail. munfold.
      destruct (Appwrite.getRegulatoryUpdateById _ env w) as [[v'|e] w'];
        simplify_eq/=. eauto.
    + destruct (byId_returns (Appwrite.OpArticleById (Pages.idParam ps)) env w)
        as [v Hv].
      cbn [Appwrite.runRead] in Hv. unfold Pages.renderInsightDetail. munfold.
      destruct (Appwrite.getArticleById _ env w) as [[v'|e] w'];
        simplify_eq/=. eauto.
  - intros Hempty Hoff.
    destruct handler; try discriminate Hcall; injection Hcall as <-.
    + destruct (Hoff "opportunities" (Pages.idParam ps)) as [e He].
      unfold Pages.renderOpportunityDetail, Appwrite.getOpportunityById,
        Appwrite.getCacheKey, Appwrite.isValidCache. mrun.
      rewrite Hempty, lookup_empty. mrun. rewrite He. simpl. eauto.
    + destruct (Hoff "companies" (Pages.idParam ps)) as [e He].
      unfold Pages.renderCompanyDetail, Appwrite.getCompanyById,
        Appwrite.getCacheKey, Appwrite.isValidCache. mrun.
      rewrite Hempty, lookup_empty. mrun. rewrite He. simpl. eauto.
    + destruct (Hoff "regulatory" (Pages.idParam ps)) as [e He].
      unfold Pages.renderRegulatoryDetail, Appwrite.getRegulatoryUpdateById. mrun.
      rewrite He. simpl. eauto.
    + destruct (Hoff "articles" (Pages.idParam ps)) as [e He].
      unfold Pages.renderInsightDetail, Appwrite.getArticleById. mrun.
      rewrite He. simpl. eauto.
Qed.

(** The page of opportunity [42] while the store is unreachable. *)
Lemma detail_page_found_or_not_found_witness :
  (Pages.renderOpportunityDetail {["id" := "42"]} offlineEnv emptyWorld).1
    = Return Pages.DetailNotFound.
Proof.
  refine (proj1 (proj2 (detail_page_found_or_not_found Router.renderOpportunityDetail
            {["id" := "42"]} _ offlineEnv emptyWorld eq_refl) eq_refl _)).
  intros collectionId id. by exists (VStr "offline").
Defined.

(** X15. A company by id is fetched once: after a successful fetch the
    record is returned again without a request for as long as its entry
    is fresh.  A rejected fetch answers [null], caches nothing, and the
    next call asks again. *)
Theorem company_by_id_fetched_once (id : Value) (env : Env) (w : World) :
  let key := "company" +:+ "_" +:+ JSON_stringify env (VObj [("id", id)]) in
  let request := GetDocument Appwrite.databaseId "companies" id in
  let first := Appwrite.getCompanyById id env w in
  let second := Appwrite.getCompanyById id env first.2 in
  Appwrite.freshAt (clock env (clockReads w)) (cache w !! key) = false ->
  log first.2 = log w ++ [request] /\
  (forall company : Value,
      getDocument env (length (log w)) Appwrite.databaseId "companies" id
        = Resolved company ->
      first.1 = Return company /\
      data <$> cache first.2 !! key = Some company /\
      (Appwrite.freshAt (clock env (clockReads first.2)) (cache first.2 !! key) = true ->
       second.1 = Return company /\ log second.2 = log w ++ [request])) /\
  (forall e : Value,
      getDocument env (length (log w)) Appwrite.databaseId "companies" id = Rejected e ->
      first.1 = Return VNull /\ cache first.2 = cache w /\
      (Appwrite.freshAt (clock env (clockReads first.2)) (cache w !! key) = false ->
       log second.2 = log w ++ [request; request])).
Proof.
  intros key request first second Hstale. subst first second request.
  unfold Appwrite.getCompanyById, Appwrite.getCacheKey, Appwrite.isValidCache,
    Appwrite.setCache, Appwrite.freshAt in *.
  mrun. fold key.
  destruct (cache w !! key) as [entry|] eqn:Hcached; mrun;
    [rewrite Hstale; simpl|].
  all: destruct (getDocument env (length (log w)) Appwrite.databaseId "companies" id)
         as [company|e] eqn:Hdoc; simpl.
  all: split; [done|].
  all: split; [intros ? [= <-]|intros ? [= <-]].
  all: try (rewrite lookup_insert_eq; simpl; split; [done|]; split; [done|];
            intros Hfresh; by rewrite Hfresh).
  all: split; [done|]; split; [done|].
  all: rewrite ?Hcached; simpl; intros Hstale'; rewrite ?Hstale'; simpl; clear Hdoc.
  all: destruct (getDocument env _ Appwrite.databaseId "companies" id); simpl.
  all: by rewrite <- app_assoc.
Qed.

(** A store that knows the company. *)
Lemma company_by_id_fetched_once_witness :
  let env := onlineEnv sampleDocs in
  let first := Appwrite.getCompanyById (VStr "c1") env emptyWorld in
  let second := Appwrite.getCompanyById (VStr "c1") env first.2 in
  second.1 = Return (VObj []) /\
  log second.2 = [GetDocument Appwrite.databaseId "companies" (VStr "c1")].
Proof.
  intros env first second.
  pose proof (company_by_id_fetched_once (VStr "c1") env emptyWorld eq_refl)
    as (_ & Hfound & _).
  destruct (Hfound (VObj []) eq_refl) as (_ & _ & Hsecond).
  exact (Hsecond eq_refl).
Defined.

(** X16. Regulatory updates and articles by id are never cached: every
    call issues its request, whatever the cache holds, and leaves the
    cache and the clock untouched; a rejected request answers [null]. *)
Theorem uncached_records_always_ask (id : Value) (env : Env) (w : World) :
  (let request := GetDocument Appwrite.databaseId "regulatory" id in
   let first := Appwrite.getRegulatoryUpdateById id env w in
   let second := Appwrite.getRegulatoryUpdateById id env first.2 in
   log second.2 = log w ++ [request; request] /\
   cache second.2 = cache w /\ clockReads second.2 = clockReads w /\
   first.1 = match getDocument env (length (log w)) Appwrite.databaseId "regulatory" id with
             | Resolved record => Return record
             | Rejected _ => Return VNull
             end) /\
  (let request := GetDocument Appwrite.databaseId "articles" id in
   let first := Appwrite.getArticleById id env w in
   let second := Appwrite.getArticleById id env first.2 in
   log second.2 = log w ++ [request; request] /\
   cache second.2 = cache w /\ clockReads second.2 = clockReads w /\
   first.1 = match getDocument env (length (log w)) Appwrite.databaseId "articles" id with
             | Resolved record => Return record
             | Rejected _ => Return VNull
             end).
Proof.
  unfold Appwrite.getRegulatoryUpdateById, Appwrite.getArticleById. mrun.
  split.
  - destruct (getDocument env (length (log w)) _ "regulatory" id); simpl;
      destruct (getDocument env _ _ "regulatory" id); simpl;
      by rewrite <- app_assoc.
  - destruct (getDocument env (length (log w)) _ "articles" id); simpl;
      destruct (getDocument env _ _ "articles" id); simpl;
      by rewrite <- app_assoc.
Qed.









Lemma tagHit_tagged (key : string) (doc : Obj) (env : Env) (w : World) (hit : Value) :
  key ∈ map fst Appwrite.collections ->
  (Appwrite.tagHit key doc env w).1 = Return hit -> Pages.taggedHit hit.
Proof.
  intros Hkey. unfold Appwrite.tagHit. munfold.
  destruct (Appwrite.subtitleOf doc env w) as [[subtitle|e] w']; [|done].
  simpl. intros [= <-]. eexists _, key. split; [done|]. split; [done|].
  assert (Htype : obj_get "_type"
            (obj_set "subtitle" subtitle (obj_set "_type" (VStr (dropLast key)) doc))
          = VStr (dropLast key)).
  { rewrite obj_get_set_ne by done. apply obj_get_set_eq. }
  split; [done|]. unfold Pages.routePathOf. rewrite Htype.
  revert Hkey. unfold Appwrite.collections. cbn [map fst]. intros Hkey.
  repeat (apply elem_of_cons in Hkey as [->|Hkey]; [by vm_compute|]).
  by apply elem_of_nil in Hkey.
Qed.

Lemma mapM_tagged (key : string) (docs : list Obj) (env : Env) (w : World)
    (hits : list Value) :
  key ∈ map fst Appwrite.collections ->
  (Appwrite.mapM (Appwrite.tagHit key) docs env w).1 = Return hits ->
  Forall Pages.taggedHit hits.
Proof.
  intros Hkey. revert w hits. induction docs as [|doc docs IH]; intros w hits.
  - simpl. by intros [= <-].
  - cbn [Appwrite.mapM]. munfold.
    pose proof (tagHit_tagged key doc env w) as Hdoc.
    destruct (Appwrite.tagHit key doc env w) as [[hit|e] w1]; [|done].
    pose proof (IH w1) as Hrest.
    destruct (Appwrite.mapM (Appwrite.tagHit key) docs env w1) as [[rest|e] w2];
      [|done].
    simpl. intros [= <-]. apply Forall_cons. split; [by apply Hdoc|by apply Hrest].
Qed.

Lemma searchCollection_tagged (term : string) (results : list Value) (key : string)
    (env : Env) (w : World) (found : list Value) :
  key ∈ map fst Appwrite.collections ->
  Forall Pages.taggedHit results ->
  (Appwrite.searchCollection term results key env w).1 = Return found ->
  Forall Pages.taggedHit found.
Proof.
  intros Hkey Hresults. unfold Appwrite.searchCollection. munfold.
  destruct (listDocuments env _ _ _ _) as [response|e]; simpl; [|by intros [= <-]].
  match goal with
  | |- context [Appwrite.mapM ?f ?docs env ?w'] =>
      pose proof (mapM_tagged key docs env w') as Hmap;
      destruct (Appwrite.mapM f docs env w') as [[hits|e] w2]
  end; simpl; intros [= <-]; [|done].
  apply Forall_app. split; [done|by apply Hmap].
Qed.

Lemma searchLoop_tagged (term : string) (keys : list string) (results : list Value)
    (env : Env) (w : World) (found : list Value) :
  Forall (fun key => key ∈ map fst Appwrite.collections) keys ->
  Forall Pages.taggedHit results ->
  (Appwrite.searchLoop term results keys env w).1 = Return found ->
  Forall Pages.taggedHit found.
Proof.
  revert results w. induction keys as [|key keys IH]; intros results w Hkeys Hresults.
  - simpl. by intros [= <-].
  - apply Forall_cons in Hkeys as [Hkey Hkeys]. cbn [Appwrite.searchLoop]. munfold.
    pose proof (searchCollection_tagged term results key env w) as Hone.
    destruct (Appwrite.searchCollection term results key env w) as [[rs|e] w1]; [|done].
    apply IH; [done|]. by apply Hone.
Qed.

(** X18. The hits of a search carry a type tag that the search page does
    not know: the tag is the key of the collection without its last
    letter, and the table from which the page takes the section of the
    link has an entry for it only when the hit is an article.  For a hit
    of any other collection the section of the link is undefined.  The
    type list holds no name inherited from [Object.prototype]. *)
Theorem search_hits_link_only_articles (term : string) (types : list string)
    (env : Env) (w : World) (items : list Value) :
  MergedSearch.ownNames types ->
  (Appwrite.search term types env w).1 = Return (VArr items) ->
  forall hit : Value,
    hit ∈ items ->
    exists (fields : Obj) (key : string),
      hit = VObj fields /\ key ∈ map fst Appwrite.collections /\
      obj_get "_type" fields = VStr (dropLast key) /\
      Pages.routePathOf hit = if String.eqb key "articles" then Some "insights" else None.
Proof.
  unfold Appwrite.search. intros _ Hrun.
  assert (Hall : Forall Pages.taggedHit items); [|by apply Forall_forall].
  destruct (String.eqb (trim term) ""); [by injection Hrun as <-|].
  revert Hrun. munfold.
  match goal with
  | |- context [Appwrite.searchLoop term [] ?keys env w] =>
      pose proof (searchLoop_tagged term keys [] env w) as Hloop;
      destruct (Appwrite.searchLoop term [] keys env w) as [[rs|e] w1]
  end; simpl; intros [= <-]; [|done].
  apply Forall_take. apply Hloop; [|done..].
  destruct (0 <? length types)%nat.
  - apply Forall_forall. intros key Hin.
    apply list_elem_of_filter in Hin as [Hs _]. by apply lookupCollection_known.
  - by apply Forall_forall.
Qed.

(** A company found by the search. *)
Lemma search_hits_link_only_articles_witness :
  let hit := VObj [("$id", VStr "doc-1"); ("title", VStr "Tender");
                   ("_type", VStr "companie"); ("subtitle", VUndefined)] in
  (Appwrite.search "tender" ["companies"] (onlineEnv sampleDocs) emptyWorld).1
    = Return (VArr [hit]) /\
  Pages.routePathOf hit = None /\
  exists (fields : Obj) (key : string),
    hit = VObj fields /\ key ∈ map fst Appwrite.collections /\
    obj_get "_type" fields = VStr (dropLast key) /\
    Pages.routePathOf hit = if String.eqb key "articles" then Some "insights" else None.
Proof.
  intros hit.
  assert (Hrun : (Appwrite.search "tender" ["companies"] (onlineEnv sampleDocs)
                    emptyWorld).1 = Return (VArr [hit])) by by vm_compute.
  split; [exact Hrun|]. split; [by vm_compute|].
  assert (Hown : MergedSearch.ownNames ["companies"])
    by (apply (bool_decide_unpack _); by vm_compute).
  exact (search_hits_link_only_articles "tender" ["companies"] (onlineEnv sampleDocs)
           emptyWorld [hit] Hown Hrun hit (list_elem_of_here _ _)).
Defined.


Lemma split_pieces_free (sep : ascii) (s : string) :
  Forall (Pages.freeOf sep) (split sep s).
Proof.
  unfold Pages.freeOf. induction s as [|c s IH]; cbn [split].
  - apply Forall_cons. split; [by intros []|done].
  - destruct (Ascii.eqb c sep) eqn:E.
    + apply Forall_cons. split; [by intros []|done].
    + destruct (split sep s) as [|h t] eqn:Es; [by destruct (split_nonempty sep s)|].
      apply Forall_cons in IH as [Hh Ht]. apply Forall_cons. split; [|done].
      intros [Hc|Hin]; [|done]. subst c. by rewrite Ascii.eqb_refl in E.
Qed.

(** X19. The tags of a new article are always sent as a list.  A list is
    sent as it is.  A text is cut at its commas, so that the pieces
    joined by commas give the text back, and each piece is sent trimmed.
    Tags of any other kind, missing tags included, make the call throw
    before anything is sent, and the cache stays as it was. *)
Theorem article_tags_sent_as_list (d : Obj) (env : Env) (w : World) :
  let docId := uniqueId env (idsDrawn w) in
  let run := Appwrite.createArticle d env w in
  let sent (tags : list Value) :=
    CreateDocument Appwrite.databaseId "articles" docId (obj_set "tags" (VArr tags) d) in
  (forall items : list Value,
      obj_get "tags" d = VArr items -> log run.2 = log w ++ [sent items]) /\
  (forall text : string,
      obj_get "tags" d = VStr text ->
      exists pieces : list string,
        join "," pieces = text /\ Forall (Pages.freeOf ",") pieces /\
        log run.2 = log w ++ [sent (map (fun piece => VStr (trim piece)) pieces)]) /\
  ((forall items : list Value, obj_get "tags" d <> VArr items) ->
   (forall text : string, obj_get "tags" d <> VStr text) ->
   run.1 = Throw TypeError /\ log run.2 = log w /\ cache run.2 = cache w).
Proof.
  intros docId run sent. subst run sent docId.
  unfold Appwrite.createArticle, Appwrite.normalizeTags. mrun.
  split; [|split].
  - intros items ->. simpl.
    by destruct (createDocument env _ _ _ _ _).
  - intros text ->. simpl. exists (split "," text).
    split; [apply split_join|]. split; [apply split_pieces_free|].
    by destruct (createDocument env _ _ _ _ _).
  - intros Harr Hstr.
    destruct (obj_get "tags" d) as [| | | | text | items |]; simpl; try done.
    + by destruct (Hstr text).
    + by destruct (Harr items).
Qed.

End AppwriteCoverage.

(** * The Sanity client and the data service *)
Section SanityCoverage.
Import JSString Cms.

Lemma includes_app_r (a b needle : string) :
  includes b needle = true -> includes (a +:+ b) needle = true.
Proof.
  intros Hb. induction a as [|c a IH]; [done|].
  change (includes (String c a +:+ b) needle)
    with (startsWith (String c (a +:+ b)) needle || includes (a +:+ b) needle).
  rewrite IH. apply orb_true_r.
Qed.

Lemma sanity_fetch_fallback (query : string) (env : Env) (w : World) :
  Sanity.fetchFails env w query ->
  cache w !! Sanity.cacheKey env query = None ->
  (Sanity.fetchWithCache query env w).1 = Return (Sanity.getFallbackData query).
Proof.
  intros Hfail Hnone.
  rewrite (sanity_fetchWithCache_degrades query env w Hfail) by by rewrite Hnone.
  by rewrite Hnone.
Qed.

(** X20. When the store cannot be reached and nothing is cached, the
    Sanity client answers every read with a list chosen by the words of
    the query text, also where the caller expects one record or an object
    of counts: the opportunity by id, the dashboard statistics and the
    featured content all come back as the two fallback opportunities, and
    every single-record read comes back as a list. *)
Theorem sanity_failure_answers_with_list (env : Env) (w : World) :
  (forall query : string, exists items : list Value,
      Sanity.getFallbackData query = VArr items) /\
  (forall id : Value,
      Sanity.fetchFails env w (SanityRecords.opportunityByIdQuery env id) ->
      cache w !! Sanity.cacheKey env (SanityRecords.opportunityByIdQuery env id) = None ->
      (SanityRecords.getOpportunityById id env w).1 = Return Sanity.fallbackOpportunities) /\
  (Sanity.fetchFails env w SanityRecords.dashboardStatsQuery ->
   cache w !! Sanity.cacheKey env SanityRecords.dashboardStatsQuery = None ->
   (SanityRecords.getDashboardStats env w).1 = Return Sanity.fallbackOpportunities) /\
  (Sanity.fetchFails env w SanityRecords.featuredContentQuery ->
   cache w !! Sanity.cacheKey env SanityRecords.featuredContentQuery = None ->
   (SanityRecords.getFeaturedContent env w).1 = Return Sanity.fallbackOpportunities) /\
  (forall (c : Collection) (id : Value),
      Sanity.fetchFails env w (SanityRecords.recordQuery env c id) ->
      cache w !! Sanity.cacheKey env (SanityRecords.recordQuery env c id) = None ->
      exists items : list Value,
        (SanityRecords.recordOf c id env w).1 = Return (VArr items)).
Proof.
  assert (Hlist : forall query : string, exists items : list Value,
             Sanity.getFallbackData query = VArr items).
  { intros query. unfold Sanity.getFallbackData.
    repeat case_match; eexists; reflexivity. }
  split; [done|]. split; [|split; [|split]].
  - intros id Hfail Hnone. unfold SanityRecords.getOpportunityById. munfold.
    rewrite (sanity_fetch_fallback _ env w Hfail Hnone).
    unfold Sanity.getFallbackData.
    assert (H : includes (SanityRecords.opportunityByIdQuery env id) "opportunity" = true).
    { unfold SanityRecords.opportunityByIdQuery.
      apply includes_app_r, includes_app_r, includes_prefix. }
    by rewrite H.
  - intros Hfail Hnone. unfold SanityRecords.getDashboardStats.
    rewrite (sanity_fetch_fallback _ env w Hfail Hnone).
    unfold Sanity.getFallbackData.
    assert (H : includes SanityRecords.dashboardStatsQuery "opportunity" = true)
      by by vm_compute.
    by rewrite H.
  - intros Hfail Hnone. unfold SanityRecords.getFeaturedContent.
    rewrite (sanity_fetch_fallback _ env w Hfail Hnone).
    unfold Sanity.getFallbackData.
    assert (H : includes SanityRecords.featuredContentQuery "opportunity" = true)
      by by vm_compute.
    by rewrite H.
  - intros c id Hfail Hnone.
    destruct (Hlist (SanityRecords.recordQuery env c id)) as [items Hitems].
    exists items. rewrite <- Hitems.
    destruct c; cbn [SanityRecords.recordOf SanityRecords.recordQuery] in *;
      unfold SanityRecords.getOpportunityById, SanityRecords.getCompanyById,
        SanityRecords.getRegulatoryUpdateById, SanityRecords.getArticleById;
      munfold; by rewrite (sanity_fetch_fallback _ env w Hfail Hnone).
Qed.

(** X21. A query of the Sanity client is fetched once: an answer that is
    read successfully is cached under the query text, whatever it is, and
    the same query is answered from the cache without a request for as
    long as the entry is fresh. *)
Theorem sanity_query_fetched_once (query : string) (env : Env) (w : World)
    (response : HttpResponse) (body : Obj) :
  let key := Sanity.cacheKey env query in
  let url := Sanity.baseUrl +:+ "?query=" +:+ encodeURIComponent env query in
  let first := Sanity.fetchWithCache query env w in
  let second := Sanity.fetchWithCache query env first.2 in
  Sanity.freshAt (clock env (clockReads w)) (cache w !! key) = false ->
  fetch env (length (log w)) url = Resolved response ->
  ok response = true ->
  json response = Resolved (VObj body) ->
  first.1 = Return (obj_get "result" body) /\
  log first.2 = log w ++ [Fetch url] /\
  data <$> cache first.2 !! key = Some (obj_get "result" body) /\
  (Sanity.freshAt (clock env (clockReads first.2)) (cache first.2 !! key) = true ->
   second.1 = first.1 /\ log second.2 = log first.2).
Proof.
  intros key url first second Hstale Hfetch Hok Hjson. subst first second.
  unfold Sanity.fetchWithCache, Sanity.freshAt, Sanity.cacheKey, getProp in *.
  mrun. fold key url.
  destruct (cache w !! key) as [entry|] eqn:Hcached; mrun;
    [rewrite Hstale; simpl|].
  all: rewrite Hfetch; simpl; rewrite Hok; simpl; rewrite Hjson; simpl.
  all: rewrite lookup_insert_eq; simpl.
  all: split; [done|]; split; [done|]; split; [done|].
  all: intros Hfresh; by rewrite Hfresh.
Qed.

(** A store that answers. *)
Lemma sanity_query_fetched_once_witness :
  let env := onlineEnv sampleDocs in
  let first := Sanity.fetchWithCache "*" env emptyWorld in
  let second := Sanity.fetchWithCache "*" env first.2 in
  first.1 = Return (VArr []) /\ second.1 = first.1 /\ log second.2 = log first.2.
Proof.
  intros env first second.
  destruct (sanity_query_fetched_once "*" env emptyWorld
              (mkHttpResponse true (VNum 200) "OK" (Resolved (VObj [("result", VArr [])])))
              [("result", VArr [])] eq_refl eq_refl eq_refl eq_refl)
    as (Hfirst & _ & _ & Hsecond).
  split; [exact Hfirst|]. exact (Hsecond eq_refl).
Defined.

Lemma nonempty_append (a b : string) : String.eqb (a +:+ String "-" b) "" = false.
Proof. by destruct a. Qed.

(** X22. The address of an image.  Without an image or without its asset
    the answer is [null].  For a reference [prefix-id-dimensions-format]
    the address is that of the file [id-dimensions.format] on the CDN of
    the project, whatever the id of the asset is.  An asset with neither
    a reference nor an id makes [urlFor] throw. *)
Theorem urlFor_image_address :
  (forall imageRef : Value,
      truthy imageRef = false \/ truthy (SanityRecords.prop imageRef "asset") = false ->
      SanityRecords.urlFor imageRef = Return VNull) /\
  (forall (image asset : Obj) (prefix id dimensions format : string),
      obj_get "asset" image = VObj asset ->
      obj_get "_ref" asset
        = VStr (prefix +:+ "-" +:+ id +:+ "-" +:+ dimensions +:+ "-" +:+ format) ->
      Pages.freeOf "-" prefix -> Pages.freeOf "-" id ->
      Pages.freeOf "-" dimensions -> Pages.freeOf "-" format ->
      SanityRecords.urlFor (VObj image)
        = Return (VStr ("https://cdn.sanity.io/images/xus3urqo/production/"
                        +:+ id +:+ "-" +:+ dimensions +:+ "." +:+ format))) /\
  (forall image asset : Obj,
      obj_get "asset" image = VObj asset ->
      obj_get "_ref" asset = VUndefined -> obj_get "_id" asset = VUndefined ->
      SanityRecords.urlFor (VObj image) = Throw TypeError).
Proof.
  split; [|split].
  - intros imageRef [H|H]; unfold SanityRecords.urlFor; rewrite H; [done|].
    by rewrite orb_true_r.
  - intros image asset prefix id dimensions format Hasset Href H1 H2 H3 H4.
    unfold SanityRecords.urlFor. cbn [truthy SanityRecords.prop negb orb].
    rewrite Hasset. cbn [truthy SanityRecords.prop negb orb]. rewrite Href.
    unfold orElse. cbn [truthy].
    change (prefix +:+ "-" +:+ id +:+ "-" +:+ dimensions +:+ "-" +:+ format)
      with (prefix +:+ String "-" (id +:+ String "-" (dimensions +:+ String "-" format))).
    rewrite nonempty_append. cbn [negb].
    rewrite (split_cons "-" prefix _ H1), (split_cons "-" id _ H2),
      (split_cons "-" dimensions _ H3), (split_free "-" format H4).
    reflexivity.
  - intros image asset Hasset Href Hid.
    unfold SanityRecords.urlFor. cbn [truthy SanityRecords.prop negb orb].
    rewrite Hasset. cbn [truthy SanityRecords.prop negb orb].
    by rewrite Href, Hid.
Qed.

(** X23. The data service answers a failed fetch from its cache when it
    can: with no fresh entry it issues one request; if the request is
    rejected, answered with an error status, or its body cannot be read,
    the data of the expired entry under the same key is returned, and
    only when there is no entry the error is thrown to the caller.  A
    successful answer is returned and cached. *)
Theorem data_service_stale_or_throw (url : string) (env : Env) (w : World) :
  let key := DataService.cacheKey env url in
  let run := DataService.fetchWithCache url env w in
  DataService.freshAt (clock env (clockReads w)) (cache w !! key) = false ->
  log run.2 = log w ++ [Fetch url] /\
  (forall e : Value,
      DataService.failure env w url = Some e ->
      run.1 = match cache w !! key with
              | Some entry => Return (data entry)
              | None => Throw e
              end /\
      cache run.2 = cache w) /\
  (DataService.failure env w url = None ->
   exists (response : HttpResponse) (d : Value),
     fetch env (length (log w)) url = Resolved response /\
     json response = Resolved d /\
     run.1 = Return d /\ data <$> cache run.2 !! key = Some d).
Proof.
  intros key run Hstale. subst run.
  unfold DataService.fetchWithCache, DataService.freshAt, DataService.cacheKey,
    DataService.failure in *.
  mrun. fold key.
  destruct (cache w !! key) as [entry|] eqn:Hcached; mrun;
    [rewrite Hstale; simpl|].
  all: destruct (fetch env (length (log w)) url) as [response|e0]; simpl;
    [destruct (ok response); simpl;
     [destruct (json response) as [d|e0] eqn:Hjson; simpl|]|].
  all: split; [done|]; split; [intros e [= <-]; try done|intros [=]].
  all: try done.
  all: eexists response, d; rewrite lookup_insert_eq; done.
Qed.

(** The store is unreachable and an old answer is at hand. *)
Lemma data_service_stale_or_throw_witness :
  let stale := mkEntry (VArr [VStr "old"]) 0 in
  let w := worldWith "https://example.org/api/recent-updates_{}" stale 400 in
  (DataService.fetchWithCache "https://example.org/api/recent-updates" offlineEnv w).1
    = Return (VArr [VStr "old"]) /\
  (DataService.fetchWithCache "https://example.org/api/recent-updates" offlineEnv
     emptyWorld).1 = Throw (VStr "offline").
Proof.
  intros stale w. split.
  - exact (proj1 (proj1 (proj2
      (data_service_stale_or_throw "https://example.org/api/recent-updates" offlineEnv w
         eq_refl)) (VStr "offline") eq_refl)).
  - exact (proj1 (proj1 (proj2
      (data_service_stale_or_throw "https://example.org/api/recent-updates" offlineEnv
         emptyWorld eq_refl)) (VStr "offline") eq_refl)).
Defined.

(** X24. The recent updates never fail.  On a local host the mock list is
    returned without any request.  Elsewhere the answer of the data
    service is passed on, and its error, thrown when the fetch fails with
    nothing cached, is replaced by the mock list.  The raw Sanity fetch of
    the same service passes that error on to its caller instead. *)
Theorem recent_updates_never_fail (hostname apiUrl : string) (env : Env) (w : World) :
  let run := DataService.getRecentUpdates hostname apiUrl env w in
  let url := apiUrl +:+ "/recent-updates" in
  (exists v : Value, run.1 = Return v) /\
  (DataService.isLocal hostname = true -> run = (Return DataService.getMockUpdates, w)) /\
  (DataService.isLocal hostname = false ->
   run.2 = (DataService.fetchWithCache url env w).2 /\
   (forall v : Value,
       (DataService.fetchWithCache url env w).1 = Return v -> run.1 = Return v) /\
   (forall e : Value,
       (DataService.fetchWithCache url env w).1 = Throw e ->
       run.1 = Return DataService.getMockUpdates)) /\
  (forall (query : string) (e : Value),
      (DataService.fetchWithCache (DataService.sanityUrl env query) env w).1 = Throw e ->
      (DataService.fetchFromSanity query env w).1 = Throw e).
Proof.
  intros run url. subst run. unfold DataService.getRecentUpdates.
  split; [|split; [|split]].
  - munfold. destruct (DataService.isLocal hostname); [by eauto|].
    destruct (DataService.fetchWithCache _ env w) as [[v|e] w']; simpl; eauto.
  - intros ->. done.
  - intros ->. munfold. fold url.
    destruct (DataService.fetchWithCache url env w) as [[v|e] w']; simpl.
    + split; [done|]. split; [by intros ? [= <-]|done].
    + split; [done|]. split; [done|]. done.
  - intros query e. unfold DataService.fetchFromSanity. munfold.
    destruct (DataService.fetchWithCache _ env w) as [[v|e'] w']; simpl; [done|].
    by intros [= <-].
Qed.

End SanityCoverage.
